(** * ffexport.parse_db: reading visits and site data from a Firefox
      places database, and merging them into [Visit] records.

    The development follows [src/ffexport/parse_db.py]:
    - the record types that flow through the module ([MozVisit], [MozPlace],
      [Visit]);
    - [single_db_merge], the in-memory reconciliation of visits and places;
    - the timestamp conversion [datetime.fromtimestamp(us / 1_000_000, utc)];
    - the sqlite layer: connections, the memoised [_sanity_check], and the
      generators [_execute_conn] / [_execute_query] as resumable machines;
    - the three readers [single_db_visits], [single_db_sitedata] and
      [read_visits]. *)

From Stdlib Require Import ZArith String Ascii List Bool Lia.
From Stdlib Require Import SpecFloat Zpower.
From stdpp Require Import base option list gmap strings.

Local Open Scope Z_scope.

(** ** Record types ([ffexport.model]) *)

(** [datetime.timezone]: the only zone this module ever attaches is
    [timezone.utc]; a naive datetime carries [None]. *)
Inductive timezone := utc.

Record datetime := mk_datetime {
  year : Z; month : Z; day : Z;
  hour : Z; minute : Z; second : Z; microsecond : Z;
  tzinfo : option timezone
}.

Module MozVisit.
Record t := mk {
  url : string;
  place_id : Z;
  visit_id : Z;
  visit_date : datetime;
  visit_type : option Z
}.
End MozVisit.

Module MozPlace.
Record t := mk {
  place_id : Z;
  title : option string;
  description : option string;
  preview_image : option string
}.
End MozPlace.

Module Visit.
Record t := mk {
  url : string;
  visit_date : datetime;
  visit_type : option Z;
  title : option string;
  description : option string;
  preview_image : option string
}.
End Visit.

(** ** [single_db_merge] *)

(** The first loop: [site_dict[s.place_id] = s] for every [s], in order. *)
Definition site_dict_of (site_list : list MozPlace.t) : gmap Z MozPlace.t :=
  foldl (fun d s => <[MozPlace.place_id s := s]> d) ∅ site_list.

(** The body of the second loop, for one visit [v]. *)
Definition merge_visit (site_dict : gmap Z MozPlace.t) (v : MozVisit.t) : Visit.t :=
  let '(t, ds, pi) :=
    match site_dict !! MozVisit.place_id v with
    | Some s => (MozPlace.title s, MozPlace.description s, MozPlace.preview_image s)
    | None => (None, None, None)
    end in
  Visit.mk (MozVisit.url v) (MozVisit.visit_date v) (MozVisit.visit_type v) t ds pi.

(** The values the generator yields, in the order it yields them. *)
Definition single_db_merge (visit_list : list MozVisit.t) (site_list : list MozPlace.t)
  : list Visit.t :=
  let site_dict := site_dict_of site_list in
  merge_visit site_dict <$> visit_list.

(** The part of a record that identifies the visit event. *)
Definition mozvisit_event (v : MozVisit.t) : string * datetime * option Z :=
  (MozVisit.url v, MozVisit.visit_date v, MozVisit.visit_type v).

Definition visit_event (o : Visit.t) : string * datetime * option Z :=
  (Visit.url o, Visit.visit_date o, Visit.visit_type o).

Definition visit_metadata (o : Visit.t) : option string * option string * option string :=
  (Visit.title o, Visit.description o, Visit.preview_image o).

Definition place_metadata (s : MozPlace.t) : option string * option string * option string :=
  (MozPlace.title s, MozPlace.description s, MozPlace.preview_image s).

(** ** Exceptions *)

(** The exceptions that can leave this module.  [OperationalError] and
    [ProgrammingError] are subclasses of [sqlite3.DatabaseError]. *)
Inductive exn :=
  | DatabaseError (msg : string)
  | OperationalError (msg : string)
  | ProgrammingError (msg : string)
  | TypeError
  | ValueError
  | OverflowError
  | ZeroDivisionError
  | GeneratorExit.

(** [isinstance(e, sqlite3.DatabaseError)], the test of the [except] clause. *)
Definition is_DatabaseError (e : exn) : bool :=
  match e with
  | DatabaseError _ | OperationalError _ | ProgrammingError _ => true
  | _ => false
  end.

Inductive result (A : Type) :=
  | Ok (a : A)
  | Raise (e : exn).
Arguments Ok {A} a.
Arguments Raise {A} e.

(** Sequencing: an exception skips the rest of the computation. *)
#[global] Instance result_ret : MRet result := fun A a => Ok a.
#[global] Instance result_bind : MBind result := fun A B k r =>
  match r with
  | Ok a => k a
  | Raise e => Raise e
  end.

(** ** Timestamps: [datetime.fromtimestamp(us / 1_000_000, timezone.utc)] *)

Module Float.
(** Python floats are IEEE 754 binary64. *)
Definition prec : Z := 53.
Definition emax : Z := 1024.
Definition t := spec_float.

(** The double nearest to an integer (ties to even). *)
Definition of_Z (n : Z) : t := binary_normalize prec emax n 0 false.

(** [int.__truediv__]: the quotient of the two integers as exact rationals,
    rounded once to the nearest double. *)
Definition int_truediv (a b : Z) : result t :=
  match a, b with
  | _, Z0 => Raise ZeroDivisionError
  | Z0, _ => Ok (S754_zero (b <? 0))
  | _, _ =>
    let s := xorb (a <? 0) (b <? 0) in
    let '(mz, ez, lz) := SFdiv_core_binary prec emax (Z.abs a) 0 (Z.abs b) 0 in
    match binary_round_aux prec emax s mz ez lz with
    | S754_infinity _ => Raise OverflowError
    | q => Ok q
    end
  end.

Definition mul (x y : t) : t := SFmul prec emax x y.

(** C [modf]: fractional and integral part, both with the sign of [d]. *)
Definition modf (d : t) : t * t :=
  match d with
  | S754_finite s m e =>
    if 0 <=? e then (S754_zero s, d)
    else
      let k := 2 ^ (- e) in
      (binary_normalize prec emax (cond_Zopp s (Zpos m mod k)) e s,
       binary_normalize prec emax (cond_Zopp s (Zpos m / k)) 0 s)
  | S754_infinity s => (S754_zero s, d)
  | _ => (d, d)
  end.

(** The integer a finite double with no fractional part stands for. *)
Definition to_Z (d : t) : Z :=
  match d with
  | S754_finite s m e =>
    cond_Zopp s (if 0 <=? e then Zpos m * 2 ^ e else Zpos m / 2 ^ (- e))
  | _ => 0
  end.

(** [_PyTime_RoundHalfEven]: the nearest integer, ties to the even one. *)
Definition round_half_even (d : t) : Z :=
  match d with
  | S754_finite s m e =>
    if 0 <=? e then cond_Zopp s (Zpos m * 2 ^ e)
    else
      let k := 2 ^ (- e) in
      let q := Zpos m / k in
      let r := Zpos m mod k in
      cond_Zopp s
        match 2 * r ?= k with
        | Lt => q
        | Gt => q + 1
        | Eq => if Z.even q then q else q + 1
        end
  | _ => 0
  end.
End Float.

(** [_PyTime_ObjectToTimeval(timestamp, &timet, &us, _PyTime_ROUND_HALF_EVEN)]
    for a float timestamp: whole seconds and microseconds in [0, 10^6).
    The carry [intpart += 1.0] only happens next to a fractional part, where
    doubles hold integers exactly, so seconds are kept as an integer; [time_t]
    is a signed 64-bit integer. *)
Definition _PyTime_ObjectToTimeval (d : Float.t) : result (Z * Z) :=
  match d with
  | S754_nan => Raise ValueError
  | S754_infinity _ => Raise OverflowError
  | _ =>
    let '(floatpart, intpart) := Float.modf d in
    let floatpart := Float.mul floatpart (Float.of_Z 1000000) in
    let us := Float.round_half_even floatpart in
    let sec := Float.to_Z intpart in
    let '(sec, us) :=
      if 1000000 <=? us then (sec + 1, us - 1000000)
      else if us <? 0 then (sec - 1, us + 1000000)
      else (sec, us) in
    if (- 2 ^ 63 <=? sec) && (sec <? 2 ^ 63) then Ok (sec, us)
    else Raise OverflowError
  end.

(** The proleptic Gregorian date of a day number counted from 1970-01-01. *)
Definition civil_from_days (days : Z) : Z * Z * Z :=
  let z := days + 719468 in
  let era := z / 146097 in
  let doe := z - era * 146097 in
  let yoe := (doe - doe / 1460 + doe / 36524 - doe / 146096) / 365 in
  let doy := doe - (365 * yoe + yoe / 4 - yoe / 100) in
  let mp := (5 * doy + 2) / 153 in
  let d := doy - (153 * mp + 2) / 5 + 1 in
  let m := if mp <? 10 then mp + 3 else mp - 9 in
  let y := yoe + era * 400 + (if m <=? 2 then 1 else 0) in
  (y, m, d).

(** The day number of a proleptic Gregorian date, counted from 1970-01-01. *)
Definition days_from_civil (y m d : Z) : Z :=
  let y := if m <=? 2 then y - 1 else y in
  let era := y / 400 in
  let yoe := y - era * 400 in
  let doy := (153 * (if 2 <? m then m - 3 else m + 9) + 2) / 5 + d - 1 in
  let doe := yoe * 365 + yoe / 4 - yoe / 100 + doy in
  era * 146097 + doe - 719468.

(** [datetime_from_timet_and_us] with [gmtime], then [tz.fromutc] for
    [tz = timezone.utc]: the fields of the UTC broken-down time with the zone
    attached; years outside 1..9999 are refused. *)
Definition datetime_from_timet_and_us (timet us : Z) (tz : timezone) : result datetime :=
  let days := timet / 86400 in
  let rem := timet mod 86400 in
  let '(y, m, d) := civil_from_days days in
  if (1 <=? y) && (y <=? 9999) then
    Ok (mk_datetime y m d (rem / 3600) (rem mod 3600 / 60) (rem mod 60) us (Some tz))
  else Raise ValueError.

(** [datetime.fromtimestamp(timestamp, tz)] for a float [timestamp]. *)
Definition fromtimestamp (timestamp : Float.t) (tz : timezone) : result datetime :=
  '(timet, us) ← _PyTime_ObjectToTimeval timestamp;
  datetime_from_timet_and_us timet us tz.

(** The expression both readers apply to the stored [visit_date]:
    [datetime.fromtimestamp(row["visit_date"] / 1_000_000, timezone.utc)];
    a NULL cell is [None], and [None / 1_000_000] is a [TypeError]. *)
Definition visit_date_of_cell (cell : option Z) : result datetime :=
  match cell with
  | None => Raise TypeError
  | Some us =>
    t ← Float.int_truediv us 1000000;
    fromtimestamp t utc
  end.

(** The instant a datetime denotes, in microseconds since the Unix epoch. *)
Definition epoch_microseconds (dt : datetime) : Z :=
  ((days_from_civil (year dt) (month dt) (day dt) * 86400
    + hour dt * 3600 + minute dt * 60 + second dt) * 1000000
   + microsecond dt).

(** Round to nearest, ties to even, as the double operations round. *)

(** [m / 2 ^ n] rounded to the nearest integer, ties to the even one. *)
Definition round_shift (m n : Z) : Z :=
  let q := m / 2 ^ n in
  let r := m mod 2 ^ n in
  match 2 * r ?= 2 ^ n with
  | Lt => q
  | Gt => q + 1
  | Eq => if Z.even q then q else q + 1
  end.

(** [num / den] rounded to the nearest integer, ties to the even one. *)
Definition round_div (num den : Z) : Z :=
  let q := num / den in
  let r := num mod den in
  match 2 * r ?= den with
  | Lt => q
  | Gt => q + 1
  | Eq => if Z.even q then q else q + 1
  end.

(** ** The places database *)

(** A text cell is kept as the bytes sqlite stores; a NULL cell is [None]. *)
Module moz_places.
Record row := mk {
  id : Z;
  url : option string;
  title : option string;
  description : option string;
  preview_image_url : option string
}.
End moz_places.

Module moz_historyvisits.
Record row := mk {
  id : Z;
  place_id : option Z;
  visit_date : option Z;
  visit_type : option Z
}.
End moz_historyvisits.

(** The tables the module's statements name; a table may be missing. *)
Record database := mk_database {
  tbl_moz_meta : option (list (string * string));
  tbl_moz_historyvisits : option (list moz_historyvisits.row);
  tbl_moz_places : option (list moz_places.row)
}.

(** What a file on disk holds, as far as sqlite can tell. *)
Inductive file_content :=
  | NotADatabase
  | Places (d : database).

(** [id] is the primary key of [moz_places]. *)
Definition places_primary_key (d : database) : Prop :=
  forall places, tbl_moz_places d = Some places ->
    NoDup (moz_places.id <$> places).

(** The three statements of the module. *)
Inductive query := VISIT_QUERY | SITEDATA_QUERY | COMBINED_QUERY.

(** The [sqlite3.Row] of each statement, by column name. *)
Module VisitRow.
Record t := mk {
  url : option string;
  pid : Z;
  vid : Z;
  visit_date : option Z;
  visit_type : option Z
}.
End VisitRow.

Module SiteRow.
Record t := mk {
  pid : Z;
  title : option string;
  description : option string;
  preview_image_url : option string
}.
End SiteRow.

Module CombinedRow.
Record t := mk {
  url : option string;
  visit_date : option Z;
  visit_type : option Z;
  title : option string;
  description : option string;
  preview_image_url : option string
}.
End CombinedRow.

Definition row_of (q : query) : Type :=
  match q with
  | VISIT_QUERY => VisitRow.t
  | SITEDATA_QUERY => SiteRow.t
  | COMBINED_QUERY => CombinedRow.t
  end.

(** [FROM moz_historyvisits as V, moz_places as P WHERE V.place_id = P.id]:
    the pairs of the join, visits in the outer loop.  A NULL [place_id]
    equals no [id]. *)
Definition visits_join_places
    (visits : list moz_historyvisits.row) (places : list moz_places.row)
  : list (moz_historyvisits.row * moz_places.row) :=
  V ← visits;
  P ← places;
  if decide (moz_historyvisits.place_id V = Some (moz_places.id P))
  then [(V, P)] else [].

Definition visit_columns (VP : moz_historyvisits.row * moz_places.row) : VisitRow.t :=
  let '(V, P) := VP in
  VisitRow.mk (moz_places.url P) (moz_places.id P) (moz_historyvisits.id V)
    (moz_historyvisits.visit_date V) (moz_historyvisits.visit_type V).

Definition combined_columns (VP : moz_historyvisits.row * moz_places.row) : CombinedRow.t :=
  let '(V, P) := VP in
  CombinedRow.mk (moz_places.url P)
    (moz_historyvisits.visit_date V) (moz_historyvisits.visit_type V)
    (moz_places.title P) (moz_places.description P) (moz_places.preview_image_url P).

(** [WHERE P.title IS NOT NULL OR P.description IS NOT NULL
     OR P.preview_image_url IS NOT NULL]. *)
Definition has_sitedata (P : moz_places.row) : bool :=
  bool_decide (moz_places.title P <> None)
  || bool_decide (moz_places.description P <> None)
  || bool_decide (moz_places.preview_image_url P <> None).

Definition sitedata_columns (P : moz_places.row) : SiteRow.t :=
  SiteRow.mk (moz_places.id P) (moz_places.title P) (moz_places.description P)
    (moz_places.preview_image_url P).

Definition table {A} (name : string) (t : option (list A)) : result (list A) :=
  match t with
  | Some rows => Ok rows
  | None => Raise (OperationalError ("no such table: " ++ name))
  end.

Definition select_visits (d : database) : result (list VisitRow.t) :=
  visits ← table "moz_historyvisits" (tbl_moz_historyvisits d);
  places ← table "moz_places" (tbl_moz_places d);
  Ok (visit_columns <$> visits_join_places visits places).

Definition places_with_sitedata (places : list moz_places.row) : list moz_places.row :=
  filter (fun P => has_sitedata P = true) places.

Definition select_sitedata (d : database) : result (list SiteRow.t) :=
  places ← table "moz_places" (tbl_moz_places d);
  Ok (sitedata_columns <$> places_with_sitedata places).

Definition select_combined (d : database) : result (list CombinedRow.t) :=
  visits ← table "moz_historyvisits" (tbl_moz_historyvisits d);
  places ← table "moz_places" (tbl_moz_places d);
  Ok (combined_columns <$> visits_join_places visits places).

(** The rows a statement selects from a file, before text is decoded. *)
Definition select (f : file_content) (q : query) : result (list (row_of q)) :=
  match f with
  | NotADatabase => Raise (DatabaseError "file is not a database")
  | Places d =>
    match q return result (list (row_of q)) with
    | VISIT_QUERY => select_visits d
    | SITEDATA_QUERY => select_sitedata d
    | COMBINED_QUERY => select_combined d
    end
  end.

(** [SELECT * from moz_meta], whose rows are never fetched. *)
Definition select_moz_meta (f : file_content) : result unit :=
  match f with
  | NotADatabase => Raise (DatabaseError "file is not a database")
  | Places d => _ ← table "moz_meta" (tbl_moz_meta d); Ok ()
  end.

(** ** Connections and the state of the process *)

Inductive row_factory_t := sqlite3_Row.

(** [str], the default, decodes strictly; the other value is
    [lambda b: b.decode(errors="ignore")]. *)
Inductive text_factory_t := text_factory_str | text_factory_decode_ignore.

Record connection := mk_connection {
  conn_file : file_content;
  closed : bool;
  row_factory : option row_factory_t;
  text_factory : text_factory_t;
  in_transaction : bool
}.

(** [PathIsh = Union[Path, str]]; a [Path] and a [str] never compare equal. *)
Inductive PathIsh :=
  | a_str (s : string)
  | a_Path (s : string).

#[global] Instance PathIsh_eq_dec : EqDecision PathIsh.
Proof. solve_decision. Defined.

#[global] Instance PathIsh_countable : Countable PathIsh :=
  inj_countable'
    (fun p => match p with a_str s => inl s | a_Path s => inr s end)
    (fun x => match x with inl s => a_str s | inr s => a_Path s end)
    (fun p => match p with a_str _ | a_Path _ => eq_refl end).

(** [PathIshOrConn = Union[PathIsh, sqlite3.Connection]]; a connection object
    is named by its position in [conns]. *)
Inductive PathIshOrConn :=
  | a_path (p : PathIsh)
  | a_connection (conn : nat).

(** The part of the process and of the disk the module touches: what
    sqlite finds under each path (the statements are all [SELECT]s, so the
    contents are only read), every connection object created so far, the
    cache [lru_cache] keeps for [_sanity_check], and a count of the
    [SELECT * from moz_meta] statements executed. *)
Record world := mk_world {
  files : gmap string file_content;
  conns : list connection;
  sanity_cache : gmap PathIsh unit;
  probes : nat
}.

Definition set_conns (f : list connection -> list connection) (w : world) : world :=
  mk_world (files w) (f (conns w)) (sanity_cache w) (probes w).

Definition set_sanity_cache (f : gmap PathIsh unit -> gmap PathIsh unit) (w : world) : world :=
  mk_world (files w) (conns w) (f (sanity_cache w)) (probes w).

Definition count_probe (w : world) : world :=
  mk_world (files w) (conns w) (sanity_cache w) (S (probes w)).

(** A statement of the module: it may read and change the world, and either
    returns a value or raises. *)
Definition M (A : Type) : Type := world -> result A * world.

#[global] Instance M_ret : MRet M := fun A a w => (Ok a, w).
#[global] Instance M_bind : MBind M := fun A B k m w =>
  match m w with
  | (Ok a, w') => k a w'
  | (Raise e, w') => (Raise e, w')
  end.

Definition raise {A} (e : exn) : M A := fun w => (Raise e, w).
Definition lift {A} (r : result A) : M A := fun w => (r, w).
Definition modify (f : world -> world) : M unit := fun w => (Ok (), f w).

(** [try: body finally: final]. *)
Definition try_finally {A} (body : M A) (final : M unit) : M A := fun w =>
  let '(r, w1) := body w in
  match final w1 with
  | (Ok _, w2) => (r, w2)
  | (Raise e, w2) => (Raise e, w2)
  end.

(** [try: body except C as e: handler(e)], [handles] being [isinstance(e, C)]. *)
Definition try_except {A} (body : M A) (handles : exn -> bool) (handler : exn -> M A)
  : M A := fun w =>
  match body w with
  | (Raise e, w1) => if handles e then handler e w1 else (Raise e, w1)
  | (Ok a, w1) => (Ok a, w1)
  end.

Module Connection.
Definition get (conn : nat) : M connection := fun w =>
  match conns w !! conn with
  | Some c => (Ok c, w)
  | None => (Raise (ProgrammingError "not a connection"), w)
  end.

Definition update (conn : nat) (f : connection -> connection) : M unit :=
  modify (set_conns (alter f conn)).

(** Every operation on a closed connection is refused. *)
Definition check_open (conn : nat) : M connection :=
  c ← get conn;
  if closed c then raise (ProgrammingError "Cannot operate on a closed database.")
  else mret c.

Definition set_row_factory (v : option row_factory_t) (c : connection) :=
  mk_connection (conn_file c) (closed c) v (text_factory c) (in_transaction c).
Definition set_text_factory (v : text_factory_t) (c : connection) :=
  mk_connection (conn_file c) (closed c) (row_factory c) v (in_transaction c).
Definition set_closed (c : connection) :=
  mk_connection (conn_file c) true (row_factory c) (text_factory c) false.
Definition end_transaction (c : connection) :=
  mk_connection (conn_file c) (closed c) (row_factory c) (text_factory c) false.

(** [conn.close()]; closing twice is allowed. *)
Definition close (conn : nat) : M unit := update conn set_closed.

Definition commit (conn : nat) : M unit :=
  _ ← check_open conn; update conn end_transaction.
Definition rollback (conn : nat) : M unit :=
  _ ← check_open conn; update conn end_transaction.

(** The context manager of [sqlite3.Connection]: [__enter__] returns the
    connection; [__exit__] commits when the block ended normally and rolls
    back when it ended with an exception, which it lets through.  It does
    not close the connection. *)
Definition __enter__ (conn : nat) : M nat := mret conn.
Definition __exit__ (conn : nat) (exc : option exn) : M unit :=
  match exc with
  | None => commit conn
  | Some _ => rollback conn
  end.

(** [conn.execute(query)]: the cursor over the selected rows. *)
Definition execute (conn : nat) (q : query) : M (list (row_of q)) :=
  c ← check_open conn; lift (select (conn_file c) q).

(** [conn.execute("SELECT * from moz_meta")]. *)
Definition execute_moz_meta (conn : nat) : M unit :=
  c ← check_open conn;
  _ ← modify count_probe;
  lift (select_moz_meta (conn_file c)).
End Connection.

(** [sqlite3.connect(f"file:{p}?immutable=1", uri=True)]: a new connection
    object with the default factories.  [files] holds, for a path, what
    sqlite finds when it opens that URI: a path it cannot open at all (no
    such directory, no permission) has no entry and [connect] raises; a file
    that is missing from a directory that is there is opened as a database
    without tables. *)
Definition sqlite3_connect (p : string) : M nat := fun w =>
  match files w !! p with
  | None => (Raise (OperationalError "unable to open database file"), w)
  | Some f =>
    (Ok (length (conns w)),
     set_conns (fun cs => cs ++ [mk_connection f false None text_factory_str false]) w)
  end.

(** ** A small profile, for the examples *)

Definition example_places : list moz_places.row :=
  [ moz_places.mk 1 (Some "https://example.com/a%20b") (Some "Home") None None;
    moz_places.mk 2 (Some "https://example.org/") None None None ].

Definition example_visits : list moz_historyvisits.row :=
  [ moz_historyvisits.mk 10 (Some 1) (Some 1700000000000000) (Some 1);
    moz_historyvisits.mk 11 (Some 2) (Some 1700000000123457) (Some 2) ].

Definition example_db : database :=
  mk_database (Some [("origin_frecency_count", "2")])
    (Some example_visits) (Some example_places).

(** The same store without the [moz_meta] table. *)
Definition example_db_no_meta : database :=
  mk_database None (Some example_visits) (Some example_places).

(** Two files on disk, one connection the caller has opened, nothing
    validated yet. *)
Definition example_world : world :=
  mk_world
    (<["places.sqlite" := Places example_db]>
       (<["old.sqlite" := Places example_db_no_meta]> ∅))
    [mk_connection (Places example_db) false None text_factory_str false]
    ∅ 0.

Definition example_path : PathIsh := a_str "places.sqlite".
Definition example_old_path : PathIsh := a_str "old.sqlite".

Definition example_expand_path (p : PathIsh) : string :=
  match p with a_str s | a_Path s => s end.

Definition hex_digit (c : Ascii.ascii) : option nat :=
  let n := Ascii.nat_of_ascii c in
  if (48 <=? n)%nat && (n <=? 57)%nat then Some (n - 48)%nat
  else if (65 <=? n)%nat && (n <=? 70)%nat then Some (n - 55)%nat
  else if (97 <=? n)%nat && (n <=? 102)%nat then Some (n - 87)%nat
  else None.

(** Percent-decoding of the escapes of ASCII characters. *)
Fixpoint example_unquote (s : string) : string :=
  match s with
  | EmptyString => EmptyString
  | String c s' =>
    match c, s' with
    | "%"%char, String a (String b rest) =>
      match hex_digit a, hex_digit b with
      | Some x, Some y =>
        String (Ascii.ascii_of_nat (16 * x + y)) (example_unquote rest)
      | _, _ => String c (example_unquote s')
      end
    | _, _ => String c (example_unquote s')
    end
  end.

Definition example_decode (b : string) : option string := Some b.
Definition example_decode_ignore (b : string) : string := b.

Definition example_visit_list : list MozVisit.t :=
  [ MozVisit.mk "https://example.com/a b" 1 10
      (mk_datetime 2023 11 14 22 13 20 0 (Some utc)) (Some 1);
    MozVisit.mk "https://example.org/" 2 11
      (mk_datetime 2023 11 14 22 13 20 123457 (Some utc)) (Some 2) ].

Definition example_site_list : list MozPlace.t :=
  [ MozPlace.mk 1 (Some "Home") None None;
    MozPlace.mk 1 (Some "Home, again") (Some "the start page") None;
    MozPlace.mk 3 (Some "Elsewhere") None None ].




(** A store with visits that refer to no place: one names a place that is
    not there, one has a NULL [place_id]. *)
Definition example_visits_dangling : list moz_historyvisits.row :=
  [ moz_historyvisits.mk 10 (Some 1) (Some 1700000000000000) (Some 1);
    moz_historyvisits.mk 12 (Some 7) (Some 1700000000000001) (Some 1);
    moz_historyvisits.mk 13 None (Some 1700000000000002) (Some 1);
    moz_historyvisits.mk 11 (Some 2) (Some 1700000000123457) (Some 2) ].

Definition example_db_dangling : database :=
  mk_database (Some []) (Some example_visits_dangling) (Some example_places).

(** A store whose third place has no url, with a visit to it between two
    visits to the first place. *)
Definition example_places_null_url : list moz_places.row :=
  example_places ++ [ moz_places.mk 3 None (Some "Untitled") None None ].

Definition example_visits_null_url : list moz_historyvisits.row :=
  [ moz_historyvisits.mk 10 (Some 1) (Some 1700000000000000) (Some 1);
    moz_historyvisits.mk 14 (Some 3) (Some 1700000000999999) (Some 1);
    moz_historyvisits.mk 15 (Some 1) (Some 1700000001000000) (Some 1) ].

Definition example_db_null_url : database :=
  mk_database (Some []) (Some example_visits_null_url) (Some example_places_null_url).

(** A process that holds one open connection, to [d], and nothing else. *)
Definition example_world_on (d : database) : world :=
  mk_world ∅ [mk_connection (Places d) false None text_factory_str false] ∅ 0.

(** [old.sqlite] was validated at a time when it still had its [moz_meta]. *)
Definition example_world_validated : world :=
  set_sanity_cache (insert example_old_path ()) example_world.

(** A file that is no database at all. *)
Definition example_notes_path : PathIsh := a_Path "notes.txt".

Definition example_world_notes : world :=
  mk_world (<["notes.txt" := NotADatabase]> (files example_world))
    (conns example_world) ∅ 0.

(** ** Generators *)

(** What one [next()] on a generator produces. *)
Inductive event (A : Type) :=
  | Yielded (a : A)
  | Stopped
  | Raised (e : exn).
Arguments Yielded {A} a.
Arguments Stopped {A}.
Arguments Raised {A} e.

(** A resumed generator body runs to its next [yield] (a value and the state
    it is suspended in), to its end ([None]), or raises; after either of the
    last two the generator is finished. *)
Definition resume_to_next {A S} (finished : S) (body : M (option (A * S)))
  : world -> event A * S * world := fun w =>
  match body w with
  | (Ok (Some (a, s)), w') => (Yielded a, s, w')
  | (Ok None, w') => (Stopped, finished, w')
  | (Raise e, w') => (Raised e, finished, w')
  end.

(** How consuming a generator to the end can turn out. *)
Inductive outcome :=
  | Exhausted
  | Failed (e : exn)
  | OutOfFuel.

(** At most [fuel] calls of [next()], collecting what is yielded. *)
Fixpoint run {A S} (next : S -> world -> event A * S * world)
    (fuel : nat) (s : S) (w : world) : list A * outcome * S * world :=
  match fuel with
  | O => ([], OutOfFuel, s, w)
  | S fuel' =>
    match next s w with
    | (Yielded a, s', w') =>
      let '(l, o, s'', w'') := run next fuel' s' w' in (a :: l, o, s'', w'')
    | (Stopped, s', w') => ([], Exhausted, s', w')
    | (Raised e, s', w') => ([], Failed e, s', w')
    end
  end.

(** [list(g)] as a Python value: the list, or the exception that ended it. *)
Definition as_result {A} (l : list A) (o : outcome) : result (list A) :=
  match o with
  | Exhausted => Ok l
  | Failed e => Raise e
  | OutOfFuel => Raise OverflowError
  end.

(** What a caller can do with a generator it holds. *)
Inductive gen_op := do_next | do_close.

(** [_execute_conn]: the generator is not started yet, or is suspended at [yield row] with
    the rest of the cursor still to fetch, or is finished. *)
Inductive _execute_conn_state (q : query) :=
  | EC_start (conn : nat)
  | EC_yield (conn : nat) (cursor : list (row_of q))
  | EC_done.
Arguments EC_start {q} conn.
Arguments EC_yield {q} conn cursor.
Arguments EC_done {q}.

(** [_execute_query]: not started; or suspended in the [yield from] of the connection branch;
    or suspended in the [yield from] inside [with ... as c]; or finished. *)
Inductive _execute_query_state (q : query) :=
  | EQ_start (sqlite_path : PathIshOrConn)
  | EQ_yield_from (inner : _execute_conn_state q)
  | EQ_with_yield_from (c : nat) (inner : _execute_conn_state q)
  | EQ_done.
Arguments EQ_start {q} sqlite_path.
Arguments EQ_yield_from {q} inner.
Arguments EQ_with_yield_from {q} c inner.
Arguments EQ_done {q}.

Section Reader.
(** From [ffexport.common] and the standard library:
    [expand_path], as [str(expand_path(p))]; [urllib.parse.unquote];
    [bytes.decode()] (strict: [None] on malformed input) and
    [bytes.decode(errors="ignore")]. *)
Variable expand_path : PathIsh -> string.
Variable unquote : string -> string.
Variable decode : string -> option string.
Variable decode_ignore : string -> string.

(** *** [_sanity_check] *)

(** The function under the decorator. *)
Definition _sanity_check__wrapped__ (sqlite_path : PathIsh) : M unit :=
  conn ← sqlite3_connect (expand_path sqlite_path);
  try_finally
    (try_except (Connection.execute_moz_meta conn)
       is_DatabaseError
       (fun sql_err => (* logger.error(...); logger.exception(sql_err) *)
          raise sql_err))
    (Connection.close conn).

(** [@lru_cache(maxsize=None)]: a cached argument returns its stored value
    without running the function; a value is stored when the function
    returns, not when it raises. *)
Definition _sanity_check (sqlite_path : PathIsh) : M unit := fun w =>
  match sanity_cache w !! sqlite_path with
  | Some r => (Ok r, w)
  | None =>
    match _sanity_check__wrapped__ sqlite_path w with
    | (Ok r, w') => (Ok r, set_sanity_cache (insert sqlite_path r) w')
    | (Raise e, w') => (Raise e, w')
    end
  end.

(** *** Rows as the connection hands them out *)

Definition apply_text_factory (tf : text_factory_t) (b : string) : result string :=
  match tf with
  | text_factory_str =>
    match decode b with
    | Some s => Ok s
    | None => Raise (OperationalError "Could not decode to UTF-8")
    end
  | text_factory_decode_ignore => Ok (decode_ignore b)
  end.

Definition text_cell (tf : text_factory_t) (cell : option string)
  : result (option string) :=
  match cell with
  | None => Ok None
  | Some b => s ← apply_text_factory tf b; Ok (Some s)
  end.

Definition fetch_visit (tf : text_factory_t) (r : VisitRow.t) : result VisitRow.t :=
  url ← text_cell tf (VisitRow.url r);
  Ok (VisitRow.mk url (VisitRow.pid r) (VisitRow.vid r)
        (VisitRow.visit_date r) (VisitRow.visit_type r)).

Definition fetch_site (tf : text_factory_t) (r : SiteRow.t) : result SiteRow.t :=
  title ← text_cell tf (SiteRow.title r);
  description ← text_cell tf (SiteRow.description r);
  preview_image_url ← text_cell tf (SiteRow.preview_image_url r);
  Ok (SiteRow.mk (SiteRow.pid r) title description preview_image_url).

Definition fetch_combined (tf : text_factory_t) (r : CombinedRow.t)
  : result CombinedRow.t :=
  url ← text_cell tf (CombinedRow.url r);
  title ← text_cell tf (CombinedRow.title r);
  description ← text_cell tf (CombinedRow.description r);
  preview_image_url ← text_cell tf (CombinedRow.preview_image_url r);
  Ok (CombinedRow.mk url (CombinedRow.visit_date r) (CombinedRow.visit_type r)
        title description preview_image_url).

Definition fetch (tf : text_factory_t) (q : query) : row_of q -> result (row_of q) :=
  match q with
  | VISIT_QUERY => fetch_visit tf
  | SITEDATA_QUERY => fetch_site tf
  | COMBINED_QUERY => fetch_combined tf
  end.

(** One step of iterating a cursor: the connection must still be open, and
    the text cells of the row go through its [text_factory]. *)
Definition cursor_next {q} (conn : nat) (cursor : list (row_of q))
  : M (option (row_of q * list (row_of q))) :=
  c ← Connection.check_open conn;
  match cursor with
  | [] => mret None
  | raw :: rest =>
    row ← lift (fetch (text_factory c) q raw);
    mret (Some (row, rest))
  end.

(** *** [_execute_conn] *)

(** [for row in cursor: yield row]. *)
Definition _execute_conn_loop {q} (conn : nat) (cursor : list (row_of q))
  : M (option (row_of q * _execute_conn_state q)) :=
  r ← cursor_next conn cursor;
  match r with
  | Some (row, rest) => mret (Some (row, EC_yield conn rest))
  | None => mret None
  end.

Definition _execute_conn_body {q} (s : _execute_conn_state q)
  : M (option (row_of q * _execute_conn_state q)) :=
  match s with
  | EC_start conn =>
    _ ← Connection.update conn (Connection.set_row_factory (Some sqlite3_Row));
    _ ← Connection.update conn (Connection.set_text_factory text_factory_decode_ignore);
    cursor ← Connection.execute conn q;
    _execute_conn_loop conn cursor
  | EC_yield conn cursor => _execute_conn_loop conn cursor
  | EC_done => mret None
  end.

Definition _execute_conn_next {q} (s : _execute_conn_state q) :=
  resume_to_next EC_done (_execute_conn_body s).

(** *** [_execute_query] *)

(** [yield from _execute_conn(sqlite_path, query)]. *)
Definition yield_from {q} (inner : _execute_conn_state q)
  : M (option (row_of q * _execute_query_state q)) :=
  r ← _execute_conn_body inner;
  match r with
  | Some (row, inner') => mret (Some (row, EQ_yield_from inner'))
  | None => mret None
  end.

(** [with ... as c: yield from _execute_conn(c, query)]: when the inner
    generator ends or raises, the block is left through [c.__exit__]. *)
Definition with_yield_from {q} (c : nat) (inner : _execute_conn_state q)
  : M (option (row_of q * _execute_query_state q)) := fun w =>
  match _execute_conn_body inner w with
  | (Ok (Some (row, inner')), w') =>
    (Ok (Some (row, EQ_with_yield_from c inner')), w')
  | (Ok None, w') =>
    (_ ← Connection.__exit__ c None; mret None) w'
  | (Raise e, w') =>
    (_ ← Connection.__exit__ c (Some e); raise e) w'
  end.

Definition _execute_query_body {q} (s : _execute_query_state q)
  : M (option (row_of q * _execute_query_state q)) :=
  match s with
  | EQ_start sqlite_path =>
    _ ← match sqlite_path with
        | a_path p => _sanity_check p
        | a_connection _ => mret ()
        end;
    match sqlite_path with
    | a_connection conn => yield_from (EC_start conn)
    | a_path p =>
      conn ← sqlite3_connect (expand_path p);
      c ← Connection.__enter__ conn;
      with_yield_from c (EC_start c)
    end
  | EQ_yield_from inner => yield_from inner
  | EQ_with_yield_from c inner => with_yield_from c inner
  | EQ_done => mret None
  end.

Definition _execute_query_next {q} (s : _execute_query_state q) :=
  resume_to_next EQ_done (_execute_query_body s).

(** [close()] on the generator: [GeneratorExit] is raised at the [yield]
    where it is suspended.  The inner generator has no handler for it; inside
    the [with] block it leaves the block through [c.__exit__]. *)
Definition _execute_query_close {q} (s : _execute_query_state q)
  : world -> _execute_query_state q * world := fun w =>
  match s with
  | EQ_with_yield_from c _ =>
    (EQ_done, snd (Connection.__exit__ c (Some GeneratorExit) w))
  | _ => (EQ_done, w)
  end.

Definition _execute_query (sqlite_path : PathIshOrConn) (q : query)
  : _execute_query_state q := EQ_start sqlite_path.

(** *** The readers *)

(** [unquote(row["url"])]: [unquote(None)] is a [TypeError]. *)
Definition unquote_cell (cell : option string) : result string :=
  match cell with
  | Some s => Ok (unquote s)
  | None => Raise TypeError
  end.

(** The [MozVisit(...)] expression of [single_db_visits]. *)
Definition MozVisit_of_row (row : VisitRow.t) : result MozVisit.t :=
  url ← unquote_cell (VisitRow.url row);
  visit_date ← visit_date_of_cell (VisitRow.visit_date row);
  Ok (MozVisit.mk url (VisitRow.pid row) (VisitRow.vid row) visit_date
        (VisitRow.visit_type row)).

(** The [MozPlace(...)] expression of [single_db_sitedata]. *)
Definition MozPlace_of_row (row : SiteRow.t) : result MozPlace.t :=
  let pimg := SiteRow.preview_image_url row in
  Ok (MozPlace.mk (SiteRow.pid row) (SiteRow.title row) (SiteRow.description row)
        (match pimg with Some u => Some (unquote u) | None => None end)).

(** The [Visit(...)] expression of [read_visits]. *)
Definition Visit_of_row (row : CombinedRow.t) : result Visit.t :=
  let pimg := CombinedRow.preview_image_url row in
  url ← unquote_cell (CombinedRow.url row);
  visit_date ← visit_date_of_cell (CombinedRow.visit_date row);
  Ok (Visit.mk url visit_date (CombinedRow.visit_type row)
        (CombinedRow.title row) (CombinedRow.description row)
        (match pimg with Some u => Some (unquote u) | None => None end)).

(** [for row in _execute_query(sqlite_path, QUERY): yield f(row)].  The
    reader holds the only reference to the inner generator, so when [f]
    raises and the reader's frame goes away the inner generator is closed. *)
Definition for_each_row {q B} (f : row_of q -> result B)
    (s : _execute_query_state q)
  : world -> event B * _execute_query_state q * world := fun w =>
  match _execute_query_next s w with
  | (Yielded row, s', w') =>
    match f row with
    | Ok b => (Yielded b, s', w')
    | Raise e =>
      let '(s'', w'') := _execute_query_close s' w' in (Raised e, s'', w'')
    end
  | (Stopped, s', w') => (Stopped, s', w')
  | (Raised e, s', w') => (Raised e, s', w')
  end.

Definition single_db_visits (sqlite_path : PathIshOrConn) :=
  _execute_query sqlite_path VISIT_QUERY.
Definition single_db_visits_next := for_each_row (q := VISIT_QUERY) MozVisit_of_row.

Definition single_db_sitedata (sqlite_path : PathIshOrConn) :=
  _execute_query sqlite_path SITEDATA_QUERY.
Definition single_db_sitedata_next := for_each_row (q := SITEDATA_QUERY) MozPlace_of_row.

Definition read_visits (sqlite_path : PathIshOrConn) :=
  _execute_query sqlite_path COMBINED_QUERY.
Definition read_visits_next := for_each_row (q := COMBINED_QUERY) Visit_of_row.

(** *** Consuming a generator of this module *)

(** The rows a suspended generator has yet to fetch. *)
Definition remaining {q} (s : _execute_query_state q) : nat :=
  match s with
  | EQ_yield_from (EC_yield _ cursor) | EQ_with_yield_from _ (EC_yield _ cursor) =>
    length cursor
  | _ => O
  end.

(** [list(g)]: the first [next()] runs the statement; after it the
    generator is asked once more per row left in the cursor, plus once. *)
Definition list_of {q B}
    (next : _execute_query_state q -> world -> event B * _execute_query_state q * world)
    (s : _execute_query_state q) (w : world)
  : list B * outcome * _execute_query_state q * world :=
  match next s w with
  | (Yielded b, s', w') =>
    let '(l, o, s'', w'') := run next (S (remaining s')) s' w' in
    (b :: l, o, s'', w'')
  | (Stopped, s', w') => ([], Exhausted, s', w')
  | (Raised e, s', w') => ([], Failed e, s', w')
  end.

(** What a caller does with a generator it holds, one operation at a time. *)
Definition apply_op {q} (op : gen_op) (s : _execute_query_state q) (w : world)
  : _execute_query_state q * world :=
  match op with
  | do_next => let '(_, s', w') := _execute_query_next s w in (s', w')
  | do_close => _execute_query_close s w
  end.

Fixpoint apply_ops {q} (ops : list gen_op) (s : _execute_query_state q) (w : world)
  : _execute_query_state q * world :=
  match ops with
  | [] => (s, w)
  | op :: ops' => let '(s', w') := apply_op op s w in apply_ops ops' s' w'
  end.
(** *** Vocabulary for the properties below *)

(** A generator that has been started: it is suspended at a [yield] with a
    cursor, or finished. *)
Definition started {q} (s : _execute_query_state q) : Prop :=
  match s with
  | EQ_start _ | EQ_yield_from (EC_start _) | EQ_with_yield_from _ (EC_start _) => False
  | _ => True
  end.

(** Two connection objects that differ at most in their transaction flag. *)
Definition same_connection (c c' : connection) : Prop :=
  conn_file c' = conn_file c /\ closed c' = closed c
  /\ row_factory c' = row_factory c /\ text_factory c' = text_factory c.

(** Two worlds with the same files, cache and probe count, and the same
    connection objects up to their transaction flags. *)
Definition same_world (w w' : world) : Prop :=
  files w' = files w /\ sanity_cache w' = sanity_cache w /\ probes w' = probes w
  /\ Forall2 same_connection (conns w) (conns w').

(** What a [next()] on a started generator is expected to do: leave the world
    alone up to transaction flags, and either yield with fewer rows left or
    finish the generator. *)
Definition step_ok {q B} (s : _execute_query_state q) (w : world)
    (r : event B * _execute_query_state q * world) : Prop :=
  let '(ev, s', w') := r in
  same_world w w' /\ started s'
  /\ match ev with
     | Yielded _ => (remaining s' < remaining s)%nat
     | _ => s' = EQ_done
     end.

(** From [w] to [w'] no connection that existed was touched, and every
    connection made in between is closed. *)
Definition opened_connections_closed (w w' : world) : Prop :=
  (forall conn c, conns w !! conn = Some c -> conns w' !! conn = Some c)
  /\ (forall conn c', conns w !! conn = None -> conns w' !! conn = Some c' ->
        closed c' = true).


(** After the generator of a query on a path is used as [ops] says, no
    connection made since [w] is still open. *)
Definition releases_connection (sqlite_path : PathIsh) (q : query)
    (ops : list gen_op) (w : world) : Prop :=
  let '(_, w') := apply_ops ops (_execute_query (a_path sqlite_path) q) w in
  forall conn c', conns w !! conn = None -> conns w' !! conn = Some c' ->
    closed c' = true.

(** The row the module's [text_factory] makes of a stored row. *)
Definition fetched (q : query) (raw : row_of q) : row_of q :=
  match fetch text_factory_decode_ignore q raw with
  | Ok row => row
  | Raise _ => raw
  end.

(** The connection object as [_execute_conn] configures it. *)
Definition configured (c : connection) : connection :=
  Connection.set_text_factory text_factory_decode_ignore
    (Connection.set_row_factory (Some sqlite3_Row) c).

(** The outcome of [_sanity_check] as a function of the cache and the disk. *)
Definition sanity_result (sqlite_path : PathIsh) (w : world) : result unit :=
  match sanity_cache w !! sqlite_path with
  | Some r => Ok r
  | None =>
    match files w !! expand_path sqlite_path with
    | None => Raise (OperationalError "unable to open database file")
    | Some f => select_moz_meta f
    end
  end.

(** The file a query operation ends up reading for a source, or the
    exception that stops it before any statement runs. *)
Definition source_file (sqlite_path : PathIshOrConn) (w : world) : result file_content :=
  match sqlite_path with
  | a_connection conn =>
    match conns w !! conn with
    | None => Raise (ProgrammingError "not a connection")
    | Some c =>
      if closed c then Raise (ProgrammingError "Cannot operate on a closed database.")
      else Ok (conn_file c)
    end
  | a_path p =>
    _ ← sanity_result p w;
    match files w !! expand_path p with
    | None => Raise (OperationalError "unable to open database file")
    | Some f => Ok f
    end
  end.

(** The cursor a query operation obtains for a source, or the exception that
    stops it before the first row. *)
Definition source_rows (sqlite_path : PathIshOrConn) (q : query) (w : world)
  : result (list (row_of q)) :=
  f ← source_file sqlite_path w; select f q.


(** [list(read_visits(p))]. *)
Definition visits_by_combined_query (sqlite_path : PathIshOrConn) (w : world)
  : result (list Visit.t) :=
  let '(l, o, _, _) := list_of read_visits_next (read_visits sqlite_path) w in
  as_result l o.

(** The [MozPlace] that [single_db_sitedata] makes of a row of [moz_places]. *)
Definition MozPlace_of_place (P : moz_places.row) : MozPlace.t :=
  MozPlace.mk (moz_places.id P)
    (decode_ignore <$> moz_places.title P)
    (decode_ignore <$> moz_places.description P)
    (unquote <$> (decode_ignore <$> moz_places.preview_image_url P)).

(** Converting rows one by one until the first conversion that raises. *)
Fixpoint collect {A B} (f : A -> result B) (rows : list A) : list B * outcome :=
  match rows with
  | [] => ([], Exhausted)
  | r :: rest =>
    match f r with
    | Ok b => let '(l, o) := collect f rest in (b :: l, o)
    | Raise e => ([], Failed e)
    end
  end.

(** A connection that is open and decodes text the module's way. *)
Definition ready (conn : nat) (w : world) : Prop :=
  exists cn, conns w !! conn = Some cn /\ closed cn = false
    /\ text_factory cn = text_factory_decode_ignore.

(** A generator suspended at a [yield] over connection [conn], with [cursor]
    still to fetch. *)
Definition suspended_on {q} (conn : nat) (cursor : list (row_of q))
    (s : _execute_query_state q) : Prop :=
  s = EQ_yield_from (EC_yield conn cursor)
  \/ s = EQ_with_yield_from conn (EC_yield conn cursor).

(** [f] holds of the [n] integers from [lo] on. *)
Fixpoint forall_range (n : nat) (lo : Z) (f : Z -> bool) : bool :=
  match n with
  | O => true
  | S n' => f lo && forall_range n' (lo + 1) f
  end.

(** The check of one day of the 400-year cycle: the date of the day, turned
    back into a day number, is the day, and month and day are those of a
    calendar. *)
Definition civil_roundtrip (doe : Z) : bool :=
  let z := doe - 719468 in
  let '(y, m, d) := civil_from_days z in
  (days_from_civil y m d =? z) && (1 <=? m) && (m <=? 12) && (1 <=? d) && (d <=? 31).

(** The connection a generator holds in its [with] block, if it is in one. *)
Definition held_connection {q} (s : _execute_query_state q) : option nat :=
  match s with
  | EQ_with_yield_from c _ => Some c
  | _ => None
  end.

(** Connection [c], if there is one, has no transaction open. *)
Definition settled (c : nat) (w : world) : Prop :=
  forall cn, conns w !! c = Some cn -> in_transaction cn = false.

(** The connection object [_execute_query] makes for a path and leaves
    behind: open, configured by [_execute_conn]. *)
Definition query_connection (f : file_content) : connection :=
  configured (mk_connection f false None text_factory_str false).

(** The world after the first [next()] of a query on a path: what the
    validation left, and one more connection when the file could be opened. *)
Definition after_path_query (p : PathIsh) (w : world) : world :=
  match _sanity_check p w with
  | (Raise _, w0) => w0
  | (Ok _, w0) =>
    match files w0 !! expand_path p with
    | None => w0
    | Some f => set_conns (fun cs => cs ++ [query_connection f]) w0
    end
  end.

(** Visit [V] refers to a row of [places]. *)
Definition has_place (places : list moz_places.row) (V : moz_historyvisits.row) : Prop :=
  Exists (fun P => moz_historyvisits.place_id V = Some (moz_places.id P)) places.

#[global] Instance has_place_dec places V : Decision (has_place places V).
Proof. unfold has_place. apply _. Defined.


(** *** Properties of the lookup structure *)

Section SiteDict.
Implicit Types (site_list : list MozPlace.t) (s : MozPlace.t) (k : Z).

Lemma site_dict_of_snoc site_list s :
  site_dict_of (site_list ++ [s])
  = <[MozPlace.place_id s := s]> (site_dict_of site_list).
Proof. unfold site_dict_of. by rewrite foldl_app. Qed.

(** A key is in the dict exactly when some place carries it. *)
Lemma site_dict_of_None site_list k :
  site_dict_of site_list !! k = None
  <-> Forall (fun s => MozPlace.place_id s <> k) site_list.
Proof.
  induction site_list as [|s l IH] using rev_ind.
  - split; [constructor | reflexivity].
  - rewrite site_dict_of_snoc, Forall_app, Forall_singleton.
    rewrite lookup_insert_None. tauto.
Qed.

(** Whatever the dict holds under [k] is a place of the list with that id. *)
Lemma site_dict_of_Some site_list k s :
  site_dict_of site_list !! k = Some s ->
  s ∈ site_list /\ MozPlace.place_id s = k.
Proof.
  induction site_list as [|s' l IH] using rev_ind.
  - unfold site_dict_of; simpl. by rewrite lookup_empty.
  - rewrite site_dict_of_snoc. intros H.
    apply lookup_insert_Some in H as [[Hk Hs] | [_ H]].
    + subst s'. split; [|done]. apply elem_of_app. right. constructor.
    + destruct (IH H). split; [|done]. apply elem_of_app. by left.
Qed.

(** Assignment overwrites: the last place with a given id is the one kept. *)
Lemma site_dict_of_last before s after :
  Forall (fun s' => MozPlace.place_id s' <> MozPlace.place_id s) after ->
  site_dict_of (before ++ s :: after) !! MozPlace.place_id s = Some s.
Proof.
  induction after as [|s' l IH] using rev_ind; intros Hl.
  - rewrite site_dict_of_snoc. apply lookup_insert_eq.
  - apply Forall_app in Hl as [Hl Hs']. rewrite Forall_singleton in Hs'.
    rewrite app_comm_cons, app_assoc.
    rewrite site_dict_of_snoc, lookup_insert_ne; [by apply IH | exact Hs'].
Qed.
End SiteDict.

(** *** Properties of the merge *)

Lemma merge_visit_event (site_dict : gmap Z MozPlace.t) (v : MozVisit.t) :
  visit_event (merge_visit site_dict v) = mozvisit_event v.
Proof. unfold merge_visit. by destruct (site_dict !! MozVisit.place_id v). Qed.

Lemma merge_visit_metadata (site_dict : gmap Z MozPlace.t) (v : MozVisit.t) :
  visit_metadata (merge_visit site_dict v)
  = match site_dict !! MozVisit.place_id v with
    | Some s => place_metadata s
    | None => (None, None, None)
    end.
Proof. unfold merge_visit. by destruct (site_dict !! MozVisit.place_id v). Qed.

(** C1: [single_db_merge] yields exactly one [Visit] per input [MozVisit], in
    input order: the output is as long as the visit list, and the sequence of
    visit events (url, visit_date, visit_type) of the output is the sequence of
    visit events of the input -- nothing dropped, duplicated or reordered. *)
Theorem single_db_merge_one_per_visit
    (visit_list : list MozVisit.t) (site_list : list MozPlace.t) :
  length (single_db_merge visit_list site_list) = length visit_list
  /\ visit_event <$> single_db_merge visit_list site_list
     = mozvisit_event <$> visit_list
  /\ (forall i v, visit_list !! i = Some v ->
        exists o, single_db_merge visit_list site_list !! i = Some o
                  /\ visit_event o = mozvisit_event v).
Proof.
  unfold single_db_merge. split; [by rewrite length_fmap|]. split.
  - rewrite <- list_fmap_compose. apply list_fmap_ext. intros i v _.
    apply merge_visit_event.
  - intros i v Hi. exists (merge_visit (site_dict_of site_list) v). split.
    + by rewrite list_lookup_fmap, Hi.
    + apply merge_visit_event.
Qed.

(** C5: for every visit [v] of the input, the output record at the same
    position copies url, visit_date and visit_type from [v]; when no place of
    the site list has [v]'s place id, its title, description and preview image
    are all [None]; when some place has it, the three fields are copied from a
    place of the list with that id.  With an empty site list every output
    record has the three fields [None]. *)
Theorem single_db_merge_fields
    (visit_list : list MozVisit.t) (site_list : list MozPlace.t) :
  (forall (i : nat) (v : MozVisit.t), visit_list !! i = Some v ->
     exists o, single_db_merge visit_list site_list !! i = Some o
       /\ Visit.url o = MozVisit.url v
       /\ Visit.visit_date o = MozVisit.visit_date v
       /\ Visit.visit_type o = MozVisit.visit_type v
       /\ (Forall (fun s => MozPlace.place_id s <> MozVisit.place_id v) site_list ->
             Visit.title o = None /\ Visit.description o = None
             /\ Visit.preview_image o = None)
       /\ (Exists (fun s => MozPlace.place_id s = MozVisit.place_id v) site_list ->
             exists s, s ∈ site_list
               /\ MozPlace.place_id s = MozVisit.place_id v
               /\ Visit.title o = MozPlace.title s
               /\ Visit.description o = MozPlace.description s
               /\ Visit.preview_image o = MozPlace.preview_image s))
  /\ (forall o, o ∈ single_db_merge visit_list [] ->
        Visit.title o = None /\ Visit.description o = None
        /\ Visit.preview_image o = None).
Proof.
  split.
  - intros i v Hi. exists (merge_visit (site_dict_of site_list) v).
    split; [unfold single_db_merge; by rewrite list_lookup_fmap, Hi|].
    pose proof (merge_visit_event (site_dict_of site_list) v) as He.
    pose proof (merge_visit_metadata (site_dict_of site_list) v) as Hm.
    unfold visit_event, mozvisit_event in He. injection He as Hu Hd Ht.
    repeat split; try assumption.
    + apply site_dict_of_None in H. rewrite H in Hm.
      unfold visit_metadata in Hm. congruence.
    + apply site_dict_of_None in H. rewrite H in Hm.
      unfold visit_metadata in Hm. congruence.
    + apply site_dict_of_None in H. rewrite H in Hm.
      unfold visit_metadata in Hm. congruence.
    + intros Hex.
      destruct (site_dict_of site_list !! MozVisit.place_id v) as [s|] eqn:Hs.
      * apply site_dict_of_Some in Hs as [Hin Hid]. exists s.
        unfold visit_metadata, place_metadata in Hm. injection Hm as -> -> ->.
        done.
      * apply site_dict_of_None in Hs. apply Exists_exists in Hex as (s & Hin & Hid).
        rewrite Forall_forall in Hs. by destruct (Hs s Hin).
  - intros o Ho. unfold single_db_merge in Ho.
    apply list_elem_of_fmap in Ho as (v & -> & _).
    unfold merge_visit. change (site_dict_of []) with (∅ : gmap Z MozPlace.t).
    by rewrite lookup_empty.
Qed.

(** C6: when several places of the site list share a place id, every visit
    with that id takes its title, description and preview image from the last
    such place in iteration order.  The lookup structure is built by one
    assignment per place, a later assignment overwriting an earlier one. *)
Theorem single_db_merge_last_wins
    (visit_list : list MozVisit.t) (before after : list MozPlace.t)
    (s : MozPlace.t) :
  Forall (fun s' => MozPlace.place_id s' <> MozPlace.place_id s) after ->
  site_dict_of (before ++ s :: after) !! MozPlace.place_id s = Some s
  /\ (forall (site_list : list MozPlace.t) (s' : MozPlace.t),
        site_dict_of (site_list ++ [s'])
        = <[MozPlace.place_id s' := s']> (site_dict_of site_list))
  /\ (forall (i : nat) (v : MozVisit.t),
        visit_list !! i = Some v ->
        MozVisit.place_id v = MozPlace.place_id s ->
        exists o, single_db_merge visit_list (before ++ s :: after) !! i = Some o
          /\ Visit.title o = MozPlace.title s
          /\ Visit.description o = MozPlace.description s
          /\ Visit.preview_image o = MozPlace.preview_image s).
Proof.
  intros Hafter. pose proof (site_dict_of_last before s after Hafter) as Hlast.
  split; [exact Hlast|]. split; [apply site_dict_of_snoc|].
  intros i v Hi Hid. eexists. split.
  - unfold single_db_merge. rewrite list_lookup_fmap, Hi. reflexivity.
  - pose proof (merge_visit_metadata (site_dict_of (before ++ s :: after)) v) as Hm.
    rewrite Hid, Hlast in Hm. unfold visit_metadata, place_metadata in Hm.
    by injection Hm as -> -> ->.
Qed.

Lemma result_bind_Ok {A B} (a : A) (k : A -> result B) : Ok a ≫= k = k a.
Proof. reflexivity. Qed.

(** *** Timestamps *)

Lemma forall_range_spec (n : nat) (lo : Z) (f : Z -> bool) :
  forall_range n lo f = true ->
  forall z, lo <= z < lo + Z.of_nat n -> f z = true.
Proof.
  revert lo. induction n as [|n IH]; intros lo H z Hz; [lia|].
  simpl in H. apply andb_prop in H as [Hlo H].
  destruct (decide (z = lo)) as [->|Hne]; [done|].
  apply (IH (lo + 1)); [done|lia].
Qed.

(** Every day of one 400-year cycle, checked by evaluation. *)
Lemma civil_roundtrip_cycle :
  forall_range (Z.to_nat 146097) 0 civil_roundtrip = true.
Proof. vm_compute. reflexivity. Qed.

Lemma civil_roundtrip_doe (doe : Z) :
  0 <= doe < 146097 -> civil_roundtrip doe = true.
Proof.
  intros Hdoe. apply (forall_range_spec _ _ _ civil_roundtrip_cycle). lia.
Qed.

(** Moving a day number by whole cycles moves the year by 400 each. *)
Lemma civil_from_days_cycle (z k : Z) :
  civil_from_days (z + 146097 * k)
  = let '(y, m, d) := civil_from_days z in (y + 400 * k, m, d).
Proof.
  unfold civil_from_days.
  replace (z + 146097 * k + 719468) with (z + 719468 + k * 146097) by lia.
  rewrite Z.div_add by lia.
  replace (z + 719468 + k * 146097 - ((z + 719468) / 146097 + k) * 146097)
    with (z + 719468 - (z + 719468) / 146097 * 146097) by lia.
  cbv zeta. f_equal. f_equal. lia.
Qed.

Lemma days_from_civil_cycle (y m d k : Z) :
  days_from_civil (y + 400 * k) m d = days_from_civil y m d + 146097 * k.
Proof.
  unfold days_from_civil. cbv zeta.
  replace ((if m <=? 2 then y + 400 * k - 1 else y + 400 * k))
    with ((if m <=? 2 then y - 1 else y) + k * 400) by (destruct (m <=? 2); lia).
  set (y' := if m <=? 2 then y - 1 else y).
  rewrite Z.div_add by lia.
  replace (y' + k * 400 - (y' / 400 + k) * 400) with (y' - y' / 400 * 400) by lia.
  lia.
Qed.

(** The date of a day number denotes that day. *)
Lemma days_from_civil_from_days (z : Z) :
  let '(y, m, d) := civil_from_days z in
  days_from_civil y m d = z /\ 1 <= m <= 12 /\ 1 <= d <= 31.
Proof.
  assert (exists doe k, 0 <= doe < 146097 /\ z = doe - 719468 + 146097 * k)
    as (doe & k & Hdoe & ->).
  { exists ((z + 719468) mod 146097), ((z + 719468) / 146097).
    split; [apply Z.mod_pos_bound; lia|].
    pose proof (Z.div_mod (z + 719468) 146097). lia. }
  pose proof (civil_roundtrip_doe doe Hdoe) as H. unfold civil_roundtrip in H.
  rewrite civil_from_days_cycle.
  destruct (civil_from_days (doe - 719468)) as [[y m] d].
  rewrite days_from_civil_cycle.
  repeat (apply andb_prop in H as [H ?]). lia.
Qed.

(** The broken-down UTC time of a second count denotes that second. *)
Lemma datetime_from_timet_and_us_exact (timet us : Z) (tz : timezone) (dt : datetime) :
  datetime_from_timet_and_us timet us tz = Ok dt ->
  epoch_microseconds dt = timet * 1000000 + us /\ tzinfo dt = Some tz.
Proof.
  unfold datetime_from_timet_and_us.
  pose proof (days_from_civil_from_days (timet / 86400)) as Hcivil.
  destruct (civil_from_days (timet / 86400)) as [[y m] d].
  destruct ((1 <=? y) && (y <=? 9999)); [|done]. intros [= <-].
  unfold epoch_microseconds; simpl. destruct Hcivil as (-> & _). split; [|done].
  Z.to_euclidean_division_equations. lia.
Qed.

Lemma visit_date_of_cell_utc (cell : option Z) (dt : datetime) :
  visit_date_of_cell cell = Ok dt -> tzinfo dt = Some utc.
Proof.
  unfold visit_date_of_cell, fromtimestamp. destruct cell as [us|]; [|done].
  destruct (Float.int_truediv us 1000000) as [t|]; [|done]. rewrite result_bind_Ok.
  destruct (_PyTime_ObjectToTimeval t) as [[timet us']|]; [|done].
  rewrite result_bind_Ok. intros H.
  by apply datetime_from_timet_and_us_exact in H as [_ H].
Qed.

(** *** Exactness of the float arithmetic *)

Lemma digits2_pos_size (p : positive) : digits2_pos p = Pos.size p.
Proof. induction p as [p IH|p IH|]; simpl; by rewrite ?IH. Qed.

Lemma Zdigits2_log2 (m : Z) : 0 < m -> Zdigits2 m = Z.log2 m + 1.
Proof.
  destruct m as [|p|p]; [lia| |lia]. intros _. simpl.
  rewrite digits2_pos_size. destruct p; simpl; lia.
Qed.

Lemma Zdigits2_bounds (m : Z) :
  0 < m -> 2 ^ (Zdigits2 m - 1) <= m < 2 ^ Zdigits2 m.
Proof.
  intros Hm. rewrite Zdigits2_log2 by done.
  pose proof (Z.log2_spec m Hm) as H.
  replace (Z.log2 m + 1 - 1) with (Z.log2 m) by lia.
  by replace (Z.log2 m + 1) with (Z.succ (Z.log2 m)) by lia.
Qed.

Lemma Zdigits2_unique (m d : Z) :
  2 ^ (d - 1) <= m < 2 ^ d -> 0 < d -> Zdigits2 m = d.
Proof.
  intros Hm Hd.
  assert (0 < m) as Hpos by (pose proof (Z.pow_pos_nonneg 2 (d - 1)); lia).
  rewrite Zdigits2_log2 by done.
  rewrite (Z.log2_unique m (d - 1)); [lia|lia|].
  by replace (Z.succ (d - 1)) with d by lia.
Qed.

Lemma Zdigits2_pos (m : Z) : 0 < m -> 0 < Zdigits2 m.
Proof. intros Hm. rewrite Zdigits2_log2 by done. pose proof (Z.log2_nonneg m). lia. Qed.

(** The quotient and remainder the division of [x] by a million is rounded
    from: [x] is shifted left until it has 73 binary digits. *)
Lemma SFdiv_core_million (x : Z) :
  0 < x < 2 ^ 73 ->
  SFdiv_core_binary Float.prec Float.emax x 0 1000000 0 =
  let s := 73 - Zdigits2 x in
  ((x * 2 ^ s) / 1000000, - s, new_location 1000000 ((x * 2 ^ s) mod 1000000)).
Proof.
  intros Hx. unfold SFdiv_core_binary.
  pose proof (Zdigits2_pos x ltac:(lia)) as Hd.
  assert (Zdigits2 x <= 73) as Hd73.
  { destruct (Z_le_gt_dec (Zdigits2 x) 73) as [|Hgt]; [done|].
    pose proof (Zdigits2_bounds x ltac:(lia)) as [Hlo _].
    assert (2 ^ 73 <= 2 ^ (Zdigits2 x - 1)) by (apply Z.pow_le_mono_r; lia). lia. }
  change (Zdigits2 1000000) with 20.
  unfold fexp, emin, Float.prec, Float.emax.
  replace (Z.min (Z.max (Zdigits2 x + 0 - (20 + 0) - 53) (3 - 1024 - 53)) (0 - 0))
    with (Zdigits2 x - 73) by lia.
  replace (0 - 0 - (Zdigits2 x - 73)) with (73 - Zdigits2 x) by lia.
  cbv zeta.
  assert (match 73 - Zdigits2 x with
          | Zpos _ => Z.shiftl x (73 - Zdigits2 x)
          | 0 => x
          | Zneg _ => 0
          end = x * 2 ^ (73 - Zdigits2 x)) as ->.
  { destruct (73 - Zdigits2 x) as [|p|p] eqn:Hs; [lia| |lia].
    rewrite Z.shiftl_mul_pow2; lia. }
  unfold Z.div, Z.modulo.
  destruct (Z.div_eucl (x * 2 ^ (73 - Zdigits2 x)) 1000000) as [q r].
  f_equal. f_equal. lia.
Qed.

(** One step of the right shift that keeps a round bit and a sticky bit. *)
Lemma shr_1_spec (m : Z) (r s : bool) :
  0 <= m ->
  shr_1 (Build_shr_record m r s) = Build_shr_record (m / 2) (Z.odd m) (r || s).
Proof.
  intros Hm. destruct m as [|[p|p|]|p]; try lia; simpl.
  - reflexivity.
  - f_equal. rewrite Pos2Z.inj_xI.
    replace (2 * Z.pos p + 1) with (1 + Z.pos p * 2) by lia.
    rewrite Z.div_add by lia. reflexivity.
  - f_equal. rewrite Pos2Z.inj_xO.
    replace (2 * Z.pos p) with (Z.pos p * 2) by lia.
    by rewrite Z.div_mul by lia.
  - reflexivity.
Qed.

Lemma iter_pos_nat {A} (f : A -> A) (p : positive) (x : A) :
  SpecFloat.iter_pos f p x = Nat.iter (Pos.to_nat p) f x.
Proof.
  revert x. induction p as [p IH|p IH|]; intros x; cbn [SpecFloat.iter_pos].
  - rewrite !IH. rewrite <- Nat.iter_succ_r, <- Nat.iter_add. f_equal. lia.
  - rewrite !IH. rewrite <- Nat.iter_add. f_equal. lia.
  - reflexivity.
Qed.

(** [k] steps: the quotient by [2 ^ k], the last bit shifted out, and
    whether any bit below it was set. *)
Lemma shr_nat_spec (k : nat) (m : Z) :
  0 <= m ->
  Nat.iter (S k) shr_1 (Build_shr_record m false false)
  = Build_shr_record (m / 2 ^ Z.of_nat (S k)) (Z.testbit m (Z.of_nat k))
      (negb (m mod 2 ^ Z.of_nat k =? 0)).
Proof.
  intros Hm. induction k as [|k IH].
  - change (Nat.iter 1 shr_1 ?x) with (shr_1 x). rewrite shr_1_spec by done.
    change (Z.of_nat 1) with 1. change (Z.of_nat 0) with 0.
    change (2 ^ 0) with 1. change (2 ^ 1) with 2.
    rewrite Z.mod_1_r, Z.bit0_odd. reflexivity.
  - rewrite Nat.iter_succ, IH.
    assert (0 < 2 ^ Z.of_nat k) as Hpk by (apply Z.pow_pos_nonneg; lia).
    assert (0 < 2 ^ Z.of_nat (S k)) as Hpk1 by (apply Z.pow_pos_nonneg; lia).
    rewrite shr_1_spec by (apply Z.div_pos; lia).
    f_equal.
    + rewrite Z.div_div by lia. f_equal.
      replace (Z.of_nat (S (S k))) with (Z.of_nat (S k) + 1) by lia.
      rewrite Z.pow_add_r by lia. lia.
    + rewrite <- Z.shiftr_div_pow2 by lia. rewrite <- Z.bit0_odd.
      rewrite Z.shiftr_spec by lia. reflexivity.
    + pose proof (Z.testbit_spec' m (Z.of_nat k) ltac:(lia)) as Hbit.
      replace (Z.of_nat (S k)) with (Z.of_nat k + 1) by lia.
      rewrite Z.pow_add_r by lia. change (2 ^ 1) with 2.
      rewrite Z.rem_mul_r by lia.
      pose proof (Z.mod_pos_bound m (2 ^ Z.of_nat k) Hpk).
      destruct (Z.testbit m (Z.of_nat k)); simpl in Hbit; rewrite <- Hbit;
        destruct (Z.eqb_spec (m mod 2 ^ Z.of_nat k) 0) as [Hlow|Hlow]; simpl;
        symmetry.
      * apply negb_true_iff, Z.eqb_neq. lia.
      * apply negb_true_iff, Z.eqb_neq. nia.
      * apply negb_false_iff, Z.eqb_eq. lia.
      * apply negb_true_iff, Z.eqb_neq. lia.
Qed.

(** A mantissa of exactly 53 digits with nothing behind it is kept as it is. *)
Lemma binary_round_aux_53 (p : positive) (e : Z) :
  Zdigits2 (Zpos p) = 53 -> -1074 <= e <= 971 ->
  binary_round_aux Float.prec Float.emax false (Zpos p) e loc_Exact
  = S754_finite false p e.
Proof.
  intros Hd He. unfold binary_round_aux.
  assert (forall l, shr_fexp Float.prec Float.emax (Zpos p) e l
                    = (shr_record_of_loc (Zpos p) l, e)) as Hshr.
  { intros l. unfold shr_fexp. rewrite Hd.
    unfold fexp, emin, Float.prec, Float.emax.
    replace (Z.max (53 + e - 53) (3 - 1024 - 53) - e) with 0 by lia.
    reflexivity. }
  rewrite Hshr. cbn [shr_record_of_loc shr_m loc_of_shr_record round_nearest_even].
  rewrite Hshr. cbn [shr_record_of_loc shr_m].
  unfold Float.prec, Float.emax.
  destruct (Z.leb_spec e (1024 - 53)); [done|lia].
Qed.

Lemma Zdigits2_mul_pow2 (m k : Z) :
  0 < m -> 0 <= k -> Zdigits2 (m * 2 ^ k) = Zdigits2 m + k.
Proof.
  intros Hm Hk. pose proof (Zdigits2_bounds m Hm) as [Hlo Hhi].
  pose proof (Zdigits2_pos m Hm).
  assert (0 < 2 ^ k) by (apply Z.pow_pos_nonneg; lia).
  apply Zdigits2_unique; [|lia].
  replace (Zdigits2 m + k - 1) with (Zdigits2 m - 1 + k) by lia.
  rewrite !Z.pow_add_r by lia. nia.
Qed.

(** [binary_normalize] of a number that fits in 53 digits is exact: the
    mantissa is shifted left to 53 digits. *)
Lemma binary_normalize_exact (m e : Z) :
  0 < m < 2 ^ 53 -> -1000 <= e <= 900 ->
  let k := 53 - Zdigits2 m in
  binary_normalize Float.prec Float.emax m e false
  = S754_finite false (Z.to_pos (m * 2 ^ k)) (e - k).
Proof.
  intros Hm He k.
  pose proof (Zdigits2_pos m ltac:(lia)) as Hdpos.
  assert (Zdigits2 m <= 53) as Hd53.
  { destruct (Z_le_gt_dec (Zdigits2 m) 53) as [|Hgt]; [done|].
    pose proof (Zdigits2_bounds m ltac:(lia)) as [Hlo _].
    assert (2 ^ 53 <= 2 ^ (Zdigits2 m - 1)) by (apply Z.pow_le_mono_r; lia). lia. }
  destruct m as [|p|p]; [lia| |lia]. unfold binary_normalize, binary_round.
  change (Z.pos (digits2_pos p)) with (Zdigits2 (Z.pos p)).
  unfold fexp, emin, Float.prec, Float.emax.
  replace (Z.max (Zdigits2 (Z.pos p) + e - 53) (3 - 1024 - 53))
    with (e - k) by (unfold k; lia).
  unfold shl_align. replace (e - k - e) with (- k) by lia.
  assert (0 <= k) as Hk by (unfold k; lia).
  destruct k as [|d|d] eqn:Hkd; [| |lia].
  - cbn [Z.opp]. rewrite Z.sub_0_r.
    change (2 ^ 0) with 1. rewrite Z.mul_1_r, Pos2Z.id.
    apply (binary_round_aux_53 p e); lia.
  - cbn [Z.opp].
    change (Pos.iter xO p d) with (shift_pos d p).
    assert (Z.pos (shift_pos d p) = Z.pos p * 2 ^ Z.pos d) as Hshift.
    { rewrite shift_pos_correct, Zpower_pos_nat, Zpower_nat_Z.
      rewrite positive_nat_Z. lia. }
    rewrite <- Hshift, Pos2Z.id.
    apply (binary_round_aux_53 (shift_pos d p) (e - Z.pos d)); [|lia].
    rewrite Hshift, Zdigits2_mul_pow2 by lia. lia.
Qed.

Lemma round_shift_bounds (m n : Z) :
  0 <= m -> 0 < n ->
  m / 2 ^ n <= round_shift m n <= m / 2 ^ n + 1
  /\ 2 * Z.abs (round_shift m n * 2 ^ n - m) <= 2 ^ n.
Proof.
  intros Hm Hn. unfold round_shift.
  assert (0 < 2 ^ n) as Hp by (apply Z.pow_pos_nonneg; lia).
  pose proof (Z.div_mod m (2 ^ n) ltac:(lia)) as Hdm.
  pose proof (Z.mod_pos_bound m (2 ^ n) Hp) as Hr.
  cbv zeta.
  destruct (Z.compare_spec (2 * (m mod 2 ^ n)) (2 ^ n)) as [Heq|Hlt|Hgt];
    [destruct (Z.even (m / 2 ^ n))| |]; split; nia.
Qed.

(** Shifting right by [n] and rounding on the round and sticky bits is
    [round_shift]. *)
Lemma shr_round (m n : Z) :
  0 <= m -> 0 < n ->
  let mrs := SpecFloat.iter_pos shr_1 (Z.to_pos n) (Build_shr_record m false false) in
  round_nearest_even (shr_m mrs) (loc_of_shr_record mrs) = round_shift m n.
Proof.
  intros Hm Hn mrs. unfold mrs. rewrite iter_pos_nat.
  destruct (Z.to_nat n) as [|k] eqn:Hk; [lia|].
  replace (Pos.to_nat (Z.to_pos n)) with (S k) by lia.
  rewrite shr_nat_spec by done.
  assert (n = Z.of_nat k + 1) as -> by lia.
  replace (Z.of_nat (S k)) with (Z.of_nat k + 1) by lia.
  assert (0 < 2 ^ Z.of_nat k) as Hpk by (apply Z.pow_pos_nonneg; lia).
  unfold round_shift. cbv zeta.
  rewrite !Z.pow_add_r by lia. change (2 ^ 1) with 2.
  rewrite Z.rem_mul_r by lia.
  pose proof (Z.testbit_spec' m (Z.of_nat k) ltac:(lia)) as Hbit.
  pose proof (Z.mod_pos_bound m (2 ^ Z.of_nat k) Hpk) as Hlow.
  cbn [shr_m loc_of_shr_record].
  destruct (Z.testbit m (Z.of_nat k)); simpl in Hbit; rewrite <- Hbit;
    destruct (Z.eqb_spec (m mod 2 ^ Z.of_nat k) 0) as [Hz|Hnz];
    cbn [negb loc_of_shr_record round_nearest_even].
  - rewrite Hz.
    replace (2 * (0 + 2 ^ Z.of_nat k * 1) ?= 2 ^ Z.of_nat k * 2) with Eq; [done|].
    symmetry. apply Z.compare_eq_iff. lia.
  - replace (2 * (m mod 2 ^ Z.of_nat k + 2 ^ Z.of_nat k * 1) ?= 2 ^ Z.of_nat k * 2)
      with Gt; [done|].
    symmetry. apply Z.compare_gt_iff. lia.
  - rewrite Hz.
    replace (2 * (0 + 2 ^ Z.of_nat k * 0) ?= 2 ^ Z.of_nat k * 2) with Lt; [done|].
    symmetry. apply Z.compare_lt_iff. lia.
  - replace (2 * (m mod 2 ^ Z.of_nat k + 2 ^ Z.of_nat k * 0) ?= 2 ^ Z.of_nat k * 2)
      with Lt; [done|].
    symmetry. apply Z.compare_lt_iff. lia.
Qed.

(** Rounding an exact mantissa of [53 + n] digits to 53 digits. *)
Lemma binary_round_aux_shift (m e n : Z) :
  0 < m -> Zdigits2 m = 53 + n -> 0 < n -> -1074 <= e + n < 971 ->
  let M0 := round_shift m n in
  2 ^ 52 <= M0 <= 2 ^ 53
  /\ binary_round_aux Float.prec Float.emax false m e loc_Exact
     = if M0 <? 2 ^ 53 then S754_finite false (Z.to_pos M0) (e + n)
       else S754_finite false (Z.to_pos (2 ^ 52)) (e + n + 1).
Proof.
  intros Hm Hd Hn He M0.
  assert (0 < 2 ^ n) as Hpn by (apply Z.pow_pos_nonneg; lia).
  assert (2 ^ 52 <= M0 <= 2 ^ 53) as HM0.
  { pose proof (Zdigits2_bounds m Hm) as [Hlo Hhi]. rewrite Hd in Hlo, Hhi.
    replace (53 + n - 1) with (52 + n) in Hlo by lia.
    rewrite Z.pow_add_r in Hlo, Hhi by lia.
    pose proof (round_shift_bounds m n ltac:(lia) Hn) as [[Hq1 Hq2] _].
    fold M0 in Hq1, Hq2.
    assert (2 ^ 52 <= m / 2 ^ n) by (apply Z.div_le_lower_bound; lia).
    assert (m / 2 ^ n < 2 ^ 53) by (apply Z.div_lt_upper_bound; lia).
    lia. }
  split; [exact HM0|].
  unfold binary_round_aux.
  assert (shr_fexp Float.prec Float.emax m e loc_Exact
          = (SpecFloat.iter_pos shr_1 (Z.to_pos n) (Build_shr_record m false false),
             e + n)) as ->.
  { unfold shr_fexp. rewrite Hd. unfold fexp, emin, Float.prec, Float.emax.
    replace (Z.max (53 + n + e - 53) (3 - 1024 - 53) - e) with n by lia.
    destruct n as [|p|p]; [lia| |lia]. reflexivity. }
  rewrite (shr_round m n) by lia. fold M0.
  destruct (Z.ltb_spec M0 (2 ^ 53)) as [Hlt|Hge].
  - assert (Zdigits2 M0 = 53) as HdM by (apply Zdigits2_unique; lia).
    unfold shr_fexp. rewrite HdM. unfold fexp, emin, Float.prec, Float.emax.
    replace (Z.max (53 + (e + n) - 53) (3 - 1024 - 53) - (e + n)) with 0 by lia.
    cbn [shr shr_record_of_loc shr_m].
    destruct M0 as [|p0|p0]; [lia| |lia]. rewrite Pos2Z.id.
    destruct (Z.leb_spec (e + n) (1024 - 53)); [done|lia].
  - assert (M0 = 2 ^ 53) as -> by lia.
    unfold shr_fexp. change (Zdigits2 (2 ^ 53)) with 54.
    unfold fexp, emin, Float.prec, Float.emax.
    replace (Z.max (54 + (e + n) - 53) (3 - 1024 - 53) - (e + n)) with 1 by lia.
    cbn [shr]. change (shr_m _) with (2 ^ 52).
    change (2 ^ 52) with (Z.pos (Z.to_pos (2 ^ 52))) at 1. cbv iota.
    destruct (Z.leb_spec (e + n + 1) (1024 - 53)); [done|lia].
Qed.

Lemma round_div_bounds (num den : Z) :
  0 <= num -> 0 < den ->
  num / den <= round_div num den <= num / den + 1
  /\ 2 * Z.abs (round_div num den * den - num) <= den.
Proof.
  intros Hnum Hden. unfold round_div.
  pose proof (Z.div_mod num den ltac:(lia)) as Hdm.
  pose proof (Z.mod_pos_bound num den Hden) as Hr.
  cbv zeta.
  destruct (Z.compare_spec (2 * (num mod den)) den) as [Heq|Hlt|Hgt];
    [destruct (Z.even (num / den))| |]; split; nia.
Qed.

Lemma new_location_million (r : Z) :
  new_location 1000000 r
  = if r =? 0 then loc_Exact else loc_Inexact (2 * r ?= 1000000).
Proof. reflexivity. Qed.

(** The quotient has 53 digits: it is rounded on the remainder. *)
Lemma round_quotient_0 (num : Z) :
  0 <= num ->
  round_nearest_even (num / 1000000) (new_location 1000000 (num mod 1000000))
  = round_div num 1000000.
Proof.
  intros Hnum. rewrite new_location_million. unfold round_div. cbv zeta.
  pose proof (Z.mod_pos_bound num 1000000 ltac:(lia)) as Hr.
  destruct (Z.eqb_spec (num mod 1000000) 0) as [Hz|Hnz]; [|done].
  rewrite Hz. reflexivity.
Qed.

(** The quotient has 54 digits: its last bit is shifted out first. *)
Lemma round_quotient_1 (num : Z) :
  0 <= num ->
  let mrs := shr_1 (shr_record_of_loc (num / 1000000)
                      (new_location 1000000 (num mod 1000000))) in
  round_nearest_even (shr_m mrs) (loc_of_shr_record mrs)
  = round_div num 2000000.
Proof.
  intros Hnum mrs.
  pose proof (Z.mod_pos_bound num 1000000 ltac:(lia)) as Hr.
  pose proof (Z.div_mod num 1000000 ltac:(lia)) as Hdm.
  assert (0 <= num / 1000000) as Hq by (apply Z.div_pos; lia).
  assert (mrs = Build_shr_record (num / 1000000 / 2) (Z.odd (num / 1000000))
                  (negb (num mod 1000000 =? 0))) as ->.
  { unfold mrs. rewrite new_location_million.
    destruct (Z.eqb_spec (num mod 1000000) 0) as [Hz|Hnz].
    - cbn [shr_record_of_loc]. by rewrite shr_1_spec.
    - destruct (2 * (num mod 1000000) ?= 1000000); cbn [shr_record_of_loc];
        by rewrite shr_1_spec. }
  cbn [shr_m loc_of_shr_record].
  unfold round_div. cbv zeta.
  change 2000000 with (1000000 * 2).
  rewrite Z.rem_mul_r by lia. rewrite <- Z.div_div by lia.
  pose proof (Zmod_odd (num / 1000000)) as Hodd.
  destruct (Z.odd (num / 1000000)); rewrite Hodd;
    destruct (Z.eqb_spec (num mod 1000000) 0) as [Hz|Hnz];
    cbn [negb loc_of_shr_record round_nearest_even].
  - rewrite Hz. reflexivity.
  - replace (2 * (num mod 1000000 + 1000000 * 1) ?= 1000000 * 2) with Gt; [done|].
    symmetry. apply Z.compare_gt_iff. lia.
  - rewrite Hz. reflexivity.
  - replace (2 * (num mod 1000000 + 1000000 * 0) ?= 1000000 * 2) with Lt; [done|].
    symmetry. apply Z.compare_lt_iff. lia.
Qed.

Lemma pow2_pred (s : Z) : 0 < s -> 2 ^ s = 2 ^ (s - 1) * 2.
Proof.
  intros Hs. replace s with (s - 1 + 1) at 1 by lia.
  by rewrite Z.pow_add_r by lia.
Qed.

(** The end of [binary_round_aux]: a rounded mantissa that reached [2 ^ 53]
    is halved and the exponent raised. *)
Lemma round_finish (M0 e : Z) :
  2 ^ 52 <= M0 <= 2 ^ 53 -> -1074 <= e < 971 ->
  (let '(mrs, e') := shr_fexp Float.prec Float.emax M0 e loc_Exact in
   match shr_m mrs with
   | 0 => S754_zero false
   | Z.pos m =>
     if e' <=? Float.emax - Float.prec then S754_finite false m e'
     else S754_infinity false
   | Z.neg _ => S754_nan
   end)
  = if M0 <? 2 ^ 53 then S754_finite false (Z.to_pos M0) e
    else S754_finite false (Z.to_pos (2 ^ 52)) (e + 1).
Proof.
  intros HM0 He.
  destruct (Z.ltb_spec M0 (2 ^ 53)) as [Hlt|Hge].
  - assert (Zdigits2 M0 = 53) as HdM by (apply Zdigits2_unique; lia).
    unfold shr_fexp. rewrite HdM. unfold fexp, emin, Float.prec, Float.emax.
    replace (Z.max (53 + e - 53) (3 - 1024 - 53) - e) with 0 by lia.
    cbn [shr shr_record_of_loc shr_m].
    destruct M0 as [|p0|p0]; [lia| |lia]. rewrite Pos2Z.id.
    destruct (Z.leb_spec e (1024 - 53)); [done|lia].
  - assert (M0 = 2 ^ 53) as -> by lia.
    unfold shr_fexp. change (Zdigits2 (2 ^ 53)) with 54.
    unfold fexp, emin, Float.prec, Float.emax.
    replace (Z.max (54 + e - 53) (3 - 1024 - 53) - e) with 1 by lia.
    cbn [shr]. change (shr_m _) with (2 ^ 52).
    change (2 ^ 52) with (Z.pos (Z.to_pos (2 ^ 52))) at 1. cbv iota.
    destruct (Z.leb_spec (e + 1) (1024 - 53)); [done|lia].
Qed.

(** [x / 1_000_000] for a positive integer below [2 ^ 52]: a double with a
    53-digit mantissa [M] and exponent [- a] that is within half a unit in
    the last place of the quotient. *)
Lemma int_truediv_million (x : Z) :
  0 < x < 2 ^ 52 ->
  exists (M : positive) (a : Z),
    Float.int_truediv x 1000000 = Ok (S754_finite false M (- a))
    /\ 2 ^ 52 <= Z.pos M < 2 ^ 53 /\ 20 <= a <= 72
    /\ 2 * Z.abs (Z.pos M * 1000000 - x * 2 ^ a) <= 1000000.
Proof.
  intros Hx.
  pose proof (Zdigits2_pos x ltac:(lia)) as Hdpos.
  pose proof (Zdigits2_bounds x ltac:(lia)) as [Hlo Hhi].
  assert (Zdigits2 x <= 52) as Hd52.
  { destruct (Z_le_gt_dec (Zdigits2 x) 52) as [|Hgt]; [done|].
    assert (2 ^ 52 <= 2 ^ (Zdigits2 x - 1)) by (apply Z.pow_le_mono_r; lia). lia. }
  unfold Float.int_truediv. destruct x as [|p|p]; [lia| |lia].
  change (xorb (Z.pos p <? 0) (1000000 <? 0)) with false.
  change (Z.abs (Z.pos p)) with (Z.pos p). change (Z.abs 1000000) with 1000000.
  rewrite SFdiv_core_million by lia. cbv zeta.
  set (x := Z.pos p) in *. set (s := 73 - Zdigits2 x) in *.
  assert (21 <= s <= 72) as Hs by (unfold s; lia).
  set (num := x * 2 ^ s).
  assert (2 ^ 72 <= num < 2 ^ 73) as Hnum.
  { unfold num. replace 72 with (Zdigits2 x - 1 + s) by (unfold s; lia).
    replace 73 with (Zdigits2 x + s) by (unfold s; lia).
    assert (0 < 2 ^ s) by (apply Z.pow_pos_nonneg; lia).
    rewrite !Z.pow_add_r by lia. nia. }
  set (q := num / 1000000).
  assert (2 ^ 52 <= q < 2 ^ 54) as Hq.
  { unfold q. split.
    - apply Z.div_le_lower_bound; lia.
    - apply Z.div_lt_upper_bound; lia. }
  assert (q <= 9444732965739290) as Hq'.
  { unfold q. assert (num / 1000000 < 9444732965739291); [|lia].
    apply Z.div_lt_upper_bound; lia. }
  pose proof (Z.div_mod num 1000000 ltac:(lia)) as Hdm. fold q in Hdm.
  pose proof (Z.mod_pos_bound num 1000000 ltac:(lia)) as Hr.
  assert (0 < 2 ^ s) as Hps by (apply Z.pow_pos_nonneg; lia).
  unfold binary_round_aux, shr_fexp at 1.
  destruct (Z_lt_ge_dec q (2 ^ 53)) as [Hq53|Hq54].
  - (* the quotient has 53 digits *)
    assert (Zdigits2 q = 53) as -> by (apply Zdigits2_unique; lia).
    unfold fexp at 1, emin, Float.prec at 1 2 3, Float.emax at 1.
    replace (Z.max (53 + - s - 53) (3 - 1024 - 53) - - s) with 0 by lia.
    cbn [shr].
    assert (forall l, loc_of_shr_record (shr_record_of_loc q l) = l) as ->
      by (by intros [|[]]).
    assert (forall l, shr_m (shr_record_of_loc q l) = q) as -> by (by intros [|[]]).
    unfold q at 1. rewrite round_quotient_0 by lia.
    pose proof (round_div_bounds num 1000000 ltac:(lia) ltac:(lia)) as [[HM1 HM2] Herr].
    fold q in HM1, HM2. set (M0 := round_div num 1000000) in *.
    rewrite round_finish by lia.
    destruct (Z.ltb_spec M0 (2 ^ 53)) as [Hlt|Hge].
    + exists (Z.to_pos M0), s. rewrite Z2Pos.id by lia.
      split; [done|]. split; [lia|]. split; [lia|]. exact Herr.
    + exists (Z.to_pos (2 ^ 52)), (s - 1).
      replace (- s + 1) with (- (s - 1)) by lia.
      split; [done|]. split; [done|]. split; [lia|].
      assert (M0 = 2 ^ 53) as HM0 by lia. rewrite HM0 in Herr.
      change (Z.pos (Z.to_pos (2 ^ 52))) with (2 ^ 52).
      unfold num in Herr.
      rewrite (pow2_pred s) in Herr by lia. lia.
  - (* the quotient has 54 digits *)
    assert (Zdigits2 q = 54) as -> by (apply Zdigits2_unique; lia).
    unfold fexp at 1, emin, Float.prec at 1 2 3, Float.emax at 1.
    replace (Z.max (54 + - s - 53) (3 - 1024 - 53) - - s) with 1 by lia.
    cbn [shr SpecFloat.iter_pos].
    unfold q at 1 2. rewrite round_quotient_1 by lia.
    pose proof (round_div_bounds num 2000000 ltac:(lia) ltac:(lia)) as [[HM1 HM2] Herr].
    assert (num / 2000000 = q / 2) as Hq2.
    { unfold q. change 2000000 with (1000000 * 2). by rewrite Z.div_div by lia. }
    rewrite Hq2 in HM1, HM2. set (M0 := round_div num 2000000) in *.
    assert (2 ^ 52 <= q / 2) by (apply Z.div_le_lower_bound; lia).
    assert (q / 2 <= 4722366482869645) by (apply Z.div_le_upper_bound; lia).
    rewrite round_finish by lia.
    destruct (Z.ltb_spec M0 (2 ^ 53)) as [Hlt|Hge]; [|lia].
    exists (Z.to_pos M0), (s - 1). rewrite Z2Pos.id by lia.
    replace (- s + 1) with (- (s - 1)) by lia.
    split; [done|]. split; [lia|]. split; [lia|].
    unfold num in Herr.
    rewrite (pow2_pred s) in Herr by lia. lia.
Qed.

Lemma Zdigits2_le (m a : Z) : 0 < m < 2 ^ a -> Zdigits2 m <= a.
Proof.
  intros Hm. destruct (Z_le_gt_dec (Zdigits2 m) a) as [|Hgt]; [done|].
  pose proof (Zdigits2_bounds m ltac:(lia)) as [Hlo _].
  assert (0 <= a).
  { destruct (Z_le_gt_dec 0 a); [done|]. rewrite Z.pow_neg_r in Hm; lia. }
  assert (2 ^ a <= 2 ^ (Zdigits2 m - 1)) by (apply Z.pow_le_mono_r; lia). lia.
Qed.

(** The integral part that [modf] returns stands for the integer it was
    made from. *)
Lemma to_Z_normalize (i : Z) :
  0 <= i < 2 ^ 53 ->
  Float.to_Z (binary_normalize Float.prec Float.emax i 0 false) = i.
Proof.
  intros Hi. destruct (Z.eq_dec i 0) as [->|Hnz]; [reflexivity|].
  rewrite binary_normalize_exact by lia. cbv zeta.
  pose proof (Zdigits2_le i 53 ltac:(lia)) as Hd.
  set (k := 53 - Zdigits2 i) in *.
  assert (0 < 2 ^ k) by (apply Z.pow_pos_nonneg; lia).
  unfold Float.to_Z, cond_Zopp. rewrite Z2Pos.id by nia.
  replace (0 - k) with (- k) by lia.
  destruct (Z.leb_spec 0 (- k)).
  - assert (k = 0) as -> by lia. change (2 ^ 0) with 1. change (- 0) with 0.
    change (2 ^ 0) with 1. lia.
  - rewrite Z.opp_involutive. apply Z.div_mul. lia.
Qed.

(** A double within half a unit of an integer rounds to it. *)
Lemma round_half_even_near (M : positive) (g u : Z) :
  0 < g -> 2 * Z.abs (Z.pos M - u * 2 ^ g) < 2 ^ g ->
  Float.round_half_even (S754_finite false M (- g)) = u.
Proof.
  intros Hg Hnear. unfold Float.round_half_even, cond_Zopp.
  destruct (Z.leb_spec 0 (- g)); [lia|]. rewrite Z.opp_involutive.
  assert (0 < 2 ^ g) as Hp by (apply Z.pow_pos_nonneg; lia).
  pose proof (Z.div_mod (Z.pos M) (2 ^ g) ltac:(lia)) as Hdm.
  pose proof (Z.mod_pos_bound (Z.pos M) (2 ^ g) Hp) as Hr.
  cbv zeta.
  destruct (Z_le_gt_dec (u * 2 ^ g) (Z.pos M)) as [Hle|Hgt].
  - assert (Z.pos M / 2 ^ g = u) as Hq.
    { symmetry. apply (Z.div_unique _ _ _ (Z.pos M - u * 2 ^ g)); lia. }
    rewrite Hq in *.
    replace (2 * (Z.pos M mod 2 ^ g) ?= 2 ^ g) with Lt; [done|].
    symmetry. apply Z.compare_lt_iff. lia.
  - assert (Z.pos M / 2 ^ g = u - 1) as Hq.
    { symmetry. apply (Z.div_unique _ _ _ (Z.pos M - (u - 1) * 2 ^ g)); lia. }
    rewrite Hq in *.
    replace (2 * (Z.pos M mod 2 ^ g) ?= 2 ^ g) with Gt; [lia|].
    symmetry. apply Z.compare_gt_iff. lia.
Qed.

Lemma of_Z_million :
  Float.of_Z 1000000 = S754_finite false 8589934592000000 (-33).
Proof. by vm_compute. Qed.

(** The fractional part times a million, rounded to a double and then to an
    integer: when the fraction [F / 2 ^ a] is within half a microsecond of
    [u] microseconds, the result is [u]. *)
Lemma mul_million_round (F a u : Z) :
  0 < F < 2 ^ 53 -> F < 2 ^ a -> 20 <= a <= 72 -> 0 <= u < 1000000 ->
  2 * Z.abs (F * 1000000 - u * 2 ^ a) <= 1000000 ->
  Float.round_half_even
    (Float.mul (binary_normalize Float.prec Float.emax F (- a) false)
       (Float.of_Z 1000000)) = u.
Proof.
  intros HF HFa Ha Hu Hnear.
  rewrite binary_normalize_exact by lia. cbv zeta.
  pose proof (Zdigits2_pos F ltac:(lia)) as Hdpos.
  pose proof (Zdigits2_le F 53 ltac:(lia)) as Hd53.
  pose proof (Zdigits2_le F a ltac:(lia)) as Hda.
  pose proof (Zdigits2_bounds F ltac:(lia)) as [HFlo HFhi].
  set (k := 53 - Zdigits2 F) in *.
  assert (0 <= k <= 52) as Hk by (unfold k; lia).
  assert (0 < 2 ^ k) as HK by (apply Z.pow_pos_nonneg; lia).
  assert (0 < 2 ^ a) as HA by (apply Z.pow_pos_nonneg; lia).
  set (mf := F * 2 ^ k).
  assert (2 ^ 52 <= mf < 2 ^ 53) as Hmf.
  { assert (2 ^ (Zdigits2 F - 1) * 2 ^ k = 2 ^ 52) as H52
      by (rewrite <- Z.pow_add_r by lia; f_equal; unfold k; lia).
    assert (2 ^ Zdigits2 F * 2 ^ k = 2 ^ 53) as H53
      by (rewrite <- Z.pow_add_r by lia; f_equal; unfold k; lia).
    unfold mf. rewrite <- H52, <- H53. nia. }
  rewrite of_Z_million. unfold Float.mul, SFmul. cbn [xorb].
  rewrite Pos2Z.inj_mul, Z2Pos.id by lia.
  set (P := mf * 8589934592000000).
  set (n := Zdigits2 P - 53).
  assert (2 ^ 104 <= P < 2 ^ 106) as HP by (unfold P; lia).
  pose proof (Zdigits2_bounds P ltac:(lia)) as [HPlo HPhi].
  assert (52 <= n <= 53) as Hn.
  { unfold n. split.
    - destruct (Z_le_gt_dec 105 (Zdigits2 P)); [lia|].
      assert (2 ^ Zdigits2 P <= 2 ^ 104) by (apply Z.pow_le_mono_r; lia). lia.
    - destruct (Z_le_gt_dec (Zdigits2 P) 106); [lia|].
      assert (2 ^ 106 <= 2 ^ (Zdigits2 P - 1)) by (apply Z.pow_le_mono_r; lia). lia. }
  destruct (binary_round_aux_shift P (- a - k + -33) n) as [HM0 ->];
    [lia|unfold n; lia|lia|lia|].
  pose proof (round_shift_bounds P n ltac:(lia) ltac:(lia)) as [_ Herr].
  set (M0 := round_shift P n) in *.
  (* the exponents, in terms of j = a + k - 53 *)
  set (j := a + k - 53).
  assert (0 <= j) as Hj by (unfold j, k; lia).
  assert (0 < 2 ^ j) as HJ by (apply Z.pow_pos_nonneg; lia).
  assert (2 ^ a * 2 ^ k = 2 ^ 53 * 2 ^ j) as HAK.
  { rewrite <- !Z.pow_add_r by lia. f_equal. unfold j. lia. }
  assert (2 * Z.abs (mf * 1000000 - u * (2 ^ 53 * 2 ^ j)) <= 1000000 * 2 ^ k) as Hnear'.
  { rewrite <- HAK. unfold mf.
    replace (F * 2 ^ k * 1000000 - u * (2 ^ a * 2 ^ k))
      with ((F * 1000000 - u * 2 ^ a) * 2 ^ k) by ring.
    rewrite Z.abs_mul, (Z.abs_eq (2 ^ k)) by lia.
    set (X := Z.abs (F * 1000000 - u * 2 ^ a)) in *.
    rewrite Z.mul_assoc. apply Z.mul_le_mono_nonneg_r; lia. }
  assert (2 ^ 20 <= 2 ^ a) as HA20 by (apply Z.pow_le_mono_r; lia).
  assert (2 ^ k * 1000000 + 48576 * 2 ^ 33 <= 2 ^ 53 * 2 ^ j) as Hroom.
  { assert (2 ^ 20 * 2 ^ k <= 2 ^ a * 2 ^ k) as H20
      by (apply Z.mul_le_mono_nonneg_r; lia).
    rewrite HAK in H20. clear - H20 HJ HK.
    set (K := 2 ^ k) in *. set (J := 2 ^ j) in *. lia. }
  assert (0 < 2 ^ n <= 2 ^ 53) as HN.
  { split; [apply Z.pow_pos_nonneg; lia | apply Z.pow_le_mono_r; lia]. }
  assert (2 ^ (j + 86 - n) * 2 ^ n = 2 ^ j * 2 ^ 86) as Hgn.
  { rewrite <- !Z.pow_add_r by lia. f_equal. lia. }
  assert (0 < 2 ^ (j + 86 - n)) as Hg by (apply Z.pow_pos_nonneg; lia).
  assert (2 * Z.abs (M0 - u * 2 ^ (j + 86 - n)) < 2 ^ (j + 86 - n)) as Hgoal.
  { assert (2 * Z.abs (M0 * 2 ^ n - u * 2 ^ (j + 86 - n) * 2 ^ n)
            < 2 ^ (j + 86 - n) * 2 ^ n) as Hscaled.
    { rewrite <- Z.mul_assoc, Hgn. unfold P in Herr.
      change (2 ^ 86) with (2 ^ 53 * 8589934592) at 1 2.
      clear - Herr Hnear' Hroom HN HJ HK.
      set (K := 2 ^ k) in *. set (J := 2 ^ j) in *. set (N := 2 ^ n) in *.
      set (MN := M0 * N) in *. lia. }
    replace (M0 * 2 ^ n - u * 2 ^ (j + 86 - n) * 2 ^ n)
      with ((M0 - u * 2 ^ (j + 86 - n)) * 2 ^ n) in Hscaled by ring.
    rewrite Z.abs_mul, (Z.abs_eq (2 ^ n)) in Hscaled by lia.
    rewrite Z.mul_assoc in Hscaled.
    apply Z.mul_lt_mono_pos_r in Hscaled; lia. }
  destruct (Z.ltb_spec M0 (2 ^ 53)) as [Hlt|Hge].
  - replace (- a - k + -33 + n) with (- (j + 86 - n)) by (unfold j; lia).
    apply round_half_even_near; [lia|].
    rewrite Z2Pos.id by lia. exact Hgoal.
  - replace (- a - k + -33 + n + 1) with (- (j + 86 - n - 1)) by (unfold j; lia).
    apply round_half_even_near; [lia|].
    change (Z.pos (Z.to_pos (2 ^ 52))) with (2 ^ 52).
    assert (M0 = 2 ^ 53) as HM053 by lia. rewrite HM053 in Hgoal.
    rewrite (pow2_pred (j + 86 - n)) in Hgoal by lia.
    clear - Hgoal. set (G := 2 ^ (j + 86 - n - 1)) in *. lia.
Qed.

Lemma modf_finite (M : positive) (a : Z) :
  0 < a ->
  Float.modf (S754_finite false M (- a))
  = (binary_normalize Float.prec Float.emax (Z.pos M mod 2 ^ a) (- a) false,
     binary_normalize Float.prec Float.emax (Z.pos M / 2 ^ a) 0 false).
Proof.
  intros Ha. unfold Float.modf. destruct (Z.leb_spec 0 (- a)); [lia|].
  by rewrite Z.opp_involutive.
Qed.

(** The seconds and microseconds [x / 1_000_000] is split into are those of
    the integer [x] of microseconds, for every [x] from 0 up to [2 ^ 52]. *)
Lemma timeval_of_truediv (x : Z) :
  0 <= x < 2 ^ 52 ->
  exists t, Float.int_truediv x 1000000 = Ok t
    /\ _PyTime_ObjectToTimeval t = Ok (x / 1000000, x mod 1000000).
Proof.
  intros Hx. destruct (Z.eq_dec x 0) as [->|Hnz].
  { exists (S754_zero false). split; by vm_compute. }
  destruct (int_truediv_million x ltac:(lia)) as (M & a & Ht & HM & Ha & Hnear).
  exists (S754_finite false M (- a)). split; [exact Ht|].
  pose proof (Z.div_mod x 1000000 ltac:(lia)) as Hdm.
  pose proof (Z.mod_pos_bound x 1000000 ltac:(lia)) as Hu.
  assert (0 <= x / 1000000) as Hs0 by (apply Z.div_pos; lia).
  assert (x / 1000000 < 2 ^ 33) as Hs1 by (apply Z.div_lt_upper_bound; lia).
  set (s := x / 1000000) in *. set (u := x mod 1000000) in *.
  assert (0 < 2 ^ a) as HA by (apply Z.pow_pos_nonneg; lia).
  assert (2 ^ 20 <= 2 ^ a) as HA20 by (apply Z.pow_le_mono_r; lia).
  (* the integral part is [s], and the fraction is within half a microsecond
     of [u] *)
  assert (x * 2 ^ a = 1000000 * (s * 2 ^ a) + u * 2 ^ a) as Hxa by (rewrite Hdm; ring).
  assert (0 <= u * 2 ^ a <= 999999 * 2 ^ a) as HuA.
  { split; [apply Z.mul_nonneg_nonneg; lia|].
    apply Z.mul_le_mono_nonneg_r; lia. }
  assert (Z.pos M / 2 ^ a = s) as HI.
  { symmetry. apply (Z.div_unique _ _ _ (Z.pos M - s * 2 ^ a)); [|lia].
    rewrite Hxa in Hnear. clear - Hnear HuA HA20 HA.
    set (A := 2 ^ a) in *. set (sA := s * A) in *. set (uA := u * A) in *.
    change (2 ^ 20) with 1048576 in HA20. lia. }
  assert (Z.pos M mod 2 ^ a = Z.pos M - s * 2 ^ a) as HF.
  { pose proof (Z.div_mod (Z.pos M) (2 ^ a) ltac:(lia)) as H. rewrite HI in H. lia. }
  pose proof (Z.mod_pos_bound (Z.pos M) (2 ^ a) HA) as HFb.
  set (F := Z.pos M mod 2 ^ a) in *.
  assert (2 * Z.abs (F * 1000000 - u * 2 ^ a) <= 1000000) as HnearF.
  { rewrite HF.
    replace ((Z.pos M - s * 2 ^ a) * 1000000 - u * 2 ^ a)
      with (Z.pos M * 1000000 - x * 2 ^ a) by (rewrite Hxa; ring).
    exact Hnear. }
  unfold _PyTime_ObjectToTimeval. rewrite modf_finite by lia. fold F. rewrite HI.
  rewrite to_Z_normalize by lia.
  assert (Float.round_half_even
            (Float.mul (binary_normalize Float.prec Float.emax F (- a) false)
               (Float.of_Z 1000000)) = u) as ->.
  { destruct (Z.eq_dec F 0) as [HF0|HF0].
    - rewrite HF0 in *. rewrite of_Z_million. cbn.
      assert (u * 2 ^ a <= 500000) as Hsmall by lia.
      destruct (Z.eq_dec u 0) as [->|Hu0]; [done|].
      assert (1 * 2 ^ a <= u * 2 ^ a) by (apply Z.mul_le_mono_nonneg_r; lia).
      change (2 ^ 20) with 1048576 in HA20. lia.
    - apply mul_million_round; lia. }
  destruct (Z.leb_spec 1000000 u); [lia|].
  destruct (Z.ltb_spec u 0); [lia|].
  destruct (Z.leb_spec (- 2 ^ 63) s); [|lia].
  destruct (Z.ltb_spec s (2 ^ 63)); [done|lia].
Qed.

(** Seconds below [2 ^ 33] fall in the years 1970 to 2242. *)
Lemma datetime_from_timet_and_us_Ok (timet us : Z) (tz : timezone) :
  0 <= timet < 2 ^ 33 ->
  exists dt, datetime_from_timet_and_us timet us tz = Ok dt.
Proof.
  intros Ht. unfold datetime_from_timet_and_us.
  pose proof (days_from_civil_from_days (timet / 86400)) as Hcivil.
  destruct (civil_from_days (timet / 86400)) as [[y m] d].
  destruct Hcivil as (Hdays & Hm & Hd).
  assert (0 <= timet / 86400 < 99421) as Hz.
  { split; [apply Z.div_pos; lia|apply Z.div_lt_upper_bound; lia]. }
  assert (1 <= y <= 9999) as Hy.
  { revert Hdays. unfold days_from_civil. cbv zeta.
    destruct (m <=? 2), (2 <? m); Z.to_euclidean_division_equations; lia. }
  destruct (Z.leb_spec 1 y); [|lia]. destruct (Z.leb_spec y 9999); [|lia].
  by eexists.
Qed.

(** A stored count of microseconds from 0 up to [2 ^ 52] (the year 2112) is
    converted without error and without loss. *)
Lemma visit_date_of_cell_exact (x : Z) :
  0 <= x < 2 ^ 52 ->
  exists dt, visit_date_of_cell (Some x) = Ok dt
    /\ epoch_microseconds dt = x /\ tzinfo dt = Some utc.
Proof.
  intros Hx. destruct (timeval_of_truediv x Hx) as (t & Ht & Htv).
  assert (0 <= x / 1000000 < 2 ^ 33) as Hs.
  { split; [apply Z.div_pos; lia|apply Z.div_lt_upper_bound; lia]. }
  destruct (datetime_from_timet_and_us_Ok (x / 1000000) (x mod 1000000) utc Hs)
    as (dt & Hdt).
  exists dt. unfold visit_date_of_cell, fromtimestamp.
  rewrite Ht, result_bind_Ok, Htv, result_bind_Ok. split; [exact Hdt|].
  apply datetime_from_timet_and_us_exact in Hdt as [-> ->]. split; [|done].
  pose proof (Z.div_mod x 1000000). lia.
Qed.

(** *** Properties of the sqlite layer *)

(** The connection object [sqlite3.connect] has just made is the last one. *)
Lemma lookup_fresh_connection (cs : list connection) (c : connection) :
  (cs ++ [c]) !! length cs = Some c.
Proof. rewrite lookup_app_r by lia. by rewrite Nat.sub_diag. Qed.

Lemma alter_fresh_connection (f : connection -> connection)
    (cs : list connection) (c : connection) :
  alter f (length cs) (cs ++ [c]) = cs ++ [f c].
Proof.
  rewrite alter_app_r_alt by lia. by rewrite Nat.sub_diag.
Qed.

(** What the function under the decorator does, in one step: when the file
    can be opened, one statement is executed on a new connection, and that
    connection is closed whatever the statement did. *)
Lemma _sanity_check__wrapped___unfold (sqlite_path : PathIsh) (w : world) :
  _sanity_check__wrapped__ sqlite_path w =
  match files w !! expand_path sqlite_path with
  | None => (Raise (OperationalError "unable to open database file"), w)
  | Some f =>
    (select_moz_meta f,
     mk_world (files w)
       (conns w ++ [mk_connection f true None text_factory_str false])
       (sanity_cache w) (S (probes w)))
  end.
Proof.
  unfold _sanity_check__wrapped__, mbind, M_bind, sqlite3_connect.
  destruct (files w !! expand_path sqlite_path) as [f|]; [|reflexivity].
  unfold try_finally, try_except, Connection.execute_moz_meta,
    Connection.check_open, Connection.get, Connection.close, Connection.update,
    modify, lift, raise, mbind, M_bind, mret, M_ret, set_conns, count_probe; simpl.
  rewrite lookup_fresh_connection; simpl.
  destruct (select_moz_meta f) as [[]|e]; [|destruct (is_DatabaseError e)];
    simpl; by rewrite alter_fresh_connection.
Qed.

#[local] Instance same_connection_refl : Reflexive same_connection.
Proof. by intros c. Qed.

#[local] Instance same_connection_trans : Transitive same_connection.
Proof.
  intros c1 c2 c3 (?&?&?&?) (?&?&?&?). unfold same_connection. by repeat split; etrans.
Qed.

#[local] Instance same_world_refl : Reflexive same_world.
Proof. intros w. repeat split. reflexivity. Qed.

#[local] Instance same_world_trans : Transitive same_world.
Proof.
  intros w1 w2 w3 (?&?&?&H12) (?&?&?&H23). unfold same_world.
  repeat split; by etrans.
Qed.

Lemma same_world_lookup (w w' : world) (conn : nat) (c : connection) :
  same_world w w' -> conns w !! conn = Some c ->
  exists c', conns w' !! conn = Some c' /\ same_connection c c'.
Proof.
  intros (_&_&_&H) Hc. by apply (Forall2_lookup_l _ _ _ _ _ H Hc).
Qed.

Lemma same_world_lookup_None (w w' : world) (conn : nat) :
  same_world w w' -> conns w !! conn = None -> conns w' !! conn = None.
Proof.
  intros (_&_&_&H) Hc. apply Forall2_length in H.
  apply lookup_ge_None in Hc. apply lookup_ge_None. lia.
Qed.

(** Ending a transaction is all that [commit] and [rollback] do. *)
Lemma same_world_end_transaction (conn : nat) (w : world) :
  same_world w (set_conns (alter Connection.end_transaction conn) w).
Proof.
  repeat split. simpl. apply Forall2_same_length_lookup_2.
  - by rewrite length_alter.
  - intros i c c' Hc Hc'. destruct (decide (conn = i)) as [->|Hne].
    + rewrite list_lookup_alter_eq, Hc in Hc'. by injection Hc' as <-.
    + rewrite list_lookup_alter_ne, Hc in Hc' by done. by injection Hc' as <-.
Qed.

Lemma __exit___same_world (c : nat) (exc : option exn) (w : world) :
  same_world w (snd (Connection.__exit__ c exc w)).
Proof.
  assert (same_world w (snd (Connection.commit c w))) as H.
  { unfold Connection.commit, Connection.check_open, Connection.get,
      Connection.update, modify, raise, mbind, M_bind, mret, M_ret.
    destruct (conns w !! c) as [cn|]; [|reflexivity].
    destruct (closed cn); [reflexivity|]. apply same_world_end_transaction. }
  by destruct exc.
Qed.

(** Fetching from a cursor changes nothing. *)
Lemma cursor_next_world {q} (conn : nat) (cursor : list (row_of q)) (w : world) :
  snd (cursor_next conn cursor w) = w.
Proof.
  unfold cursor_next, Connection.check_open, Connection.get, lift, raise,
    mbind, M_bind, mret, M_ret.
  destruct (conns w !! conn) as [cn|]; [|reflexivity].
  destruct (closed cn); [reflexivity|].
  destruct cursor as [|raw rest]; [reflexivity|]. simpl.
  by destruct (fetch (text_factory cn) q raw).
Qed.

#[local] Arguments Connection.__exit__ : simpl never.

Ltac settle_step :=
  split; [first [assumption | reflexivity]|];
  split; [done|]; first [reflexivity | simpl in *; lia].

(** Resuming the inner generator once it has started changes nothing, and
    leaves it suspended or finished. *)
Lemma _execute_conn_loop_step {q} (conn : nat) (cursor : list (row_of q)) (w : world) :
  exists r, _execute_conn_loop conn cursor w = (r, w)
    /\ match r with
       | Ok (Some (_, EC_yield conn' rest)) =>
         conn' = conn /\ (length rest < length cursor)%nat
       | Ok (Some _) => False
       | _ => True
       end.
Proof.
  unfold _execute_conn_loop, mbind, M_bind.
  pose proof (cursor_next_world conn cursor w) as Hw.
  destruct (cursor_next conn cursor w) as [[[[row rest]|]|e] w'] eqn:Hn;
    simpl in Hw; subst w'; eexists; (split; [reflexivity|]); simpl; trivial.
  split; [reflexivity|].
  revert Hn. unfold cursor_next, Connection.check_open, Connection.get, lift, raise,
    mbind, M_bind, mret, M_ret.
  destruct (conns w !! conn) as [cn|]; [|discriminate].
  destruct (closed cn); [discriminate|].
  destruct cursor as [|raw rest']; [discriminate|]. simpl.
  destruct (fetch (text_factory cn) q raw); [|discriminate].
  intros [= _ <-]. lia.
Qed.

(** Once started, a further [next()] leaves the world as it was, up to
    transaction flags. *)
Lemma _execute_query_next_started {q} (s : _execute_query_state q) (w : world) :
  started s -> step_ok s w (_execute_query_next s w).
Proof.
  unfold step_ok.
  unfold _execute_query_next, resume_to_next.
  destruct s as [src|[conn|conn cursor|]|c [conn|conn cursor|]|]; simpl; try done;
    intros _.
  - unfold yield_from, mbind, M_bind; simpl.
    destruct (_execute_conn_loop_step conn cursor w) as (r & -> & Hr).
    destruct r as [[[row [?|conn' rest|]]|]|e]; simpl; try done; settle_step.
  - unfold with_yield_from; simpl.
    destruct (_execute_conn_loop_step conn cursor w) as (r & -> & Hr).
    destruct r as [[[row [?|conn' rest|]]|]|e]; simpl; try done.
    + settle_step.
    + pose proof (__exit___same_world c None w) as Hx.
      unfold mbind, M_bind, mret, M_ret, raise.
      destruct (Connection.__exit__ c None w) as [[[]|e] w'];
        simpl in *; settle_step.
    + pose proof (__exit___same_world c (Some e) w) as Hx.
      unfold mbind, M_bind, mret, M_ret, raise.
      destruct (Connection.__exit__ c (Some e) w) as [[[]|e'] w'];
        simpl in *; settle_step.
  - unfold with_yield_from; simpl.
    pose proof (__exit___same_world c None w) as Hx.
    unfold mbind, M_bind, mret, M_ret, raise.
    destruct (Connection.__exit__ c None w) as [[[]|e] w'];
      simpl in *; settle_step.
Qed.

(** [close()] finishes the generator and leaves the world as it was, up to
    transaction flags. *)
Lemma _execute_query_close_spec {q} (s : _execute_query_state q) (w : world) :
  let '(s', w') := _execute_query_close s w in
  same_world w w' /\ s' = EQ_done.
Proof.
  destruct s as [src|inner|c inner|]; simpl; try (split; reflexivity).
  split; [apply __exit___same_world | reflexivity].
Qed.

Lemma apply_op_started {q} (op : gen_op) (s : _execute_query_state q) (w : world) :
  started s ->
  let '(s', w') := apply_op op s w in same_world w w' /\ started s'.
Proof.
  intros Hs. destruct op; simpl.
  - pose proof (_execute_query_next_started s w Hs) as H. unfold step_ok in H.
    destruct (_execute_query_next s w) as [[ev s'] w']. tauto.
  - pose proof (_execute_query_close_spec s w) as H.
    destruct (_execute_query_close s w) as [s' w']. destruct H as [H ->]. done.
Qed.

Lemma apply_ops_started {q} (ops : list gen_op) (s : _execute_query_state q) (w : world) :
  started s ->
  let '(s', w') := apply_ops ops s w in same_world w w' /\ started s'.
Proof.
  revert s w. induction ops as [|op ops IH]; intros s w Hs.
  - simpl. split; [reflexivity | done].
  - simpl.
    pose proof (apply_op_started op s w Hs) as H.
    destruct (apply_op op s w) as [s1 w1]. destruct H as [H1 Hs1]. simpl.
    specialize (IH s1 w1 Hs1).
    destruct (apply_ops ops s1 w1) as [s2 w2]. destruct IH as [H2 Hs2].
    split; [by etrans | done].
Qed.

(** *** The first [next()] *)

Lemma text_cell_decode_ignore (cell : option string) :
  text_cell text_factory_decode_ignore cell = Ok (decode_ignore <$> cell).
Proof. by destruct cell. Qed.

(** With the module's [text_factory] fetching a row never raises. *)
Lemma fetch_decode_ignore (q : query) (raw : row_of q) :
  fetch text_factory_decode_ignore q raw = Ok (fetched q raw).
Proof.
  unfold fetched. destruct q; simpl;
    unfold fetch_visit, fetch_site, fetch_combined;
    by rewrite !text_cell_decode_ignore.
Qed.

Lemma _sanity_check_unfold (sqlite_path : PathIsh) (w : world) :
  _sanity_check sqlite_path w =
  match sanity_cache w !! sqlite_path with
  | Some r => (Ok r, w)
  | None =>
    match files w !! expand_path sqlite_path with
    | None => (Raise (OperationalError "unable to open database file"), w)
    | Some f =>
      let cs := conns w ++ [mk_connection f true None text_factory_str false] in
      match select_moz_meta f with
      | Ok r =>
        (Ok r, mk_world (files w) cs (<[sqlite_path := r]> (sanity_cache w)) (S (probes w)))
      | Raise e =>
        (Raise e, mk_world (files w) cs (sanity_cache w) (S (probes w)))
      end
    end
  end.
Proof.
  unfold _sanity_check. destruct (sanity_cache w !! sqlite_path); [reflexivity|].
  rewrite _sanity_check__wrapped___unfold.
  destruct (files w !! expand_path sqlite_path) as [f|]; [|reflexivity].
  by destruct (select_moz_meta f).
Qed.

Lemma _sanity_check_result (sqlite_path : PathIsh) (w : world) :
  fst (_sanity_check sqlite_path w) = sanity_result sqlite_path w.
Proof.
  rewrite _sanity_check_unfold. unfold sanity_result.
  destruct (sanity_cache w !! sqlite_path); [reflexivity|].
  destruct (files w !! expand_path sqlite_path) as [f|]; [|reflexivity].
  by destruct (select_moz_meta f).
Qed.

(** The first [next()] on a caller's connection: the two factories are set,
    then the statement runs. *)
Lemma first_next_connection (conn : nat) (q : query) (w : world) :
  _execute_query_next (_execute_query (a_connection conn) q) w =
  let w1 := set_conns (alter configured conn) w in
  match source_rows (a_connection conn) q w with
  | Raise e => (Raised e, EQ_done, w1)
  | Ok [] => (Stopped, EQ_done, w1)
  | Ok (raw :: rest) =>
    (Yielded (fetched q raw), EQ_yield_from (EC_yield conn rest), w1)
  end.
Proof.
  unfold _execute_query_next, resume_to_next, _execute_query, _execute_query_body,
    yield_from, _execute_conn_body, _execute_conn_loop, cursor_next,
    Connection.execute, Connection.check_open, Connection.get, Connection.update,
    modify, lift, raise, mbind, M_bind, mret, M_ret, source_rows, source_file,
    set_conns; simpl.
  rewrite list_alter_alter_eq.
  change (Connection.set_text_factory text_factory_decode_ignore
            ∘ Connection.set_row_factory (Some sqlite3_Row)) with configured.
  rewrite list_lookup_alter_eq.
  destruct (conns w !! conn) as [c|] eqn:Hc; simpl; [|reflexivity].
  destruct (closed c) eqn:Hclosed; [reflexivity|]. simpl.
  destruct (select (conn_file c) q) as [[|raw rest]|e]; simpl;
    rewrite ?list_lookup_alter_eq, ?Hc; simpl; rewrite ?Hclosed; try reflexivity.
  by rewrite fetch_decode_ignore.
Qed.

(** The first [next()] on a path: the schema check, then a new connection,
    configured and entered, then the statement.  When the statement raises or
    selects nothing the [with] block is left at once. *)
Lemma first_next_path (p : PathIsh) (q : query) (w : world) :
  _execute_query_next (_execute_query (a_path p) q) w =
  match _sanity_check p w with
  | (Raise e, w0) => (Raised e, EQ_done, w0)
  | (Ok _, w0) =>
    match files w0 !! expand_path p with
    | None =>
      (Raised (OperationalError "unable to open database file"), EQ_done, w0)
    | Some f =>
      let c := length (conns w0) in
      let w1 :=
        set_conns (fun cs => cs ++ [configured (mk_connection f false None text_factory_str false)])
          w0 in
      match select f q with
      | Raise e => (Raised e, EQ_done, w1)
      | Ok [] => (Stopped, EQ_done, w1)
      | Ok (raw :: rest) =>
        (Yielded (fetched q raw), EQ_with_yield_from c (EC_yield c rest), w1)
      end
    end
  end.
Proof.
  unfold _execute_query_next, resume_to_next, _execute_query, _execute_query_body.
  unfold mbind at 1, M_bind at 1.
  destruct (_sanity_check p w) as [[[]|e] w0]; [|reflexivity].
  unfold mbind at 1, M_bind at 1, sqlite3_connect.
  destruct (files w0 !! expand_path p) as [f|]; [|reflexivity].
  unfold Connection.__enter__, with_yield_from, _execute_conn_body,
    _execute_conn_loop, cursor_next, Connection.__exit__, Connection.commit,
    Connection.rollback, Connection.execute, Connection.check_open, Connection.get,
    Connection.update, modify, lift, raise, mbind, M_bind, mret, M_ret, set_conns;
    simpl.
  rewrite !alter_fresh_connection, lookup_fresh_connection; simpl.
  destruct (select f q) as [[|raw rest]|e];
    repeat (simpl; first [ rewrite lookup_fresh_connection
                         | rewrite alter_fresh_connection
                         | rewrite fetch_decode_ignore ]);
    reflexivity.
Qed.

(** *** Consuming a started generator *)

Lemma for_each_row_started {q B} (f : row_of q -> result B)
    (s : _execute_query_state q) (w : world) :
  started s -> step_ok s w (for_each_row f s w).
Proof.
  intros Hs. pose proof (_execute_query_next_started s w Hs) as H.
  unfold for_each_row, step_ok in *.
  destruct (_execute_query_next s w) as [[[row| |e] s'] w']; try exact H.
  destruct (f row) as [b|e]; [exact H|].
  pose proof (_execute_query_close_spec s' w') as Hc.
  destruct (_execute_query_close s' w') as [s'' w''].
  destruct H as (Hw & _ & _), Hc as (Hw' & ->).
  split; [by etrans | done].
Qed.

(** Consuming a started generator leaves the world alone up to transaction
    flags; with more calls allowed than rows left it runs to the end. *)
Lemma run_started {q B}
    (next : _execute_query_state q -> world -> event B * _execute_query_state q * world)
    (Hnext : forall s w, started s -> step_ok s w (next s w))
    (fuel : nat) (s : _execute_query_state q) (w : world) :
  started s ->
  let '(l, o, s', w') := run next fuel s w in
  same_world w w' /\ started s'
  /\ ((remaining s < fuel)%nat -> s' = EQ_done /\ o <> OutOfFuel).
Proof.
  revert s w. induction fuel as [|fuel IH]; intros s w Hs; simpl.
  - split; [reflexivity|]. split; [done|]. lia.
  - specialize (Hnext s w Hs). unfold step_ok in Hnext.
    destruct (next s w) as [[[b| |e] s1] w1]; destruct Hnext as (Hw & Hs1 & Hev).
    + specialize (IH s1 w1 Hs1).
      destruct (run next fuel s1 w1) as [[[l o] s2] w2].
      destruct IH as (Hw2 & Hs2 & Hfuel).
      split; [by etrans|]. split; [done|]. intros Hlt. apply Hfuel. lia.
    + by subst.
    + by subst.
Qed.

(** *** The schema check *)

(** C10: the probe closes the connection it opened on every exit path.
    Whatever [_sanity_check] returns or raises, in the world it leaves behind
    no earlier connection was touched and every connection made by the call
    is closed; when the file opens, the outcome is exactly that of the probe
    statement (its error, if any, comes back to the caller) and the connection
    the probe was run on is there, closed. *)
Theorem sanity_check_closes_its_connection (sqlite_path : PathIsh) (w : world) :
  (let '(r, w') := _sanity_check__wrapped__ sqlite_path w in
   opened_connections_closed w w'
   /\ forall f, files w !! expand_path sqlite_path = Some f ->
        r = select_moz_meta f
        /\ conns w' = conns w ++ [mk_connection f true None text_factory_str false])
  /\ (let '(_, w') := _sanity_check sqlite_path w in
      opened_connections_closed w w').
Proof.
  assert (forall f,
    opened_connections_closed w
      (mk_world (files w)
         (conns w ++ [mk_connection f true None text_factory_str false])
         (sanity_cache w) (S (probes w)))) as Hclosed.
  { intros f. split; simpl.
    - intros conn c Hc. by apply lookup_app_l_Some.
    - intros conn c' Hnone Hc'. apply lookup_ge_None in Hnone.
      rewrite lookup_app_r in Hc' by done.
      destruct (conn - length (conns w))%nat; [|done]. by injection Hc' as <-. }
  assert (opened_connections_closed w w) as Hsame.
  { split; [done|]. intros conn c' Hnone Hc'. congruence. }
  split.
  - rewrite _sanity_check__wrapped___unfold.
    destruct (files w !! expand_path sqlite_path) as [f|].
    + split; [apply Hclosed|]. by intros ? [= <-].
    + split; [apply Hsame | done].
  - rewrite _sanity_check_unfold.
    destruct (sanity_cache w !! sqlite_path); [exact Hsame|].
    destruct (files w !! expand_path sqlite_path) as [f|]; [|exact Hsame].
    destruct (select_moz_meta f); apply (Hclosed f).
Qed.


(** What the schema check leaves of the world: the files, the connections
    there were (new ones come after them), and a cache that only grows. *)
Lemma _sanity_check_world (sqlite_path : PathIsh) (w : world) :
  let '(r, w0) := _sanity_check sqlite_path w in
  r = sanity_result sqlite_path w
  /\ files w0 = files w
  /\ (exists extra, conns w0 = conns w ++ extra)
  /\ (forall p', sanity_cache w !! p' = Some () -> sanity_cache w0 !! p' = Some ())
  /\ (r = Ok () -> sanity_cache w0 !! sqlite_path = Some ()).
Proof.
  pose proof (_sanity_check_result sqlite_path w) as Hr. revert Hr.
  rewrite _sanity_check_unfold. unfold sanity_result.
  destruct (sanity_cache w !! sqlite_path) as [[]|] eqn:Hc.
  - intros _. repeat split; try done. exists []. by rewrite app_nil_r.
  - destruct (files w !! expand_path sqlite_path) as [f|].
    + destruct (select_moz_meta f) as [[]|e]; intros _; simpl.
      * split; [done|]. split; [done|]. split; [by eexists|]. split.
        -- intros p' Hp'. rewrite lookup_insert_ne; [done|]. congruence.
        -- intros _. apply lookup_insert_eq.
      * split; [done|]. split; [done|]. split; [by eexists|]. done.
    + intros _. repeat split; try done. exists []. by rewrite app_nil_r.
Qed.

(** A [next()] that does not yield finishes the generator. *)
Lemma _execute_query_next_finished {q} (s : _execute_query_state q) (w : world) :
  let '(ev, s', _) := _execute_query_next s w in
  match ev with Yielded _ => True | _ => s' = EQ_done end.
Proof.
  unfold _execute_query_next, resume_to_next.
  by destruct (_execute_query_body s w) as [[[[row s']|]|e] w'].
Qed.

(** After the first [next()] the generator is started. *)
Lemma first_next_started {q} (sqlite_path : PathIshOrConn) (w : world) :
  let '(_, s', _) := _execute_query_next (_execute_query sqlite_path q) w in
  started s'.
Proof.
  destruct sqlite_path as [p|conn].
  - rewrite first_next_path. destruct (_sanity_check p w) as [[[]|e] w0]; [|done].
    destruct (files w0 !! expand_path p) as [f|]; [|done].
    by destruct (select f q) as [[|raw rest]|e].
  - rewrite first_next_connection.
    by destruct (source_rows (a_connection conn) q w) as [[|raw rest]|e].
Qed.

(** [list(...)] of a reader: past the first [next()] the world stays as it
    is up to transaction flags, and the generator is run to its end. *)
Lemma list_of_for_each_row {q B} (f : row_of q -> result B)
    (sqlite_path : PathIshOrConn) (w : world) :
  let '(_, _, w1) := _execute_query_next (_execute_query sqlite_path q) w in
  let '(_, o, s', w') := list_of (for_each_row f) (_execute_query sqlite_path q) w in
  same_world w1 w' /\ s' = EQ_done /\ o <> OutOfFuel.
Proof.
  pose proof (@first_next_started q sqlite_path w) as Hs.
  pose proof (_execute_query_next_finished (_execute_query sqlite_path q) w) as Hf.
  unfold list_of, for_each_row at 1.
  destruct (_execute_query_next (_execute_query sqlite_path q) w) as [[[row| |e] s1] w1].
  - destruct (f row) as [b|e].
    + pose proof (run_started (for_each_row f) (for_each_row_started f)
                    (S (remaining s1)) s1 w1 Hs) as Hrun.
      destruct (run (for_each_row f) (S (remaining s1)) s1 w1) as [[[l o] s'] w'].
      destruct Hrun as (Hw & _ & Hfuel). destruct Hfuel as [-> Ho]; [lia|done].
    + pose proof (_execute_query_close_spec s1 w1) as Hc.
      destruct (_execute_query_close s1 w1) as [s'' w'']. by destruct Hc as [Hc ->].
  - by subst.
  - by subst.
Qed.

Lemma for_each_row_Ok {q} (s : _execute_query_state q) (w : world) :
  for_each_row Ok s w = _execute_query_next s w.
Proof.
  unfold for_each_row. by destruct (_execute_query_next s w) as [[[row| |e] s'] w'].
Qed.

Lemma run_ext {A S} (next1 next2 : S -> world -> event A * S * world) :
  (forall s w, next1 s w = next2 s w) ->
  forall fuel s w, run next1 fuel s w = run next2 fuel s w.
Proof.
  intros Hext fuel. induction fuel as [|fuel IH]; intros s w; simpl; [done|].
  rewrite Hext. destruct (next2 s w) as [[[a| |e] s'] w']; try done. by rewrite IH.
Qed.

(** [list(...)] of the generator itself is [list(...)] of the reader that
    yields each row as it is. *)
Lemma list_of_next_Ok {q} (s : _execute_query_state q) (w : world) :
  list_of _execute_query_next s w = list_of (for_each_row Ok) s w.
Proof.
  unfold list_of. rewrite for_each_row_Ok.
  destruct (_execute_query_next s w) as [[[row| |e] s'] w']; try done.
  by rewrite (run_ext (for_each_row Ok) _execute_query_next for_each_row_Ok).
Qed.

(** *** Query operations and connections *)

(** C7: a store that opens but has no [moz_meta] table.  The validation
    raises the database error of the probe statement; the probe ran once and
    is not run again; and the query that triggered the validation, consumed
    to the end, produced no row and ended with that error. *)
Theorem missing_moz_meta_fails_without_rows
    (sqlite_path : PathIsh) (q : query) (d : database) (w : world) :
  files w !! expand_path sqlite_path = Some (Places d) ->
  tbl_moz_meta d = None ->
  sanity_cache w !! sqlite_path = None ->
  let sql_err := OperationalError "no such table: moz_meta" in
  let w' :=
    mk_world (files w)
      (conns w ++ [mk_connection (Places d) true None text_factory_str false])
      (sanity_cache w) (S (probes w)) in
  is_DatabaseError sql_err = true
  /\ _sanity_check sqlite_path w = (Raise sql_err, w')
  /\ list_of _execute_query_next (_execute_query (a_path sqlite_path) q) w
     = ([], Failed sql_err, EQ_done, w')
  /\ (forall B (f : row_of q -> result B),
        list_of (for_each_row f) (_execute_query (a_path sqlite_path) q) w
        = ([], Failed sql_err, EQ_done, w')).
Proof.
  intros Hfile Hmeta Hcache sql_err w'.
  assert (_sanity_check sqlite_path w = (Raise sql_err, w')) as Hcheck.
  { rewrite _sanity_check_unfold, Hcache, Hfile. simpl. by rewrite Hmeta. }
  assert (forall B (f : row_of q -> result B),
    list_of (for_each_row f) (_execute_query (a_path sqlite_path) q) w
    = ([], Failed sql_err, EQ_done, w')) as Hlist.
  { intros B f. unfold list_of, for_each_row.
    by rewrite first_next_path, Hcheck. }
  split; [done|]. split; [done|]. split; [|done].
  rewrite list_of_next_Ok. apply Hlist.
Qed.

(** C9: a query operation on a connection the caller supplied sets that
    connection's [row_factory] to [sqlite3.Row] and its [text_factory] to the
    lossy decoder on the first [next()], and whatever is done with the
    generator afterwards ([next()], [close()], consuming it to the end) the
    connection keeps both settings; it is neither closed nor pointed at
    another file. *)
Theorem execute_query_configures_callers_connection
    (conn : nat) (c : connection) (q : query) (w : world) :
  conns w !! conn = Some c ->
  (forall ops : list gen_op,
     let '(_, w') :=
       apply_ops (do_next :: ops) (_execute_query (a_connection conn) q) w in
     exists c', conns w' !! conn = Some c'
       /\ row_factory c' = Some sqlite3_Row
       /\ text_factory c' = text_factory_decode_ignore
       /\ closed c' = closed c /\ conn_file c' = conn_file c)
  /\ (forall B (f : row_of q -> result B),
        let '(_, o, _, w') :=
          list_of (for_each_row f) (_execute_query (a_connection conn) q) w in
        o <> OutOfFuel
        /\ exists c', conns w' !! conn = Some c'
             /\ row_factory c' = Some sqlite3_Row
             /\ text_factory c' = text_factory_decode_ignore
             /\ closed c' = closed c /\ conn_file c' = conn_file c).
Proof.
  intros Hc.
  set (w1 := set_conns (alter configured conn) w).
  assert (conns w1 !! conn = Some (configured c)) as Hc1.
  { unfold w1; simpl. by rewrite list_lookup_alter_eq, Hc. }
  assert (forall w', same_world w1 w' ->
    exists c', conns w' !! conn = Some c'
      /\ row_factory c' = Some sqlite3_Row
      /\ text_factory c' = text_factory_decode_ignore
      /\ closed c' = closed c /\ conn_file c' = conn_file c) as Hkeep.
  { intros w' Hw'. destruct (same_world_lookup _ _ _ _ Hw' Hc1) as (c' & Hc' & Hsame).
    exists c'. destruct Hsame as (?&?&?&?). done. }
  split.
  - intros ops. simpl.
    pose proof (@first_next_started q (a_connection conn) w) as Hs.
    rewrite first_next_connection in *. fold w1 in Hs |- *.
    assert (forall s : _execute_query_state q, started s ->
      let '(_, w') := apply_ops ops s w1 in
      exists c', conns w' !! conn = Some c'
        /\ row_factory c' = Some sqlite3_Row
        /\ text_factory c' = text_factory_decode_ignore
        /\ closed c' = closed c /\ conn_file c' = conn_file c) as Hrest.
    { intros s Hst. pose proof (apply_ops_started ops s w1 Hst) as H.
      destruct (apply_ops ops s w1) as [s' w']. apply Hkeep, H. }
    destruct (source_rows (a_connection conn) q w) as [[|raw rest]|e];
      simpl; by apply Hrest.
  - intros B f.
    pose proof (list_of_for_each_row f (a_connection conn) w) as H.
    rewrite first_next_connection in H. fold w1 in H.
    destruct (list_of (for_each_row f) (_execute_query (a_connection conn) q) w)
      as [[[l o] s'] w'].
    destruct (source_rows (a_connection conn) q w) as [[|raw rest]|e];
      simpl in H; destruct H as (Hw & _ & Ho); (split; [done | by apply Hkeep]).
Qed.

(** C3, on the code: the connection [_execute_query] opens for a path is
    not released.  When the path passes the schema check and the file opens,
    then however the generator is used after its first [next()] -- run to
    exhaustion, closed early, or stopped by an error -- a connection made by
    the call is still open in the resulting world; so it is after
    [list(...)] of the generator. *)
Theorem with_block_leaves_connection_open
    (sqlite_path : PathIsh) (q : query) (f : file_content) (w : world) :
  sanity_result sqlite_path w = Ok () ->
  files w !! expand_path sqlite_path = Some f ->
  (forall ops : list gen_op,
     ~ releases_connection sqlite_path q (do_next :: ops) w)
  /\ (let '(_, _, _, w') :=
        list_of _execute_query_next (_execute_query (a_path sqlite_path) q) w in
      exists conn c', conns w !! conn = None
        /\ conns w' !! conn = Some c' /\ closed c' = false).
Proof.
  intros Hsanity Hfile.
  pose proof (_sanity_check_world sqlite_path w) as Hcheck.
  pose proof (@first_next_started q (a_path sqlite_path) w) as Hs.
  pose proof (list_of_for_each_row (q := q) Ok (a_path sqlite_path) w) as Hlist.
  rewrite <- list_of_next_Ok in Hlist.
  rewrite first_next_path in Hs, Hlist.
  assert (forall ops, exists s1 w1 conn,
    apply_ops (do_next :: ops) (_execute_query (a_path sqlite_path) q) w
    = apply_ops ops s1 w1
    /\ started s1 /\ conns w !! conn = None
    /\ (forall w', same_world w1 w' ->
          exists c', conns w' !! conn = Some c' /\ closed c' = false)
    /\ (let '(_, _, _, w') :=
          list_of _execute_query_next (_execute_query (a_path sqlite_path) q) w in
        same_world w1 w')) as Hfirst.
  { intros ops. simpl. rewrite first_next_path.
    destruct (_sanity_check sqlite_path w) as [r w0].
    destruct Hcheck as (-> & Hfiles & [extra Hconns] & _). rewrite Hsanity in *.
    rewrite Hfiles, Hfile in *.
    set (fresh := configured (mk_connection f false None text_factory_str false)) in *.
    set (w1 := set_conns (fun cs => cs ++ [fresh]) w0) in *.
    assert (conns w !! length (conns w0) = None) as Hnew.
    { apply lookup_ge_None. rewrite Hconns, length_app. lia. }
    assert (forall w', same_world w1 w' ->
      exists c', conns w' !! length (conns w0) = Some c' /\ closed c' = false) as Hopen.
    { intros w' Hw'.
      destruct (same_world_lookup w1 w' (length (conns w0)) fresh Hw') as (c' & Hc' & Hsame).
      { unfold w1; simpl. apply lookup_fresh_connection. }
      exists c'. destruct Hsame as (_ & Hclosed & _). done. }
    destruct (list_of _execute_query_next (_execute_query (a_path sqlite_path) q) w)
      as [[[l o] s'] w'].
    destruct (select f q) as [[|raw rest]|e]; simpl in *;
      eexists _, w1, (length (conns w0));
      (split; [reflexivity|]); (split; [done|]); (split; [done|]);
      (split; [done | apply Hlist]). }
  split.
  - intros ops Hrel. unfold releases_connection in Hrel.
    destruct (Hfirst ops) as (s1 & w1 & conn & Heq & Hs1 & Hnew & Hopen & _).
    rewrite Heq in Hrel.
    pose proof (apply_ops_started ops s1 w1 Hs1) as H.
    destruct (apply_ops ops s1 w1) as [s' w']. destruct H as [Hw' _].
    destruct (Hopen w' Hw') as (c' & Hc' & Hclosed).
    specialize (Hrel conn c' Hnew Hc'). congruence.
  - destruct (Hfirst []) as (s1 & w1 & conn & _ & _ & Hnew & Hopen & Hw').
    destruct (list_of _execute_query_next (_execute_query (a_path sqlite_path) q) w)
      as [[[l o] s'] w'].
    destruct (Hopen w' Hw') as (c' & Hc' & Hclosed). by exists conn, c'.
Qed.

(** *** What a reader yields *)

Lemma _execute_conn_loop_ready {q} (conn : nat) (cursor : list (row_of q)) (w : world) :
  ready conn w ->
  _execute_conn_loop conn cursor w =
  (match cursor with
   | [] => Ok None
   | raw :: rest => Ok (Some (fetched q raw, EC_yield conn rest))
   end, w).
Proof.
  intros (cn & Hcn & Hopen & Htf).
  unfold _execute_conn_loop, cursor_next, Connection.check_open, Connection.get,
    lift, raise, mbind, M_bind, mret, M_ret.
  rewrite Hcn, Hopen. destruct cursor as [|raw rest]; [reflexivity|].
  by rewrite Htf, fetch_decode_ignore.
Qed.

Lemma __exit___ready (conn : nat) (exc : option exn) (w : world) :
  ready conn w -> exists w', Connection.__exit__ conn exc w = (Ok (), w').
Proof.
  intros (cn & Hcn & Hopen & _).
  assert (exists w', Connection.commit conn w = (Ok (), w')) as H.
  { unfold Connection.commit, Connection.check_open, Connection.get,
      Connection.update, modify, raise, mbind, M_bind, mret, M_ret.
    rewrite Hcn, Hopen. by eexists. }
  by destruct exc.
Qed.

(** One [next()] on a suspended generator whose connection is ready: the
    next row of the cursor, decoded, or the end. *)
Lemma _execute_query_next_ready {q} (conn : nat) (cursor : list (row_of q))
    (s : _execute_query_state q) (w : world) :
  suspended_on conn cursor s -> ready conn w ->
  match cursor with
  | [] => exists w', _execute_query_next s w = (Stopped, EQ_done, w')
  | raw :: rest =>
    exists s', _execute_query_next s w = (Yielded (fetched q raw), s', w)
      /\ suspended_on conn rest s'
  end.
Proof.
  intros Hs Hready. unfold _execute_query_next, resume_to_next.
  destruct Hs as [-> | ->]; simpl.
  - unfold yield_from, mbind, M_bind, mret, M_ret; simpl.
    rewrite _execute_conn_loop_ready by done.
    destruct cursor as [|raw rest]; [by eexists|].
    eexists. split; [reflexivity|]. by left.
  - unfold with_yield_from; simpl. rewrite _execute_conn_loop_ready by done.
    destruct cursor as [|raw rest].
    + destruct (__exit___ready conn None w Hready) as [w' Hx].
      unfold mbind, M_bind, mret, M_ret. rewrite Hx. by eexists.
    + eexists. split; [reflexivity|]. by right.
Qed.

Lemma run_S {A S} (next : S -> world -> event A * S * world)
    (fuel : nat) (s : S) (w : world) :
  run next (Datatypes.S fuel) s w =
  match next s w with
  | (Yielded a, s', w') =>
    let '(l, o, s'', w'') := run next fuel s' w' in (a :: l, o, s'', w'')
  | (Stopped, s', w') => ([], Exhausted, s', w')
  | (Raised e, s', w') => ([], Failed e, s', w')
  end.
Proof. reflexivity. Qed.

(** Consuming a suspended generator through a reader: the remaining rows are
    converted one by one until a conversion raises. *)
Lemma run_collect {q B} (f : row_of q -> result B) (conn : nat)
    (cursor : list (row_of q)) (s : _execute_query_state q) (w : world) :
  suspended_on conn cursor s -> ready conn w ->
  let '(l, o, _, _) := run (for_each_row f) (S (length cursor)) s w in
  (l, o) = collect f (fetched q <$> cursor).
Proof.
  revert s. induction cursor as [|raw rest IH]; intros s Hs Hready.
  - destruct (_execute_query_next_ready conn [] s w Hs Hready) as [w' Hn].
    simpl. unfold for_each_row. by rewrite Hn.
  - destruct (_execute_query_next_ready conn (raw :: rest) s w Hs Hready)
      as (s' & Hn & Hs').
    cbn [length]. rewrite run_S. unfold for_each_row at 1. rewrite Hn.
    cbn [fmap list_fmap collect].
    destruct (f (fetched q raw)) as [b|e].
    + specialize (IH s' Hs' Hready).
      destruct (run (for_each_row f) (S (length rest)) s' w) as [[[l o] s''] w''].
      by rewrite <- IH.
    + by destruct (_execute_query_close s' w).
Qed.

#[local] Arguments run : simpl never.

(** [list(...)] of a reader on any source: the rows of the cursor the source
    gives, decoded and converted one by one, or the exception that kept the
    cursor from being made. *)
Lemma list_of_reader {q B} (f : row_of q -> result B)
    (sqlite_path : PathIshOrConn) (w : world) :
  let '(l, o, _, _) := list_of (for_each_row f) (_execute_query sqlite_path q) w in
  (l, o) = match source_rows sqlite_path q w with
           | Raise e => ([], Failed e)
           | Ok rows => collect f (fetched q <$> rows)
           end.
Proof.
  unfold list_of, for_each_row at 1. destruct sqlite_path as [p|conn].
  - rewrite first_next_path.
    pose proof (_sanity_check_world p w) as Hcheck.
    unfold source_rows, source_file.
    destruct (_sanity_check p w) as [r w0].
    destruct Hcheck as (-> & Hfiles & _). rewrite Hfiles.
    destruct (sanity_result p w) as [[]|e]; [|done]. simpl.
    destruct (files w !! expand_path p) as [file|]; [|done]. simpl.
    destruct (select file q) as [[|raw rest]|e]; [done| |done].
    cbn [fmap list_fmap collect].
    destruct (f (fetched q raw)) as [b|e]; [|done].
    cbn [remaining].
    match goal with
    | |- context [run _ _ ?s ?w1] =>
      pose proof (run_collect f (length (conns w0)) rest s w1) as Hrun
    end.
    destruct (run _ _ _ _) as [[[l o] s'] w'].
    rewrite <- Hrun; [done|by right|].
    eexists. split; [apply lookup_fresh_connection|done].
  - rewrite first_next_connection.
    destruct (source_rows (a_connection conn) q w) as [[|raw rest]|e] eqn:Hrows;
      [done| |done].
    cbn [fmap list_fmap collect].
    destruct (f (fetched q raw)) as [b|e]; [|done].
    cbn [remaining].
    match goal with
    | |- context [run _ _ ?s ?w1] =>
      pose proof (run_collect f conn rest s w1) as Hrun
    end.
    destruct (run _ _ _ _) as [[[l o] s'] w'].
    rewrite <- Hrun; [done|by left|].
    unfold source_rows, source_file in Hrows.
    destruct (conns w !! conn) as [c|] eqn:Hc; [|done].
    destruct (closed c) eqn:Hclosed; [done|].
    exists (configured c). simpl. by rewrite list_lookup_alter_eq, Hc.
Qed.

Lemma as_result_collect {A B} (f : A -> result B) (rows : list A) :
  (let '(l, o) := collect f rows in as_result l o) = mapM f rows.
Proof.
  induction rows as [|r rows IH]; simpl; [done|].
  destruct (f r) as [b|e]; simpl; [|done].
  destruct (collect f rows) as [l o]. rewrite <- IH.
  by destruct o.
Qed.


(** *** The combined query against the merge *)





Lemma visits_join_places_elem (visits : list moz_historyvisits.row)
    (places : list moz_places.row) (V : moz_historyvisits.row) (P : moz_places.row) :
  (V, P) ∈ visits_join_places visits places -> P ∈ places.
Proof.
  unfold visits_join_places. intros H.
  apply list_elem_of_bind in H as (V' & H & _).
  apply list_elem_of_bind in H as (P' & H & HP').
  case_decide; [|by apply not_elem_of_nil in H].
  apply list_elem_of_singleton in H. by injection H as -> ->.
Qed.

Lemma NoDup_fmap_filter {A B} (f : A -> B) (P : A -> Prop)
    `{forall x, Decision (P x)} (l : list A) :
  NoDup (f <$> l) -> NoDup (f <$> filter P l).
Proof.
  induction l as [|x l IH]; [done|]. cbn [fmap list_fmap].
  intros [Hnotin Hnd]%NoDup_cons. rewrite filter_cons.
  case_decide; [|by apply IH]. cbn [fmap list_fmap].
  apply NoDup_cons. split; [|by apply IH].
  intros (y & Hy & Hin)%list_elem_of_fmap. apply Hnotin.
  apply list_elem_of_filter in Hin as [_ Hin].
  apply list_elem_of_fmap. eauto.
Qed.


(** With distinct ids the dict holds every place of the list under its id. *)
Lemma site_dict_of_NoDup (site_list : list MozPlace.t) (s : MozPlace.t) :
  NoDup (MozPlace.place_id <$> site_list) -> s ∈ site_list ->
  site_dict_of site_list !! MozPlace.place_id s = Some s.
Proof.
  intros Hnd Hs. apply list_elem_of_split in Hs as (before & after & ->).
  apply site_dict_of_last. rewrite fmap_app in Hnd.
  apply NoDup_app in Hnd as (_ & _ & Hnd). cbn [fmap list_fmap] in Hnd.
  apply NoDup_cons in Hnd as [Hnotin _].
  apply Forall_forall. intros s' Hs' Heq. apply Hnotin.
  rewrite <- Heq. apply list_elem_of_fmap. eauto.
Qed.



Lemma MozPlace_of_row_place (P : moz_places.row) :
  MozPlace_of_row (fetched SITEDATA_QUERY (sitedata_columns P))
  = Ok (MozPlace_of_place P).
Proof.
  unfold fetched, MozPlace_of_row, MozPlace_of_place; simpl. unfold fetch_site; simpl.
  rewrite !text_cell_decode_ignore; simpl.
  by destruct (moz_places.preview_image_url P).
Qed.


(** [list(...)] of a reader as a Python value. *)
Lemma list_of_reader_result {q B} (f : row_of q -> result B)
    (sqlite_path : PathIshOrConn) (w : world) :
  let '(l, o, _, _) := list_of (for_each_row f) (_execute_query sqlite_path q) w in
  as_result l o = (rows ← source_rows sqlite_path q w; mapM f (fetched q <$> rows)).
Proof.
  pose proof (list_of_reader f sqlite_path w) as H.
  destruct (list_of (for_each_row f) (_execute_query sqlite_path q) w) as [[[l o] s'] w'].
  destruct (source_rows sqlite_path q w) as [rows|e].
  - rewrite result_bind_Ok, <- as_result_collect. by rewrite <- H.
  - by injection H as -> ->.
Qed.


(** *** The stored visit date *)

Lemma fetched_visit_date (V : moz_historyvisits.row) (P : moz_places.row) :
  VisitRow.visit_date (fetched VISIT_QUERY (visit_columns (V, P)))
  = moz_historyvisits.visit_date V
  /\ CombinedRow.visit_date (fetched COMBINED_QUERY (combined_columns (V, P)))
     = moz_historyvisits.visit_date V.
Proof.
  unfold fetched; simpl. unfold fetch_visit, fetch_combined; simpl.
  by rewrite !text_cell_decode_ignore.
Qed.

(** C8: the visit date of every record [single_db_visits] and [read_visits]
    make is [datetime.fromtimestamp(visit_date / 1_000_000, timezone.utc)] of
    the stored [visit_date]: a datetime in UTC that denotes the second count
    and microseconds the timestamp was split into.  The stored value
    1700000000000000 becomes 2023-11-14 22:13:20 UTC, which denotes that many
    microseconds since the epoch.  Every stored value from 0 up to [2 ^ 52]
    microseconds (the year 2112) is converted without error to the UTC
    datetime that denotes exactly that many microseconds: in this range the
    division and the multiplication by a million round to doubles that
    [_PyTime_ObjectToTimeval] rounds back to the stored microsecond. *)
Theorem visit_date_converted_to_utc :
  visit_date_of_cell (Some 1700000000000000)
  = Ok (mk_datetime 2023 11 14 22 13 20 0 (Some utc))
  /\ epoch_microseconds (mk_datetime 2023 11 14 22 13 20 0 (Some utc))
     = 1700000000000000
  /\ (forall (V : moz_historyvisits.row) (P : moz_places.row) (v : MozVisit.t),
        MozVisit_of_row (fetched VISIT_QUERY (visit_columns (V, P))) = Ok v ->
        visit_date_of_cell (moz_historyvisits.visit_date V)
        = Ok (MozVisit.visit_date v))
  /\ (forall (V : moz_historyvisits.row) (P : moz_places.row) (v : Visit.t),
        Visit_of_row (fetched COMBINED_QUERY (combined_columns (V, P))) = Ok v ->
        visit_date_of_cell (moz_historyvisits.visit_date V)
        = Ok (Visit.visit_date v))
  /\ (forall (cell : option Z) (dt : datetime),
        visit_date_of_cell cell = Ok dt ->
        tzinfo dt = Some utc
        /\ exists us t timet micro,
             cell = Some us
             /\ Float.int_truediv us 1000000 = Ok t
             /\ _PyTime_ObjectToTimeval t = Ok (timet, micro)
             /\ epoch_microseconds dt = timet * 1000000 + micro)
  /\ (forall us : Z,
        0 <= us < 2 ^ 52 ->
        exists dt : datetime,
          visit_date_of_cell (Some us) = Ok dt
          /\ epoch_microseconds dt = us /\ tzinfo dt = Some utc).
Proof.
  split; [by vm_compute|]. split; [by vm_compute|].
  split; [|split; [|split; [|exact visit_date_of_cell_exact]]].
  - intros V P v. unfold MozVisit_of_row.
    destruct (fetched_visit_date V P) as [-> _].
    destruct (unquote_cell _) as [url|]; [|done]. rewrite result_bind_Ok.
    destruct (visit_date_of_cell _) as [dt|]; [|done]. rewrite result_bind_Ok.
    by intros [= <-].
  - intros V P v. unfold Visit_of_row.
    destruct (fetched_visit_date V P) as [_ ->].
    destruct (unquote_cell _) as [url|]; [|done]. rewrite result_bind_Ok.
    destruct (visit_date_of_cell _) as [dt|]; [|done]. rewrite result_bind_Ok.
    by intros [= <-].
  - intros cell dt Hdt. split; [by apply visit_date_of_cell_utc in Hdt|].
    revert Hdt. unfold visit_date_of_cell, fromtimestamp.
    destruct cell as [us|]; [|done].
    destruct (Float.int_truediv us 1000000) as [t|] eqn:Ht; [|done].
    rewrite result_bind_Ok.
    destruct (_PyTime_ObjectToTimeval t) as [[timet micro]|] eqn:Htv; [|done].
    rewrite result_bind_Ok. intros Hdt.
    apply datetime_from_timet_and_us_exact in Hdt as [Hdt _].
    by exists us, t, timet, micro.
Qed.

(** *** More on [single_db_merge] *)

(** The dict of a list followed by another: the later list overrides. *)
Lemma site_dict_of_app (site_list more : list MozPlace.t) :
  site_dict_of (site_list ++ more) = site_dict_of more ∪ site_dict_of site_list.
Proof.
  induction more as [|s l IH] using rev_ind.
  - rewrite app_nil_r. unfold site_dict_of at 2; simpl. by rewrite (left_id_L ∅ (∪)).
  - rewrite app_assoc, !site_dict_of_snoc, IH. by rewrite insert_union_l.
Qed.

Lemma site_dict_of_elem (site_list : list MozPlace.t) (k : Z) :
  is_Some (site_dict_of site_list !! k) <-> k ∈ MozPlace.place_id <$> site_list.
Proof.
  rewrite <- not_eq_None_Some, site_dict_of_None, <- Exists_Forall_neg, Exists_exists.
  - rewrite list_elem_of_fmap. split; intros (s & H1 & H2); exists s; split; try done.
    by destruct (decide (MozPlace.place_id s = k)). by intros ?.
  - intros s. destruct (decide (MozPlace.place_id s = k)); tauto.
Qed.

(** Dropping the places with other ids does not change what is under [k]. *)
Lemma site_dict_of_filter (P : Z -> Prop) `{forall k, Decision (P k)}
    (site_list : list MozPlace.t) (k : Z) :
  P k ->
  site_dict_of (filter (fun s => P (MozPlace.place_id s)) site_list) !! k
  = site_dict_of site_list !! k.
Proof.
  intros Hk. induction site_list as [|s l IH] using rev_ind; [done|].
  rewrite filter_app, site_dict_of_snoc.
  destruct (decide (MozPlace.place_id s = k)) as [Heq|Hne].
  - rewrite filter_cons_True by (by rewrite Heq). cbn [filter list_filter].
    rewrite site_dict_of_snoc. subst k. by rewrite !lookup_insert_eq.
  - rewrite lookup_insert_ne by done. rewrite <- IH.
    destruct (decide (P (MozPlace.place_id s))) as [HP|HP].
    + rewrite filter_cons_True by done. cbn [filter list_filter].
      by rewrite site_dict_of_snoc, lookup_insert_ne.
    + rewrite filter_cons_False by done. cbn [filter list_filter].
      by rewrite app_nil_r.
Qed.

(** Two dicts that agree on the place ids of the visits merge alike. *)
Lemma merge_visit_ext (d1 d2 : gmap Z MozPlace.t) (visit_list : list MozVisit.t) :
  (forall v, v ∈ visit_list -> d1 !! MozVisit.place_id v = d2 !! MozVisit.place_id v) ->
  merge_visit d1 <$> visit_list = merge_visit d2 <$> visit_list.
Proof.
  intros H. apply list_fmap_ext. intros i v Hv. unfold merge_visit.
  rewrite (H v); [done|]. by eapply list_elem_of_lookup_2.
Qed.

(** X1: When place ids are unique in the site list, the order of the site list
    does not matter: any rearrangement of it gives the same visits. *)
Theorem single_db_merge_site_order
    (visit_list : list MozVisit.t) (site_list site_list' : list MozPlace.t) :
  NoDup (MozPlace.place_id <$> site_list) ->
  site_list ≡ₚ site_list' ->
  single_db_merge visit_list site_list = single_db_merge visit_list site_list'.
Proof.
  intros Hnd Hp. unfold single_db_merge. cbv zeta.
  assert (site_dict_of site_list = site_dict_of site_list') as ->; [|done].
  apply map_eq. intros k.
  destruct (site_dict_of site_list !! k) as [s|] eqn:Hk.
  - apply site_dict_of_Some in Hk as [Hin <-]. symmetry. apply site_dict_of_NoDup.
    + by rewrite <- Hp.
    + by rewrite <- Hp.
  - symmetry. apply site_dict_of_None. apply site_dict_of_None in Hk.
    by rewrite <- Hp.
Qed.

(** X2: Places no visit refers to play no part: leaving them out of the site
    list gives the same visits. *)
Theorem single_db_merge_unreferenced_sites
    (visit_list : list MozVisit.t) (site_list : list MozPlace.t) :
  single_db_merge visit_list
    (filter (fun s => MozPlace.place_id s ∈ MozVisit.place_id <$> visit_list) site_list)
  = single_db_merge visit_list site_list.
Proof.
  unfold single_db_merge. cbv zeta. apply merge_visit_ext. intros v Hv.
  pose proof (site_dict_of_filter (fun k => k ∈ MozVisit.place_id <$> visit_list)
                site_list (MozVisit.place_id v)) as H.
  apply H, list_elem_of_fmap. eauto.
Qed.

(** X3: Merging in batches.  Visits can be merged a batch at a time; and when
    more places are appended to the site list, a visit whose place id is among
    them is merged as with the appended places alone, while any other visit is
    merged as before. *)
Theorem single_db_merge_batches
    (visits more_visits : list MozVisit.t) (site_list more : list MozPlace.t) :
  single_db_merge (visits ++ more_visits) site_list
  = single_db_merge visits site_list ++ single_db_merge more_visits site_list
  /\ (forall (i : nat) (v : MozVisit.t),
        visits !! i = Some v ->
        single_db_merge visits (site_list ++ more) !! i
        = if decide (MozVisit.place_id v ∈ MozPlace.place_id <$> more)
          then single_db_merge visits more !! i
          else single_db_merge visits site_list !! i).
Proof.
  split; [apply fmap_app|].
  intros i v Hv. unfold single_db_merge. cbv zeta.
  rewrite !list_lookup_fmap, Hv. cbn [fmap option_fmap option_map].
  unfold merge_visit. rewrite site_dict_of_app.
  destruct (decide _) as [Hin|Hnin]; cbn; f_equal.
  - apply site_dict_of_elem in Hin as [s Hs].
    by rewrite (lookup_union_Some_l _ _ _ _ Hs), Hs.
  - assert (site_dict_of more !! MozVisit.place_id v = None) as Hnone.
    { apply eq_None_not_Some. by rewrite site_dict_of_elem. }
    by rewrite lookup_union_r.
Qed.

(** *** What a query operation changes *)

(** Committing or rolling back where no transaction is open changes nothing. *)
Lemma __exit___settled (c : nat) (exc : option exn) (w : world) :
  settled c w -> snd (Connection.__exit__ c exc w) = w.
Proof.
  intros Hc.
  assert (snd (Connection.commit c w) = w) as H.
  { unfold Connection.commit, Connection.check_open, Connection.get,
      Connection.update, modify, raise, mbind, M_bind, mret, M_ret.
    destruct (conns w !! c) as [cn|] eqn:Hcn; [|reflexivity].
    destruct (closed cn); [reflexivity|]. simpl.
    destruct w as [fs cs sc pr]. unfold set_conns; simpl in *. f_equal.
    apply list_eq. intros i. destruct (decide (c = i)) as [<-|Hne].
    - rewrite list_lookup_alter_eq, Hcn. simpl. f_equal.
      specialize (Hc cn Hcn). destruct cn; simpl in *. by subst.
    - by rewrite list_lookup_alter_ne. }
  by destruct exc.
Qed.

(** A started generator whose own connection has no transaction open changes
    nothing when it is resumed or closed. *)
Lemma apply_op_held {q} (op : gen_op) (s : _execute_query_state q) (w : world) :
  started s ->
  (forall c, held_connection s = Some c -> settled c w) ->
  let '(s', w') := apply_op op s w in
  w' = w /\ started s'
  /\ (held_connection s' = held_connection s \/ held_connection s' = None).
Proof.
  intros Hs Hheld. destruct op; simpl.
  - unfold _execute_query_next, resume_to_next.
    destruct s as [src|[conn|conn cursor|]|c [conn|conn cursor|]|]; simpl in *;
      try done.
    + unfold yield_from, mbind, M_bind; simpl.
      destruct (_execute_conn_loop_step conn cursor w) as (r & -> & Hr).
      destruct r as [[[row [?|conn' rest|]]|]|e]; simpl; try done; auto.
    + auto.
    + unfold with_yield_from; simpl.
      destruct (_execute_conn_loop_step conn cursor w) as (r & -> & Hr).
      destruct r as [[[row [?|conn' rest|]]|]|e]; simpl; try done; auto.
      * pose proof (__exit___settled c None w (Hheld c eq_refl)) as Hx.
        unfold mbind, M_bind, mret, M_ret, raise.
        destruct (Connection.__exit__ c None w) as [[[]|e] w']; simpl in *; auto.
      * pose proof (__exit___settled c (Some e) w (Hheld c eq_refl)) as Hx.
        unfold mbind, M_bind, mret, M_ret, raise.
        destruct (Connection.__exit__ c (Some e) w) as [[[]|e'] w']; simpl in *; auto.
    + unfold with_yield_from; simpl.
      pose proof (__exit___settled c None w (Hheld c eq_refl)) as Hx.
      unfold mbind, M_bind, mret, M_ret, raise.
      destruct (Connection.__exit__ c None w) as [[[]|e] w']; simpl in *; auto.
    + auto.
  - destruct s as [src|inner|c inner|]; simpl in *; try done; auto.
    rewrite (__exit___settled c _ w (Hheld c eq_refl)). auto.
Qed.

Lemma apply_ops_held {q} (ops : list gen_op) (s : _execute_query_state q) (w : world) :
  started s ->
  (forall c, held_connection s = Some c -> settled c w) ->
  snd (apply_ops ops s w) = w.
Proof.
  revert s. induction ops as [|op ops IH]; intros s Hs Hheld; [done|].
  cbn [apply_ops].
  pose proof (apply_op_held op s w Hs Hheld) as H.
  destruct (apply_op op s w) as [s1 w1]. destruct H as (-> & Hs1 & Hh).
  apply IH; [done|]. intros c Hc. destruct Hh as [Hh|Hh]; rewrite Hh in Hc; [auto|done].
Qed.

(** The same for a reader, which closes the generator when a conversion
    raises. *)
Lemma for_each_row_held {q B} (f : row_of q -> result B)
    (s : _execute_query_state q) (w : world) :
  started s ->
  (forall c, held_connection s = Some c -> settled c w) ->
  let '(_, s', w') := for_each_row f s w in
  w' = w /\ started s'
  /\ (held_connection s' = held_connection s \/ held_connection s' = None).
Proof.
  intros Hs Hheld. unfold for_each_row.
  pose proof (apply_op_held do_next s w Hs Hheld) as H. cbn [apply_op] in H.
  destruct (_execute_query_next s w) as [[[row| |e] s1] w1]; try exact H.
  destruct H as (-> & Hs1 & Hh).
  destruct (f row) as [b|e]; [auto|].
  assert (forall c, held_connection s1 = Some c -> settled c w) as Hheld1.
  { intros c Hc. destruct Hh as [Hh|Hh]; rewrite Hh in Hc; [auto|done]. }
  pose proof (apply_op_held do_close s1 w Hs1 Hheld1) as H. cbn [apply_op] in H.
  destruct (_execute_query_close s1 w) as [s2 w2].
  destruct H as (-> & Hs2 & Hh2). split; [done|]. split; [done|].
  destruct Hh2 as [Hh2|Hh2]; rewrite Hh2; auto.
Qed.

Lemma run_held {q B} (f : row_of q -> result B) (fuel : nat)
    (s : _execute_query_state q) (w : world) :
  started s ->
  (forall c, held_connection s = Some c -> settled c w) ->
  snd (run (for_each_row f) fuel s w) = w.
Proof.
  revert s. induction fuel as [|fuel IH]; intros s Hs Hheld; [done|].
  rewrite run_S.
  pose proof (for_each_row_held f s w Hs Hheld) as H.
  destruct (for_each_row f s w) as [[[b| |e] s1] w1]; destruct H as (-> & Hs1 & Hh);
    [|done|done].
  assert (forall c, held_connection s1 = Some c -> settled c w) as Hheld1.
  { intros c Hc. destruct Hh as [Hh|Hh]; rewrite Hh in Hc; [auto|done]. }
  specialize (IH s1 Hs1 Hheld1).
  by destruct (run (for_each_row f) fuel s1 w) as [[[l o] s2] w2].
Qed.

(** X4: A query on a connection the caller supplied changes nothing in the
    process but the two factories of that connection, however the generator is
    used after its first [next()]: no validation (the probe count and the
    cache stay as they are), no new connection, no commit or rollback of the
    caller's transaction, no other connection touched. *)
Theorem connection_source_changes_only_factories
    (conn : nat) (q : query) (w : world) :
  (forall ops : list gen_op,
     snd (apply_ops (do_next :: ops) (_execute_query (a_connection conn) q) w)
     = set_conns (alter configured conn) w)
  /\ (forall B (f : row_of q -> result B),
        snd (list_of (for_each_row f) (_execute_query (a_connection conn) q) w)
        = set_conns (alter configured conn) w).
Proof.
  split.
  - intros ops. cbn [apply_ops apply_op]. rewrite first_next_connection. cbv zeta.
    destruct (source_rows (a_connection conn) q w) as [[|raw rest]|e];
      by apply apply_ops_held.
  - intros B f. unfold list_of, for_each_row at 1.
    rewrite first_next_connection. cbv zeta.
    destruct (source_rows (a_connection conn) q w) as [[|raw rest]|e]; [done| |done].
    destruct (f (fetched q raw)) as [b|e]; [|done].
    match goal with
    | |- context [run _ ?n ?s ?w1] => pose proof (run_held f n s w1) as Hrun
    end.
    destruct (run _ _ _ _) as [[[l o] s'] w']. simpl in *. by apply Hrun.
Qed.

Lemma settled_fresh (f : file_content) (w : world) :
  settled (length (conns w)) (set_conns (fun cs => cs ++ [query_connection f]) w).
Proof.
  intros cn. simpl. rewrite lookup_fresh_connection. by intros [= <-].
Qed.

(** Whatever is done with the generator of a query on a path after its first
    [next()], the world stays as that first [next()] left it. *)
Lemma apply_ops_path_world (p : PathIsh) (q : query) (ops : list gen_op) (w : world) :
  snd (apply_ops (do_next :: ops) (_execute_query (a_path p) q) w)
  = after_path_query p w.
Proof.
  cbn [apply_ops apply_op]. rewrite first_next_path.
  unfold after_path_query.
  destruct (_sanity_check p w) as [[[]|e] w0]; [|by apply apply_ops_held].
  destruct (files w0 !! expand_path p) as [file|]; [|by apply apply_ops_held].
  cbv zeta. fold (query_connection file).
  destruct (select file q) as [[|raw rest]|e]; apply apply_ops_held; try done.
  intros c [= <-]. apply settled_fresh.
Qed.

Lemma list_of_path_world {q B} (f : row_of q -> result B) (p : PathIsh) (w : world) :
  snd (list_of (for_each_row f) (_execute_query (a_path p) q) w)
  = after_path_query p w.
Proof.
  unfold list_of, for_each_row at 1. rewrite first_next_path.
  unfold after_path_query.
  destruct (_sanity_check p w) as [[[]|e] w0]; [|done].
  destruct (files w0 !! expand_path p) as [file|]; [|done].
  cbv zeta. fold (query_connection file).
  destruct (select file q) as [[|raw rest]|e]; [done| |done].
  destruct (f (fetched q raw)) as [b|e].
  - match goal with
    | |- context [run _ ?n ?s ?w1] => pose proof (run_held f n s w1) as Hrun
    end.
    destruct (run _ _ _ _) as [[[l o] s'] w']. simpl in *. apply Hrun; [done|].
    intros c [= <-]. apply settled_fresh.
  - cbn [_execute_query_close]. simpl.
    apply __exit___settled, settled_fresh.
Qed.

(** X5: A query on a path changes the process by the effect of the validation
    and by one new connection object, which it leaves open; nothing else,
    however the generator is used after its first [next()]: the connections
    that existed are not touched, and at most two are added. *)
Theorem path_source_changes_only_its_own
    (p : PathIsh) (q : query) (w : world) :
  (forall ops : list gen_op,
     snd (apply_ops (do_next :: ops) (_execute_query (a_path p) q) w)
     = after_path_query p w)
  /\ (forall B (f : row_of q -> result B),
        snd (list_of (for_each_row f) (_execute_query (a_path p) q) w)
        = after_path_query p w)
  /\ (forall conn c, conns w !! conn = Some c ->
        conns (after_path_query p w) !! conn = Some c)
  /\ (length (conns (after_path_query p w)) <= length (conns w) + 2)%nat.
Proof.
  split; [|split; [|split]].
  - intros ops. apply apply_ops_path_world.
  - intros B f. apply list_of_path_world.
  - intros conn c Hc. unfold after_path_query.
    pose proof (_sanity_check_world p w) as Hcheck.
    destruct (_sanity_check p w) as [r w0].
    destruct Hcheck as (_ & _ & [extra Hextra] & _).
    assert (conns w0 !! conn = Some c) as Hc0.
    { rewrite Hextra. by apply lookup_app_l_Some. }
    destruct r as [[]|e]; [|done].
    destruct (files w0 !! expand_path p); [|done].
    simpl. by apply lookup_app_l_Some.
  - unfold after_path_query. rewrite _sanity_check_unfold.
    destruct (sanity_cache w !! p) as [[]|].
    + destruct (files w !! expand_path p); simpl; rewrite ?length_app; simpl; lia.
    + destruct (files w !! expand_path p) as [file|] eqn:Hfile; [|simpl; lia].
      cbv zeta. destruct (select_moz_meta file) as [[]|e]; simpl.
      * rewrite Hfile. simpl. rewrite !length_app. simpl. lia.
      * rewrite length_app. simpl. lia.
Qed.

(** *** More on the validation *)

(** X6: The cache is keyed by the argument as it is given, not by the file it
    names: two different arguments for one file are validated one each, with
    one probe each and the same outcome. *)
Theorem sanity_check_keyed_by_argument
    (p p' : PathIsh) (file : file_content) (w : world) :
  p <> p' ->
  expand_path p = expand_path p' ->
  files w !! expand_path p = Some file ->
  sanity_cache w !! p = None ->
  sanity_cache w !! p' = None ->
  let '(r, w1) := _sanity_check p w in
  let '(r', w2) := _sanity_check p' w1 in
  r = select_moz_meta file /\ r' = r
  /\ sanity_cache w1 !! p' = None
  /\ probes w2 = S (S (probes w)).
Proof.
  intros Hne Hexp Hfile Hp Hp'.
  rewrite _sanity_check_unfold, Hp, Hfile. cbv zeta.
  destruct (select_moz_meta file) as [[]|e] eqn:Hmeta.
  - rewrite _sanity_check_unfold. simpl.
    by rewrite lookup_insert_ne, Hp', <- Hexp, Hfile, Hmeta.
  - rewrite _sanity_check_unfold. simpl.
    by rewrite Hp', <- Hexp, Hfile, Hmeta.
Qed.

(** X7: A path that was validated once is never checked again: whatever the
    file holds by now, the statement is run on it unchecked, and what it
    selects is what the reader yields. *)
Theorem cached_path_is_not_checked_again {q B} (f : row_of q -> result B)
    (p : PathIsh) (file : file_content) (w : world) :
  sanity_cache w !! p = Some () ->
  files w !! expand_path p = Some file ->
  _sanity_check p w = (Ok (), w)
  /\ (let '(l, o, _, w') :=
        list_of (for_each_row f) (_execute_query (a_path p) q) w in
      as_result l o = (rows ← select file q; mapM f (fetched q <$> rows))
      /\ w' = set_conns (fun cs => cs ++ [query_connection file]) w).
Proof.
  intros Hcache Hfile.
  assert (_sanity_check p w = (Ok (), w)) as Hcheck.
  { unfold _sanity_check. by rewrite Hcache. }
  split; [exact Hcheck|].
  pose proof (list_of_reader_result f (a_path p) w) as Hres.
  pose proof (list_of_path_world f p w) as Hw.
  destruct (list_of _ _ _) as [[[l o] s'] w']. simpl in Hw.
  split.
  - rewrite Hres. unfold source_rows, source_file, sanity_result.
    by rewrite Hcache, Hfile.
  - rewrite Hw. unfold after_path_query. by rewrite Hcheck, Hfile.
Qed.

(** X8: When the validation of a path fails, for whatever reason (the path
    cannot be opened, the file is not a database, there is no [moz_meta]), the
    reader raises that exception at its first [next()] and yields nothing.  No
    connection is made for the statement; the one the validation made is
    closed; nothing is cached. *)
Theorem failed_validation_stops_reader {q B} (f : row_of q -> result B)
    (p : PathIsh) (e : exn) (w : world) :
  sanity_result p w = Raise e ->
  let w' :=
    match files w !! expand_path p with
    | None => w
    | Some file =>
      mk_world (files w)
        (conns w ++ [mk_connection file true None text_factory_str false])
        (sanity_cache w) (S (probes w))
    end in
  list_of (for_each_row f) (_execute_query (a_path p) q) w
  = ([], Failed e, EQ_done, w')
  /\ forall ops : list gen_op,
       apply_ops (do_next :: ops) (_execute_query (a_path p) q) w = (EQ_done, w').
Proof.
  intros Hres. cbv zeta.
  assert (_execute_query_next (_execute_query (a_path p) q) w
          = (Raised e, EQ_done,
             match files w !! expand_path p with
             | None => w
             | Some file =>
               mk_world (files w)
                 (conns w ++ [mk_connection file true None text_factory_str false])
                 (sanity_cache w) (S (probes w))
             end)) as Hnext.
  { rewrite first_next_path, _sanity_check_unfold.
    unfold sanity_result in Hres.
    destruct (sanity_cache w !! p) as [r|]; [done|].
    destruct (files w !! expand_path p) as [file|]; [|by injection Hres as <-].
    cbv zeta. by rewrite Hres. }
  split.
  - unfold list_of, for_each_row. by rewrite Hnext.
  - intros ops. cbn [apply_ops apply_op]. rewrite Hnext.
    set (w' := match files w !! expand_path p with None => w | Some _ => _ end).
    clearbody w'. clear. induction ops as [|[] ops IH]; [done| |]; exact IH.
Qed.

(** *** More on what the readers yield *)

Lemma collect_total {A B C} (f : B -> result C) (k : A -> B) (g : A -> C)
    (xs : list A) :
  (forall x, x ∈ xs -> f (k x) = Ok (g x)) ->
  collect f (k <$> xs) = (g <$> xs, Exhausted).
Proof.
  induction xs as [|x xs IH]; intros H; [done|].
  cbn [fmap list_fmap collect]. rewrite (H x) by constructor.
  rewrite IH; [done|]. intros x' Hx'. apply H. by constructor.
Qed.

Lemma collect_app_Raise {A B} (f : A -> result B) (good rest : list A) (bad : A)
    (bs : list B) (e : exn) :
  Forall2 (fun r b => f r = Ok b) good bs -> f bad = Raise e ->
  collect f (good ++ bad :: rest) = (bs, Failed e).
Proof.
  intros Hgood Hbad. induction Hgood as [|r b good bs Hr _ IH]; simpl.
  - by rewrite Hbad.
  - by rewrite Hr, IH.
Qed.

(** What was collected are the conversions of the first rows, of all rows
    when no conversion raised. *)
Lemma collect_prefix {A B} (f : A -> result B) (rows : list A) :
  let '(l, o) := collect f rows in
  Forall2 (fun r b => f r = Ok b) (take (length l) rows) l
  /\ (o = Exhausted -> length l = length rows)
  /\ o <> OutOfFuel.
Proof.
  induction rows as [|r rows IH]; simpl; [by repeat split|].
  destruct (f r) as [b|e] eqn:Hr; [|by repeat split].
  destruct (collect f rows) as [l o]. destruct IH as (IH & Hlen & Ho). simpl.
  split; [by constructor|]. split; [|done]. intros ->. by rewrite Hlen.
Qed.


(** The first [next()] on a source that gives a cursor. *)
Lemma first_next_rows {q} (sqlite_path : PathIshOrConn) (rows : list (row_of q))
    (w : world) :
  source_rows sqlite_path q w = Ok rows ->
  exists conn w1, ready conn w1 /\
    match rows with
    | [] =>
      _execute_query_next (_execute_query sqlite_path q) w = (Stopped, EQ_done, w1)
    | raw :: rest =>
      exists s', _execute_query_next (_execute_query sqlite_path q) w
                 = (Yielded (fetched q raw), s', w1)
        /\ suspended_on conn rest s'
    end.
Proof.
  destruct sqlite_path as [p|conn].
  - rewrite first_next_path.
    pose proof (_sanity_check_world p w) as Hcheck.
    unfold source_rows, source_file.
    destruct (_sanity_check p w) as [r w0].
    destruct Hcheck as (-> & Hfiles & _). rewrite Hfiles.
    destruct (sanity_result p w) as [[]|e]; [|done]. simpl.
    destruct (files w !! expand_path p) as [file|]; [|done]. simpl.
    intros ->.
    exists (length (conns w0)),
      (set_conns (fun cs => cs ++ [configured (mk_connection file false None
                                                  text_factory_str false)]) w0).
    split.
    + eexists. split; [apply lookup_fresh_connection|done].
    + destruct rows as [|raw rest]; [done|]. eexists. split; [done|]. by right.
  - rewrite first_next_connection. intros Hrows. rewrite Hrows.
    unfold source_rows, source_file in Hrows.
    destruct (conns w !! conn) as [c|] eqn:Hc; [|done].
    destruct (closed c) eqn:Hclosed; [done|].
    exists conn, (set_conns (alter configured conn) w). split.
    + exists (configured c). simpl. by rewrite list_lookup_alter_eq, Hc.
    + destruct rows as [|raw rest]; [done|]. eexists. split; [done|]. by left.
Qed.

(** [n] calls of [next()] on a suspended generator with at least [n] rows
    left: the next [n] rows, and nothing else happens. *)
Lemma run_take {q} (conn : nat) (n : nat) (cursor : list (row_of q))
    (s : _execute_query_state q) (w : world) :
  suspended_on conn cursor s -> ready conn w -> (n <= length cursor)%nat ->
  let '(l, o, s', w') := run _execute_query_next n s w in
  l = take n (fetched q <$> cursor) /\ o = OutOfFuel /\ w' = w
  /\ suspended_on conn (drop n cursor) s'.
Proof.
  revert cursor s. induction n as [|n IH]; intros cursor s Hs Hready Hn.
  - by unfold run.
  - destruct cursor as [|raw rest]; [simpl in Hn; lia|].
    destruct (_execute_query_next_ready conn (raw :: rest) s w Hs Hready)
      as (s' & Hnext & Hs').
    rewrite run_S, Hnext.
    specialize (IH rest s' Hs' Hready ltac:(simpl in Hn; lia)).
    destruct (run _execute_query_next n s' w) as [[[l o] s''] w''].
    destruct IH as (-> & -> & -> & Hs''). by repeat split.
Qed.

(** X9: Rows are handed out one per [next()], in the order of the cursor: on
    a source that gives a cursor, [n] calls of [next()] yield its first [n]
    rows, and consuming it to the end yields all of them and then stops.
    Text is decoded leniently whatever the connection's [text_factory] was,
    so a text cell that is not valid UTF-8 raises nothing. *)
Theorem rows_are_streamed_in_order {q} (sqlite_path : PathIshOrConn)
    (rows : list (row_of q)) (w : world) :
  source_rows sqlite_path q w = Ok rows ->
  (forall n : nat, (n <= length rows)%nat ->
     let '(l, o, _, _) := run _execute_query_next n (_execute_query sqlite_path q) w in
     l = take n (fetched q <$> rows) /\ o = OutOfFuel)
  /\ (let '(l, o, s, _) :=
        list_of _execute_query_next (_execute_query sqlite_path q) w in
      l = fetched q <$> rows /\ o = Exhausted /\ s = EQ_done).
Proof.
  intros Hrows. split.
  - intros [|n] Hn; [by unfold run|].
    destruct (first_next_rows sqlite_path rows w Hrows) as (conn & w1 & Hready & H).
    destruct rows as [|raw rest]; [simpl in Hn; lia|].
    destruct H as (s' & Hnext & Hs').
    rewrite run_S, Hnext.
    pose proof (run_take conn n rest s' w1 Hs' Hready ltac:(simpl in Hn; lia)) as Hrun.
    destruct (run _execute_query_next n s' w1) as [[[l o] s''] w''].
    by destruct Hrun as (-> & -> & _).
  - rewrite list_of_next_Ok.
    pose proof (list_of_reader (q := q) Ok sqlite_path w) as Hl.
    pose proof (list_of_for_each_row (q := q) Ok sqlite_path w) as Hs.
    destruct (_execute_query_next (_execute_query sqlite_path q) w) as [[ev s1] w1].
    destruct (list_of (for_each_row Ok) (_execute_query sqlite_path q) w)
      as [[[l o] s'] w'].
    destruct Hs as (_ & -> & _). rewrite Hrows in Hl.
    rewrite (collect_total Ok (fetched q) (fetched q)) in Hl by done.
    by injection Hl as -> ->.
Qed.

(** X10: [single_db_sitedata] yields the places that have a title, a
    description or a preview image, in table order, and no conversion of such
    a row can raise; a place with none of the three is never reported.  When
    [id] is the primary key, no two records share a place id. *)
Theorem single_db_sitedata_records (sqlite_path : PathIshOrConn)
    (d : database) (places : list moz_places.row) (w : world) :
  source_file sqlite_path w = Ok (Places d) ->
  tbl_moz_places d = Some places ->
  let '(l, o, _, _) :=
    list_of single_db_sitedata_next (single_db_sitedata sqlite_path) w in
  o = Exhausted
  /\ l = MozPlace_of_place <$> places_with_sitedata places
  /\ Forall (fun s => place_metadata s <> (None, None, None)) l
  /\ (places_primary_key d -> NoDup (MozPlace.place_id <$> l)).
Proof.
  intros Hfile Hplaces.
  pose proof (list_of_reader (q := SITEDATA_QUERY) MozPlace_of_row sqlite_path w) as Hl.
  unfold single_db_sitedata_next, single_db_sitedata.
  destruct (list_of _ _ _) as [[[l o] s'] w'].
  unfold source_rows in Hl. rewrite Hfile in Hl. cbn in Hl.
  unfold select_sitedata in Hl. rewrite Hplaces in Hl. cbn in Hl.
  rewrite <- list_fmap_compose in Hl.
  rewrite (collect_total _ _ MozPlace_of_place) in Hl
    by (intros P _; apply MozPlace_of_row_place).
  injection Hl as -> ->. split; [done|]. split; [done|]. split.
  - apply Forall_fmap, Forall_forall. intros P HP.
    apply list_elem_of_filter in HP as [HP _].
    unfold has_sitedata in HP. unfold place_metadata, MozPlace_of_place; simpl.
    destruct (moz_places.title P), (moz_places.description P),
      (moz_places.preview_image_url P); done.
  - intros Hpk. specialize (Hpk places Hplaces).
    rewrite <- list_fmap_compose.
    by apply (NoDup_fmap_filter moz_places.id).
Qed.

(** The rows the join makes of one visit: one, when [id] is a key and the
    visit refers to a place; none, when it refers to no place. *)
Lemma join_one_visit (V : moz_historyvisits.row) (places : list moz_places.row) :
  NoDup (moz_places.id <$> places) ->
  fst <$> (P ← places;
           if decide (moz_historyvisits.place_id V = Some (moz_places.id P))
           then [(V, P)] else [])
  = if decide (has_place places V) then [V] else [].
Proof.
  unfold has_place. induction places as [|P ps IH]; intros Hnd.
  - rewrite decide_False; [done|]. by intros H%Exists_nil.
  - cbn [fmap list_fmap] in Hnd. apply NoDup_cons in Hnd as [Hnotin Hnd].
    rewrite bind_cons, fmap_app, (IH Hnd).
    destruct (decide (Exists _ ps)) as [H|H],
      (decide (Exists _ (P :: ps))) as [H'|H'],
      (decide (moz_historyvisits.place_id V = Some (moz_places.id P)))
        as [Heq|Hne];
      simpl; try done; exfalso.
    + apply Exists_exists in H as (P' & HP' & Heq').
      apply Hnotin. rewrite Heq in Heq'. injection Heq' as ->.
      apply list_elem_of_fmap. eauto.
    + apply H'. by left.
    + apply H'. by right.
    + apply Exists_cons in H' as [H'|H']; done.
    + apply H'. by left.
Qed.

(** The visits of the join are the visits that refer to a place, in order. *)
Lemma visits_join_places_fst (visits : list moz_historyvisits.row)
    (places : list moz_places.row) :
  NoDup (moz_places.id <$> places) ->
  fst <$> visits_join_places visits places = filter (has_place places) visits.
Proof.
  intros Hnd. unfold visits_join_places.
  induction visits as [|V vs IH]; [done|].
  rewrite bind_cons, fmap_app, IH, (join_one_visit V places Hnd).
  rewrite filter_cons. by destruct (decide (has_place places V)).
Qed.

Lemma Forall2_fmap_eq {A B C} (g : A -> C) (h : B -> C) (xs : list A) (ys : list B) :
  Forall2 (fun x y => g x = h y) xs ys -> g <$> xs = h <$> ys.
Proof. induction 1 as [|x y xs ys Hxy _ IH]; [done|]. cbn. by rewrite Hxy, IH. Qed.

(** The identifiers of a [MozVisit] are those of the pair it was made of. *)
Lemma MozVisit_of_row_ids (V : moz_historyvisits.row) (P : moz_places.row)
    (v : MozVisit.t) :
  MozVisit_of_row (fetched VISIT_QUERY (visit_columns (V, P))) = Ok v ->
  MozVisit.visit_id v = moz_historyvisits.id V
  /\ MozVisit.place_id v = moz_places.id P.
Proof.
  unfold fetched, MozVisit_of_row; simpl. unfold fetch_visit; simpl.
  rewrite text_cell_decode_ignore; simpl.
  destruct (unquote_cell _) as [url|]; [|done]. rewrite result_bind_Ok.
  destruct (visit_date_of_cell _) as [dt|]; [|done]. rewrite result_bind_Ok.
  by intros [= <-].
Qed.

(** X11: [single_db_visits] reports the visits that refer to a row of
    [moz_places], one record each, in table order, under the visit's and the
    place's ids; a visit whose [place_id] is NULL or names no place is left
    out without a word.  (Should a conversion raise, the records yielded
    before it are the first of these.) *)
Theorem single_db_visits_skips_unmatched (sqlite_path : PathIshOrConn)
    (d : database) (visits : list moz_historyvisits.row)
    (places : list moz_places.row) (w : world) :
  source_file sqlite_path w = Ok (Places d) ->
  tbl_moz_historyvisits d = Some visits ->
  tbl_moz_places d = Some places ->
  places_primary_key d ->
  let '(l, o, _, _) :=
    list_of single_db_visits_next (single_db_visits sqlite_path) w in
  MozVisit.visit_id <$> l
  = take (length l) (moz_historyvisits.id <$> filter (has_place places) visits)
  /\ (o = Exhausted ->
      MozVisit.visit_id <$> l
      = moz_historyvisits.id <$> filter (has_place places) visits)
  /\ Forall (fun v => MozVisit.place_id v ∈ moz_places.id <$> places) l.
Proof.
  intros Hfile Hvisits Hplaces Hpk. specialize (Hpk places Hplaces).
  pose proof (list_of_reader (q := VISIT_QUERY) MozVisit_of_row sqlite_path w) as Hl.
  unfold single_db_visits_next, single_db_visits.
  destruct (list_of _ _ _) as [[[l o] s'] w'].
  unfold source_rows in Hl. rewrite Hfile in Hl. cbn in Hl.
  unfold select_visits in Hl. rewrite Hvisits, Hplaces in Hl. cbn in Hl.
  rewrite <- list_fmap_compose in Hl.
  set (J := visits_join_places visits places) in *.
  match type of Hl with
  | _ = collect ?f ?rows => pose proof (collect_prefix f rows) as Hpre
  end.
  rewrite <- Hl in Hpre. destruct Hpre as (Hall & Hlen & _).
  rewrite <- fmap_take in Hall. apply Forall2_fmap_l in Hall.
  assert (MozVisit.visit_id <$> l
          = take (length l) (moz_historyvisits.id <$> filter (has_place places) visits))
    as Hids.
  { rewrite <- (visits_join_places_fst visits places Hpk). fold J.
    rewrite <- list_fmap_compose, <- fmap_take. symmetry.
    apply Forall2_fmap_eq. eapply Forall2_impl; [exact Hall|].
    intros [V P] v Hv. simpl in *. by apply MozVisit_of_row_ids in Hv as [-> _]. }
  split; [exact Hids|]. split.
  - intros Ho. rewrite Hids, (Hlen Ho), length_fmap.
    rewrite <- (visits_join_places_fst visits places Hpk). fold J.
    rewrite <- (length_fmap (moz_historyvisits.id ∘ fst) J),
      <- list_fmap_compose.
    apply firstn_all.
  - eapply Forall2_Forall_r; [exact Hall|].
    apply Forall_forall. intros [V P] HVP v Hv. simpl in Hv.
    apply MozVisit_of_row_ids in Hv as [_ ->].
    apply (subseteq_take (length l) J) in HVP.
    apply visits_join_places_elem in HVP.
    apply list_elem_of_fmap. eauto.
Qed.

(** A NULL url or a NULL visit date is a [TypeError] in either reader. *)
Lemma MozVisit_of_row_NULL (r : VisitRow.t) :
  VisitRow.url r = None \/ VisitRow.visit_date r = None ->
  MozVisit_of_row (fetched VISIT_QUERY r) = Raise TypeError.
Proof.
  unfold fetched, MozVisit_of_row; simpl. unfold fetch_visit; simpl.
  rewrite text_cell_decode_ignore; simpl.
  intros [H|H]; rewrite H; [done|].
  by destruct (VisitRow.url r).
Qed.

Lemma Visit_of_row_NULL (r : CombinedRow.t) :
  CombinedRow.url r = None \/ CombinedRow.visit_date r = None ->
  Visit_of_row (fetched COMBINED_QUERY r) = Raise TypeError.
Proof.
  unfold fetched, Visit_of_row; simpl. unfold fetch_combined; simpl.
  rewrite !text_cell_decode_ignore; simpl.
  intros [H|H]; rewrite H; [done|].
  by destruct (CombinedRow.url r).
Qed.

(** X12: A row a reader cannot convert ends the reader there: the records of
    the rows before it are yielded, then the exception is raised and the
    generator is finished; the rows after it are never reported.  For
    [single_db_visits] and [read_visits] a row with a NULL url or a NULL visit
    date is such a row, with a [TypeError]. *)
Theorem reader_stops_at_bad_row {q B} (f : row_of q -> result B)
    (sqlite_path : PathIshOrConn) (good rest : list (row_of q)) (bad : row_of q)
    (bs : list B) (e : exn) (w : world) :
  source_rows sqlite_path q w = Ok (good ++ bad :: rest) ->
  Forall2 (fun r b => f (fetched q r) = Ok b) good bs ->
  f (fetched q bad) = Raise e ->
  (let '(l, o, s, _) := list_of (for_each_row f) (_execute_query sqlite_path q) w in
   l = bs /\ o = Failed e /\ s = EQ_done)
  /\ (forall r : VisitRow.t,
        VisitRow.url r = None \/ VisitRow.visit_date r = None ->
        MozVisit_of_row (fetched VISIT_QUERY r) = Raise TypeError)
  /\ (forall r : CombinedRow.t,
        CombinedRow.url r = None \/ CombinedRow.visit_date r = None ->
        Visit_of_row (fetched COMBINED_QUERY r) = Raise TypeError).
Proof.
  intros Hrows Hgood Hbad.
  split; [|split; [apply MozVisit_of_row_NULL|apply Visit_of_row_NULL]].
  pose proof (list_of_reader f sqlite_path w) as Hl.
  pose proof (list_of_for_each_row f sqlite_path w) as Hs.
  destruct (_execute_query_next (_execute_query sqlite_path q) w) as [[ev s1] w1].
  destruct (list_of (for_each_row f) (_execute_query sqlite_path q) w)
    as [[[l o] s'] w'].
  destruct Hs as (_ & -> & _). rewrite Hrows in Hl.
  rewrite fmap_app, fmap_cons in Hl.
  rewrite (collect_app_Raise f _ _ _ bs e) in Hl; [by injection Hl as -> ->| |done].
  by apply Forall2_fmap_l.
Qed.



(** *** More on the visit date *)

(** X14: The fields of the datetime made of a stored count of microseconds
    from 0 up to [2 ^ 52]: no microsecond is lost to the float arithmetic, the
    time of day is that of the second count, and the date is the calendar date
    of the day count, between 1970 and 2112. *)
Theorem visit_date_fields (us : Z) (dt : datetime) :
  0 <= us < 2 ^ 52 ->
  visit_date_of_cell (Some us) = Ok dt ->
  let secs := us / 1000000 in
  microsecond dt = us mod 1000000
  /\ second dt = secs mod 60
  /\ minute dt = secs / 60 mod 60
  /\ hour dt = secs / 3600 mod 24
  /\ (year dt, month dt, day dt) = civil_from_days (secs / 86400)
  /\ 1970 <= year dt <= 2112 /\ 1 <= month dt <= 12 /\ 1 <= day dt <= 31.
Proof.
  intros Hus Hdt. cbv zeta.
  destruct (timeval_of_truediv us Hus) as (t & Ht & Htv).
  unfold visit_date_of_cell, fromtimestamp in Hdt.
  rewrite Ht, result_bind_Ok, Htv, result_bind_Ok in Hdt.
  unfold datetime_from_timet_and_us in Hdt.
  assert (0 <= us / 1000000 < 2 ^ 52 / 1000000 + 1) as Hs.
  { split; [apply Z.div_pos; lia|].
    apply Z.lt_succ_r, Z.div_le_mono; lia. }
  set (secs := us / 1000000) in *.
  assert (0 <= secs / 86400 <= 52125) as Hdays.
  { split; [apply Z.div_pos; lia|].
    apply Z.lt_succ_r, Z.div_lt_upper_bound; [lia|].
    change (2 ^ 52 / 1000000 + 1) with 4503599628 in Hs. lia. }
  pose proof (days_from_civil_from_days (secs / 86400)) as Hcivil.
  destruct (civil_from_days (secs / 86400)) as [[y m] d].
  destruct Hcivil as (Hcivil & Hm & Hd).
  destruct ((1 <=? y) && (y <=? 9999)); [|done]. injection Hdt as <-. simpl.
  split; [done|]. split; [clear; Z.to_euclidean_division_equations; lia|].
  split; [clear; Z.to_euclidean_division_equations; lia|].
  split; [clear; Z.to_euclidean_division_equations; lia|].
  split; [done|]. split; [|done].
  revert Hcivil Hdays Hm Hd. generalize (secs / 86400). clear. intros z.
  unfold days_from_civil. cbv zeta.
  destruct (Z.leb_spec m 2), (Z.ltb_spec 2 m); intros; try lia;
    Z.to_euclidean_division_equations; lia.
Qed.

(** *** A well-formed store is read without error *)

Lemma collect_all_Ok {A B C} (f : B -> result C) (k : A -> B)
    (R : A -> C -> Prop) (xs : list A) :
  Forall (fun x => exists c, f (k x) = Ok c /\ R x c) xs ->
  exists l, collect f (k <$> xs) = (l, Exhausted) /\ Forall2 R xs l.
Proof.
  induction 1 as [|x xs (c & Hc & HR) _ (l & Hl & IH)].
  - by exists [].
  - exists (c :: l). cbn [fmap list_fmap collect]. rewrite Hc, Hl.
    split; [done|]. by constructor.
Qed.

(** The [Visit] made of one pair of the join whose url and visit date are
    there, the date within range. *)
Lemma Visit_of_row_well_formed (V : moz_historyvisits.row) (P : moz_places.row)
    (us : Z) :
  moz_places.url P <> None ->
  moz_historyvisits.visit_date V = Some us ->
  0 <= us < 2 ^ 52 ->
  exists v, Visit_of_row (fetched COMBINED_QUERY (combined_columns (V, P))) = Ok v
    /\ Some (Visit.url v) = unquote <$> (decode_ignore <$> moz_places.url P)
    /\ epoch_microseconds (Visit.visit_date v) = us
    /\ tzinfo (Visit.visit_date v) = Some utc
    /\ Visit.visit_type v = moz_historyvisits.visit_type V
    /\ Visit.title v = decode_ignore <$> moz_places.title P
    /\ Visit.description v = decode_ignore <$> moz_places.description P
    /\ Visit.preview_image v
       = unquote <$> (decode_ignore <$> moz_places.preview_image_url P).
Proof.
  intros Hurl Hdate Hus.
  destruct (visit_date_of_cell_exact us Hus) as (dt & Hdt & Hepoch & Htz).
  unfold fetched, Visit_of_row; simpl. unfold fetch_combined; simpl.
  rewrite !text_cell_decode_ignore; simpl.
  destruct (moz_places.url P) as [u|]; [|done]. simpl.
  rewrite Hdate, Hdt. simpl. eexists. split; [reflexivity|]. simpl.
  by destruct (moz_places.preview_image_url P).
Qed.

(** X15: On a store where every visit that refers to a place has a visit date
    from 0 up to [2 ^ 52] microseconds and the place has a url, [read_visits]
    raises nothing and yields one [Visit] per pair of the join, in order: the
    url percent-decoded, the date the stored instant in UTC, to the
    microsecond, the visit type as stored, and title, description and preview
    image (percent-decoded) of the place, NULL staying [None]. *)
Theorem read_visits_well_formed_store (sqlite_path : PathIshOrConn)
    (d : database) (visits : list moz_historyvisits.row)
    (places : list moz_places.row) (w : world) :
  source_file sqlite_path w = Ok (Places d) ->
  tbl_moz_historyvisits d = Some visits ->
  tbl_moz_places d = Some places ->
  Forall (fun VP : moz_historyvisits.row * moz_places.row =>
            moz_places.url VP.2 <> None
            /\ exists us, moz_historyvisits.visit_date VP.1 = Some us
                          /\ 0 <= us < 2 ^ 52)
    (visits_join_places visits places) ->
  let '(l, o, _, _) := list_of read_visits_next (read_visits sqlite_path) w in
  o = Exhausted
  /\ Forall2 (fun (VP : moz_historyvisits.row * moz_places.row) (v : Visit.t) =>
        Some (Visit.url v) = unquote <$> (decode_ignore <$> moz_places.url VP.2)
        /\ Some (epoch_microseconds (Visit.visit_date v))
           = moz_historyvisits.visit_date VP.1
        /\ tzinfo (Visit.visit_date v) = Some utc
        /\ Visit.visit_type v = moz_historyvisits.visit_type VP.1
        /\ Visit.title v = decode_ignore <$> moz_places.title VP.2
        /\ Visit.description v = decode_ignore <$> moz_places.description VP.2
        /\ Visit.preview_image v
           = unquote <$> (decode_ignore <$> moz_places.preview_image_url VP.2))
       (visits_join_places visits places) l.
Proof.
  intros Hfile Hvisits Hplaces Hwf.
  pose proof (list_of_reader (q := COMBINED_QUERY) Visit_of_row sqlite_path w) as Hl.
  unfold read_visits_next, read_visits.
  destruct (list_of _ _ _) as [[[l o] s'] w'].
  unfold source_rows in Hl. rewrite Hfile in Hl. cbn in Hl.
  unfold select_combined in Hl. rewrite Hvisits, Hplaces in Hl. cbn in Hl.
  rewrite <- list_fmap_compose in Hl.
  match type of Hl with
  | _ = collect ?f (?k <$> ?xs) =>
    match goal with
    | |- _ /\ Forall2 ?R _ _ =>
      destruct (collect_all_Ok f k R xs) as (l' & Hl' & Hall)
    end
  end.
  - eapply Forall_impl; [exact Hwf|].
    intros [V P] (Hurl & us & Hdate & Hus). simpl in *.
    destruct (Visit_of_row_well_formed V P us Hurl Hdate Hus)
      as (v & Hv & H1 & H2 & H3 & H4 & H5 & H6 & H7).
    exists v. split; [exact Hv|]. rewrite Hdate, H2. by repeat split.
  - rewrite Hl' in Hl. by injection Hl as -> ->.
Qed.

End Reader.

(** ** The properties on the example profile *)

Example read_visits_example :
  visits_by_combined_query example_expand_path example_unquote example_decode
    example_decode_ignore (a_path example_path) example_world
  = Ok [ Visit.mk "https://example.com/a b"
           (mk_datetime 2023 11 14 22 13 20 0 (Some utc)) (Some 1)
           (Some "Home") None None;
         Visit.mk "https://example.org/"
           (mk_datetime 2023 11 14 22 13 20 123457 (Some utc)) (Some 2)
           None None None ].
Proof. by vm_compute. Qed.

Lemma single_db_merge_one_per_visit_witness :
  length (single_db_merge example_visit_list example_site_list) = 2%nat
  /\ visit_event <$> single_db_merge example_visit_list example_site_list
     = mozvisit_event <$> example_visit_list.
Proof.
  destruct (single_db_merge_one_per_visit example_visit_list example_site_list)
    as (Hlen & Hevents & _).
  split; [exact Hlen | exact Hevents].
Defined.



Lemma with_block_leaves_connection_open_witness :
  sanity_result example_expand_path example_path example_world = Ok ()
  /\ files example_world !! example_expand_path example_path
     = Some (Places example_db)
  /\ ~ releases_connection example_expand_path example_decode example_decode_ignore
        example_path VISIT_QUERY [do_next; do_next; do_next; do_close] example_world.
Proof.
  assert (sanity_result example_expand_path example_path example_world = Ok ())
    as Hsanity by (vm_compute; reflexivity).
  assert (files example_world !! example_expand_path example_path
          = Some (Places example_db)) as Hfile by (vm_compute; reflexivity).
  split; [exact Hsanity|]. split; [exact Hfile|].
  exact (proj1 (with_block_leaves_connection_open example_expand_path example_decode
                  example_decode_ignore example_path VISIT_QUERY (Places example_db)
                  example_world Hsanity Hfile)
           [do_next; do_next; do_close]).
Defined.



Lemma single_db_merge_fields_witness :
  exists o, single_db_merge example_visit_list example_site_list !! 1%nat = Some o
    /\ Visit.url o = "https://example.org/"
    /\ Visit.title o = None /\ Visit.description o = None
    /\ Visit.preview_image o = None.
Proof.
  destruct (proj1 (single_db_merge_fields example_visit_list example_site_list) 1%nat
              (MozVisit.mk "https://example.org/" 2 11
                 (mk_datetime 2023 11 14 22 13 20 123457 (Some utc)) (Some 2))
              eq_refl)
    as (o & Ho & Hurl & _ & _ & Hnone & _).
  exists o. split; [exact Ho|]. split; [exact Hurl|].
  apply Hnone. repeat constructor; simpl; lia.
Defined.

Lemma single_db_merge_last_wins_witness :
  Forall (fun s' => MozPlace.place_id s' <> 1) [MozPlace.mk 3 (Some "Elsewhere") None None]
  /\ exists o, single_db_merge example_visit_list example_site_list !! 0%nat = Some o
       /\ Visit.title o = Some "Home, again"
       /\ Visit.description o = Some "the start page"
       /\ Visit.preview_image o = None.
Proof.
  assert (Forall (fun s' => MozPlace.place_id s' <> 1)
            [MozPlace.mk 3 (Some "Elsewhere") None None]) as Hafter
    by (repeat constructor; simpl; lia).
  split; [exact Hafter|].
  exact (proj2 (proj2 (single_db_merge_last_wins example_visit_list
                         [MozPlace.mk 1 (Some "Home") None None]
                         [MozPlace.mk 3 (Some "Elsewhere") None None]
                         (MozPlace.mk 1 (Some "Home, again") (Some "the start page") None)
                         Hafter))
           0%nat
           (MozVisit.mk "https://example.com/a b" 1 10
              (mk_datetime 2023 11 14 22 13 20 0 (Some utc)) (Some 1))
           eq_refl eq_refl).
Defined.

Lemma missing_moz_meta_fails_without_rows_witness :
  files example_world !! example_expand_path example_old_path
  = Some (Places example_db_no_meta)
  /\ tbl_moz_meta example_db_no_meta = None
  /\ sanity_cache example_world !! example_old_path = None
  /\ fst (fst (fst (list_of
        (for_each_row (q := VISIT_QUERY) example_expand_path example_decode
           example_decode_ignore (MozVisit_of_row example_unquote))
        (_execute_query (a_path example_old_path) VISIT_QUERY) example_world)))
     = [].
Proof.
  assert (files example_world !! example_expand_path example_old_path
          = Some (Places example_db_no_meta)) as Hfile by (vm_compute; reflexivity).
  assert (sanity_cache example_world !! example_old_path = None) as Hcache
    by (vm_compute; reflexivity).
  split; [exact Hfile|]. split; [reflexivity|]. split; [exact Hcache|].
  destruct (missing_moz_meta_fails_without_rows example_expand_path example_decode
              example_decode_ignore example_old_path VISIT_QUERY example_db_no_meta
              example_world Hfile eq_refl Hcache)
    as (_ & _ & _ & Hlist).
  rewrite (Hlist _ (MozVisit_of_row example_unquote)). reflexivity.
Defined.

Lemma visit_date_converted_to_utc_witness :
  0 <= 1700000000123457 < 2 ^ 52
  /\ exists dt : datetime,
       visit_date_of_cell (Some 1700000000123457) = Ok dt
       /\ epoch_microseconds dt = 1700000000123457 /\ tzinfo dt = Some utc.
Proof.
  split; [lia|].
  apply (proj2 (proj2 (proj2 (proj2 (proj2
           (visit_date_converted_to_utc example_unquote example_decode
              example_decode_ignore)))))).
  lia.
Defined.

Lemma execute_query_configures_callers_connection_witness :
  conns example_world !! 0%nat
  = Some (mk_connection (Places example_db) false None text_factory_str false)
  /\ let '(_, w') :=
       apply_ops example_expand_path example_decode example_decode_ignore
         [do_next; do_next; do_next] (_execute_query (a_connection 0) COMBINED_QUERY)
         example_world in
     exists c', conns w' !! 0%nat = Some c'
       /\ row_factory c' = Some sqlite3_Row
       /\ text_factory c' = text_factory_decode_ignore
       /\ closed c' = false /\ conn_file c' = Places example_db.
Proof.
  split; [reflexivity|].
  exact (proj1 (execute_query_configures_callers_connection example_expand_path
                  example_decode example_decode_ignore 0%nat
                  (mk_connection (Places example_db) false None text_factory_str false)
                  COMBINED_QUERY example_world eq_refl)
           [do_next; do_next]).
Defined.

Lemma sanity_check_closes_its_connection_witness :
  let '(_, w') := _sanity_check example_expand_path example_old_path example_world in
  opened_connections_closed example_world w'.
Proof.
  exact (proj2 (sanity_check_closes_its_connection example_expand_path
                  example_old_path example_world)).
Defined.

(** ** The further properties on the example stores *)

Lemma single_db_merge_site_order_witness :
  NoDup (MozPlace.place_id
           <$> [MozPlace.mk 1 (Some "Home") None None;
                MozPlace.mk 3 (Some "Elsewhere") None None])
  /\ single_db_merge example_visit_list
       [MozPlace.mk 1 (Some "Home") None None;
        MozPlace.mk 3 (Some "Elsewhere") None None]
     = single_db_merge example_visit_list
         [MozPlace.mk 3 (Some "Elsewhere") None None;
          MozPlace.mk 1 (Some "Home") None None].
Proof.
  assert (NoDup (MozPlace.place_id
                   <$> [MozPlace.mk 1 (Some "Home") None None;
                        MozPlace.mk 3 (Some "Elsewhere") None None])) as Hnd
    by (by apply (bool_decide_unpack _)).
  split; [exact Hnd|].
  exact (single_db_merge_site_order example_visit_list _ _ Hnd (perm_swap _ _ [])).
Defined.

Lemma sanity_check_keyed_by_argument_witness :
  a_str "places.sqlite" <> a_Path "places.sqlite"
  /\ example_expand_path (a_str "places.sqlite")
     = example_expand_path (a_Path "places.sqlite")
  /\ let '(r, w1) :=
       _sanity_check example_expand_path (a_str "places.sqlite") example_world in
     let '(r', w2) := _sanity_check example_expand_path (a_Path "places.sqlite") w1 in
     r = select_moz_meta (Places example_db) /\ r' = r
     /\ sanity_cache w1 !! a_Path "places.sqlite" = None
     /\ probes w2 = S (S (probes example_world)).
Proof.
  split; [discriminate|]. split; [reflexivity|].
  apply (sanity_check_keyed_by_argument example_expand_path
           (a_str "places.sqlite") (a_Path "places.sqlite") (Places example_db)
           example_world); [discriminate|reflexivity..].
Defined.

Lemma cached_path_is_not_checked_again_witness :
  sanity_cache example_world_validated !! example_old_path = Some ()
  /\ files example_world_validated !! example_expand_path example_old_path
     = Some (Places example_db_no_meta)
  /\ select_moz_meta (Places example_db_no_meta)
     = Raise (OperationalError "no such table: moz_meta")
  /\ _sanity_check example_expand_path example_old_path example_world_validated
     = (Ok (), example_world_validated)
  /\ (let '(l, o, _, w') :=
        list_of (for_each_row example_expand_path example_decode
                   example_decode_ignore (q := COMBINED_QUERY)
                   (Visit_of_row example_unquote))
          (_execute_query (a_path example_old_path) COMBINED_QUERY)
          example_world_validated in
      as_result l o
      = (rows ← select (Places example_db_no_meta) COMBINED_QUERY;
         mapM (Visit_of_row example_unquote)
           (fetched example_decode example_decode_ignore COMBINED_QUERY <$> rows))
      /\ w' = set_conns
                (fun cs => cs ++ [query_connection (Places example_db_no_meta)])
                example_world_validated).
Proof.
  split; [reflexivity|]. split; [reflexivity|]. split; [reflexivity|].
  apply (cached_path_is_not_checked_again example_expand_path example_decode
           example_decode_ignore (q := COMBINED_QUERY) (Visit_of_row example_unquote)
           example_old_path (Places example_db_no_meta) example_world_validated);
    reflexivity.
Defined.

Lemma failed_validation_stops_reader_witness :
  sanity_result example_expand_path example_notes_path example_world_notes
  = Raise (DatabaseError "file is not a database")
  /\ list_of (for_each_row example_expand_path example_decode example_decode_ignore
                (q := VISIT_QUERY) (MozVisit_of_row example_unquote))
       (_execute_query (a_path example_notes_path) VISIT_QUERY) example_world_notes
     = ([], Failed (DatabaseError "file is not a database"), EQ_done,
        mk_world (files example_world_notes)
          (conns example_world_notes
             ++ [mk_connection NotADatabase true None text_factory_str false])
          (sanity_cache example_world_notes) (S (probes example_world_notes))).
Proof.
  split; [reflexivity|].
  exact (proj1 (failed_validation_stops_reader example_expand_path example_decode
                  example_decode_ignore (q := VISIT_QUERY)
                  (MozVisit_of_row example_unquote) example_notes_path
                  (DatabaseError "file is not a database") example_world_notes
                  eq_refl)).
Defined.

Lemma rows_are_streamed_in_order_witness :
  source_rows example_expand_path (a_connection 0) VISIT_QUERY example_world
  = Ok (visit_columns <$> visits_join_places example_visits example_places)
  /\ (let '(l, o, _, _) :=
        run (_execute_query_next example_expand_path example_decode
               example_decode_ignore) 1
          (_execute_query (a_connection 0) VISIT_QUERY) example_world in
      l = take 1 (fetched example_decode example_decode_ignore VISIT_QUERY
                    <$> (visit_columns
                           <$> visits_join_places example_visits example_places))
      /\ o = OutOfFuel).
Proof.
  split; [reflexivity|].
  apply (proj1 (rows_are_streamed_in_order example_expand_path example_decode
                  example_decode_ignore (q := VISIT_QUERY) (a_connection 0)
                  (visit_columns <$> visits_join_places example_visits example_places)
                  example_world eq_refl) 1%nat).
  vm_compute. lia.
Defined.

Lemma single_db_sitedata_records_witness :
  source_file example_expand_path (a_path example_path) example_world
  = Ok (Places example_db)
  /\ tbl_moz_places example_db = Some example_places
  /\ (let '(l, o, _, _) :=
        list_of (single_db_sitedata_next example_expand_path example_unquote
                   example_decode example_decode_ignore)
          (single_db_sitedata (a_path example_path)) example_world in
      o = Exhausted
      /\ l = MozPlace_of_place example_unquote example_decode_ignore
               <$> places_with_sitedata example_places
      /\ Forall (fun s => place_metadata s <> (None, None, None)) l
      /\ (places_primary_key example_db -> NoDup (MozPlace.place_id <$> l))).
Proof.
  split; [reflexivity|]. split; [reflexivity|].
  exact (single_db_sitedata_records example_expand_path example_unquote
           example_decode example_decode_ignore (a_path example_path) example_db
           example_places example_world eq_refl eq_refl).
Defined.

Lemma single_db_visits_skips_unmatched_witness :
  source_file example_expand_path (a_connection 0) (example_world_on example_db_dangling)
  = Ok (Places example_db_dangling)
  /\ places_primary_key example_db_dangling
  /\ moz_historyvisits.id <$> filter (has_place example_places) example_visits_dangling
     = [10; 11]
  /\ (let '(l, o, _, _) :=
        list_of (single_db_visits_next example_expand_path example_unquote
                   example_decode example_decode_ignore)
          (single_db_visits (a_connection 0)) (example_world_on example_db_dangling) in
      MozVisit.visit_id <$> l
      = take (length l)
          (moz_historyvisits.id
             <$> filter (has_place example_places) example_visits_dangling)
      /\ (o = Exhausted ->
          MozVisit.visit_id <$> l
          = moz_historyvisits.id
              <$> filter (has_place example_places) example_visits_dangling)
      /\ Forall (fun v => MozVisit.place_id v ∈ moz_places.id <$> example_places) l).
Proof.
  assert (places_primary_key example_db_dangling) as Hpk.
  { intros places [= <-]. by apply (bool_decide_unpack _). }
  split; [reflexivity|]. split; [exact Hpk|]. split; [reflexivity|].
  exact (single_db_visits_skips_unmatched example_expand_path example_unquote
           example_decode example_decode_ignore (a_connection 0) example_db_dangling
           example_visits_dangling example_places
           (example_world_on example_db_dangling) eq_refl eq_refl eq_refl Hpk).
Defined.

Lemma reader_stops_at_bad_row_witness :
  source_rows example_expand_path (a_connection 0) VISIT_QUERY
    (example_world_on example_db_null_url)
  = Ok ([VisitRow.mk (Some "https://example.com/a%20b") 1 10
           (Some 1700000000000000) (Some 1)]
        ++ VisitRow.mk None 3 14 (Some 1700000000999999) (Some 1)
        :: [VisitRow.mk (Some "https://example.com/a%20b") 1 15
              (Some 1700000001000000) (Some 1)])
  /\ (let '(l, o, s, _) :=
        list_of (for_each_row example_expand_path example_decode
                   example_decode_ignore (q := VISIT_QUERY)
                   (MozVisit_of_row example_unquote))
          (_execute_query (a_connection 0) VISIT_QUERY)
          (example_world_on example_db_null_url) in
      l = [MozVisit.mk "https://example.com/a b" 1 10
             (mk_datetime 2023 11 14 22 13 20 0 (Some utc)) (Some 1)]
      /\ o = Failed TypeError /\ s = EQ_done).
Proof.
  assert (source_rows example_expand_path (a_connection 0) VISIT_QUERY
            (example_world_on example_db_null_url)
          = Ok ([VisitRow.mk (Some "https://example.com/a%20b") 1 10
                   (Some 1700000000000000) (Some 1)]
                ++ VisitRow.mk None 3 14 (Some 1700000000999999) (Some 1)
                :: [VisitRow.mk (Some "https://example.com/a%20b") 1 15
                      (Some 1700000001000000) (Some 1)])) as Hrows
    by (vm_compute; reflexivity).
  assert (Forall2
            (fun r b =>
               MozVisit_of_row example_unquote
                 (fetched example_decode example_decode_ignore VISIT_QUERY r) = Ok b)
            [VisitRow.mk (Some "https://example.com/a%20b") 1 10
               (Some 1700000000000000) (Some 1)]
            [MozVisit.mk "https://example.com/a b" 1 10
               (mk_datetime 2023 11 14 22 13 20 0 (Some utc)) (Some 1)]) as Hgood
    by (constructor; [vm_compute; reflexivity|constructor]).
  assert (MozVisit_of_row example_unquote
            (fetched example_decode example_decode_ignore VISIT_QUERY
               (VisitRow.mk None 3 14 (Some 1700000000999999) (Some 1)))
          = Raise TypeError) as Hbad
    by (vm_compute; reflexivity).
  split; [exact Hrows|].
  pose proof (reader_stops_at_bad_row example_expand_path example_unquote
                  example_decode example_decode_ignore (q := VISIT_QUERY)
                  (MozVisit_of_row example_unquote) (a_connection 0) _ _ _ _
                  TypeError (example_world_on example_db_null_url)
                  Hrows Hgood Hbad) as H.
  apply proj1 in H.
  exact H.
Defined.

Lemma visit_date_fields_witness :
  0 <= 1700000000123457 < 2 ^ 52
  /\ visit_date_of_cell (Some 1700000000123457)
     = Ok (mk_datetime 2023 11 14 22 13 20 123457 (Some utc))
  /\ 123457 = 1700000000123457 mod 1000000
  /\ 20 = 1700000000123457 / 1000000 mod 60
  /\ 13 = 1700000000123457 / 1000000 / 60 mod 60
  /\ 22 = 1700000000123457 / 1000000 / 3600 mod 24
  /\ (2023, 11, 14) = civil_from_days (1700000000123457 / 1000000 / 86400)
  /\ 1970 <= 2023 <= 2112 /\ 1 <= 11 <= 12 /\ 1 <= 14 <= 31.
Proof.
  assert (0 <= 1700000000123457 < 2 ^ 52) as Hus by lia.
  split; [exact Hus|]. split; [by vm_compute|].
  apply (visit_date_fields 1700000000123457
           (mk_datetime 2023 11 14 22 13 20 123457 (Some utc)) Hus).
  by vm_compute.
Defined.

Lemma read_visits_well_formed_store_witness :
  source_file example_expand_path (a_path example_path) example_world
  = Ok (Places example_db)
  /\ (let '(l, o, _, _) :=
        list_of (read_visits_next example_expand_path example_unquote example_decode
                   example_decode_ignore)
          (read_visits (a_path example_path)) example_world in
      o = Exhausted
      /\ Forall2 (fun (VP : moz_historyvisits.row * moz_places.row) (v : Visit.t) =>
            Some (Visit.url v)
            = example_unquote <$> (example_decode_ignore <$> moz_places.url VP.2)
            /\ Some (epoch_microseconds (Visit.visit_date v))
               = moz_historyvisits.visit_date VP.1
            /\ tzinfo (Visit.visit_date v) = Some utc
            /\ Visit.visit_type v = moz_historyvisits.visit_type VP.1
            /\ Visit.title v = example_decode_ignore <$> moz_places.title VP.2
            /\ Visit.description v
               = example_decode_ignore <$> moz_places.description VP.2
            /\ Visit.preview_image v
               = example_unquote
                   <$> (example_decode_ignore <$> moz_places.preview_image_url VP.2))
           (visits_join_places example_visits example_places) l).
Proof.
  split; [reflexivity|].
  apply (read_visits_well_formed_store example_expand_path example_unquote
           example_decode example_decode_ignore (a_path example_path) example_db
           example_visits example_places example_world eq_refl eq_refl eq_refl).
  repeat (constructor;
          [split; [discriminate|eexists; split; [reflexivity|simpl; lia]]|]).
  constructor.
Defined.
